(** * ReviewHub: the review-aggregation consistency core

    A shallow embedding of the reviews route handlers (GET, POST, PUT,
    DELETE and the helper [updateItemRating]) over the [items] and
    [reviews] tables of the schema, followed by the properties of the
    rating aggregate that the handlers maintain.

    Conventions of the embedding:
    - a JavaScript string is its sequence of UTF-16 code units;
    - a JavaScript number that is computed with ([averageRating], the
      running sum of [reduce]) is a binary64 [float]; a number that only
      arrives in a request body is kept in the decimal form that
      [Number::toString] gives it, since the handlers only ever look at
      it through [parseInt], [!] and [typeof];
    - a table is the list of its rows in rowid order;
    - a handler is a function from the store to a response and a store;
      exceptions are explicit, and the handler's [try]/[catch] turns them
      into a 500 response;
    - the wall clock is an argument: [clk k] is the value of the k-th
      [new Date().toISOString()] of the request. *)

From Stdlib Require Import String Ascii.
From Stdlib Require Import ZArith NArith List Bool Lia Floats.
From Stdlib Require DecimalPos DecimalFacts.
Import ListNotations.
Open Scope list_scope.
Open Scope Z_scope.
Set Warnings "-register-all".

(** ** JavaScript strings *)

Definition jsstring := list N.

(** The code units of an ASCII literal. *)
Definition str (s : string) : jsstring :=
  map N_of_ascii (list_ascii_of_string s).

Definition jsstring_eqb (a b : jsstring) : bool :=
  if list_eq_dec N.eq_dec a b then true else false.

(** WhiteSpace and LineTerminator code units, the set that [trim] and
    [parseInt] strip. *)
Definition isWhiteSpace (c : N) : bool :=
  ((c =? 9) || (c =? 10) || (c =? 11) || (c =? 12) || (c =? 13)
   || (c =? 32) || (c =? 160) || (c =? 5760)
   || ((8192 <=? c) && (c <=? 8202))
   || (c =? 8232) || (c =? 8233) || (c =? 8239) || (c =? 8287)
   || (c =? 12288) || (c =? 65279))%N.

Fixpoint trimStart (s : jsstring) : jsstring :=
  match s with
  | c :: s' => if isWhiteSpace c then trimStart s' else s
  | [] => []
  end.

Definition trimEnd (s : jsstring) : jsstring := rev (trimStart (rev s)).

Definition trim (s : jsstring) : jsstring := trimEnd (trimStart s).

(** ** Numbers as they arrive in a JSON body

    [Finite neg s n] is the number whose decimal expansion has the digits
    of [s] and the decimal point after the [n]-th of them, that is
    [s * 10^(n - k)] for [k] the number of digits of [s]: the [n], [k]
    and [s] of Number::toString. *)

Inductive number :=
| NaN
| Infinity (neg : bool)
| Zero (neg : bool)
| Finite (neg : bool) (s : positive) (n : Z).

Fixpoint uint_digits (u : Decimal.uint) : jsstring :=
  match u with
  | Decimal.Nil => []
  | Decimal.D0 u => 48%N :: uint_digits u
  | Decimal.D1 u => 49%N :: uint_digits u
  | Decimal.D2 u => 50%N :: uint_digits u
  | Decimal.D3 u => 51%N :: uint_digits u
  | Decimal.D4 u => 52%N :: uint_digits u
  | Decimal.D5 u => 53%N :: uint_digits u
  | Decimal.D6 u => 54%N :: uint_digits u
  | Decimal.D7 u => 55%N :: uint_digits u
  | Decimal.D8 u => 56%N :: uint_digits u
  | Decimal.D9 u => 57%N :: uint_digits u
  end.

Definition digits (p : positive) : jsstring := uint_digits (Pos.to_uint p).

Definition nat_digits (e : Z) : jsstring := uint_digits (N.to_uint (Z.to_N e)).

Definition zeros (n : Z) : jsstring := repeat 48%N (Z.to_nat n).

Definition minus_sign (neg : bool) : jsstring := if neg then str "-" else [].

(** Number::toString, radix 10. *)
Definition Number_toString (x : number) : jsstring :=
  match x with
  | NaN => str "NaN"
  | Zero _ => str "0"
  | Infinity neg => minus_sign neg ++ str "Infinity"
  | Finite neg s n =>
      let ds := digits s in
      let k := Z.of_nat (length ds) in
      minus_sign neg ++
      (if (k <=? n) && (n <=? 21) then ds ++ zeros (n - k)
       else if (0 <? n) && (n <=? 21) then
         firstn (Z.to_nat n) ds ++ str "." ++ skipn (Z.to_nat n) ds
       else if (-6 <? n) && (n <=? 0) then str "0." ++ zeros (- n) ++ ds
       else
         let e := n - 1 in
         let es := (if e <? 0 then str "-" else str "+") ++ nat_digits (Z.abs e) in
         if k =? 1 then ds ++ str "e" ++ es
         else firstn 1 ds ++ str "." ++ skipn 1 ds ++ str "e" ++ es)
  end.

(** ** Values of a parsed JSON body *)

Inductive jsval :=
| JUndefined                (* an absent property *)
| JNull
| JBool (b : bool)
| JNum (x : number)
| JStr (s : jsstring)
| JArr (l : list jsval)
| JObj.                     (* an object literal; its properties are not recorded,
                               so neither is one named toString, on which
                               ToString throws *)

Fixpoint ToString (v : jsval) : jsstring :=
  match v with
  | JUndefined => str "undefined"
  | JNull => str "null"
  | JBool true => str "true"
  | JBool false => str "false"
  | JNum x => Number_toString x
  | JStr s => s
  | JObj => str "[object Object]"
  | JArr l =>
      (* Array.prototype.join with the separator "," *)
      let elem x :=
        match x with
        | JUndefined | JNull => []
        | _ => ToString x
        end in
      (fix join (l : list jsval) : jsstring :=
         match l with
         | [] => []
         | [x] => elem x
         | x :: r => elem x ++ str "," ++ join r
         end) l
  end.

(** ToBoolean: what [!v] negates. *)
Definition truthy (v : jsval) : bool :=
  match v with
  | JUndefined | JNull => false
  | JBool b => b
  | JNum NaN | JNum (Zero _) => false
  | JNum _ => true
  | JStr [] => false
  | JStr _ => true
  | JArr _ | JObj => true
  end.

Definition is_undefined (v : jsval) : bool :=
  match v with JUndefined => true | _ => false end.

(** [typeof v === 'string'] *)
Definition typeof_string (v : jsval) : bool :=
  match v with JStr _ => true | _ => false end.

(** ** parseInt

    [None] is NaN.  The result is the integer that the digits denote;
    JavaScript rounds it to the nearest binary64, which changes nothing
    below 2^53 and never changes how it compares with 1 and 5. *)

Definition digitValue (radix : Z) (c : N) : option Z :=
  let v :=
    (if (48 <=? c) && (c <=? 57) then Some (c - 48)
     else if (97 <=? c) && (c <=? 122) then Some (c - 87)
     else if (65 <=? c) && (c <=? 90) then Some (c - 55)
     else None)%N in
  match v with
  | Some d => if Z.of_N d <? radix then Some (Z.of_N d) else None
  | None => None
  end.

(** The value of the longest prefix of radix-[radix] digits; [acc] is
    [None] as long as no digit was read. *)
Fixpoint parseDigits (radix : Z) (acc : option Z) (s : jsstring) : option Z :=
  match s with
  | [] => acc
  | c :: s' =>
      match digitValue radix c with
      | Some d =>
          parseDigits radix
            (Some (radix * match acc with Some a => a | None => 0 end + d)) s'
      | None => acc
      end
  end.

Definition parseInt_string (input : jsstring) : option Z :=
  let s0 := trimStart input in
  let sign := match s0 with 45%N :: _ => -1 | _ => 1 end in
  let s1 := match s0 with 45%N :: r | 43%N :: r => r | _ => s0 end in
  let '(radix, s2) :=
    match s1 with
    | 48%N :: 120%N :: r | 48%N :: 88%N :: r => (16, r)
    | _ => (10, s1)
    end in
  match parseDigits radix None s2 with
  | Some m => Some (sign * m)
  | None => None
  end.

Definition parseInt (v : jsval) : option Z := parseInt_string (ToString v).

Definition isNaN (x : option Z) : bool :=
  match x with None => true | Some _ => false end.

(** [x < c] and [x > c] on a parseInt result; false on NaN. *)
Definition num_lt (x : option Z) (c : Z) : bool :=
  match x with Some z => z <? c | None => false end.

Definition num_gt (x : option Z) (c : Z) : bool :=
  match x with Some z => c <? z | None => false end.

(** ** The schema: rows of [items] and [reviews] *)

Module Item.
Record t := mk {
  id : Z;
  name : jsstring;
  description : option jsstring;
  category : jsstring;
  imageUrl : option jsstring;
  averageRating : float;
  totalReviews : Z;
  createdAt : jsstring;
  updatedAt : jsstring
}.
End Item.

Module Review.
Record t := mk {
  id : Z;
  itemId : Z;
  userId : jsstring;
  rating : Z;
  title : jsstring;
  comment : option jsstring;
  createdAt : jsstring;
  updatedAt : jsstring
}.
End Review.

(** The store.  [reviews_seq] is the largest rowid that the AUTOINCREMENT
    key of [reviews] has handed out so far. *)
Record db := mkdb {
  items : list Item.t;
  reviews : list Review.t;
  reviews_seq : Z
}.

(** ** Handler bodies: store passing with exceptions *)

Inductive exn :=
| TypeError      (* a property read or a call on a value that has none *)
| SyntaxError.   (* [request.json()] on a body that is not JSON *)

Definition io (A : Type) : Type := db -> (A + exn) * db.

Definition ret {A} (a : A) : io A := fun d => (inl a, d).

Definition throw {A} (e : exn) : io A := fun d => (inr e, d).

Definition bind {A B} (m : io A) (k : A -> io B) : io B :=
  fun d =>
    match m d with
    | (inl a, d') => k a d'
    | (inr e, d') => (inr e, d')
    end.

Definition try_catch {A} (m : io A) (h : exn -> io A) : io A :=
  fun d =>
    match m d with
    | (inl a, d') => (inl a, d')
    | (inr e, d') => h e d'
    end.

Declare Scope io_scope.
Delimit Scope io_scope with io.
Notation "x <- m ;; k" := (bind m (fun x => k))
  (at level 61, m at next level, right associativity) : io_scope.
Notation "m ;; k" := (bind m (fun _ => k))
  (at level 61, right associativity) : io_scope.
Open Scope io_scope.

(** ** The statements the handlers issue

    Each is one awaited statement of the query builder, run against the
    store in one step. *)

(** [db.select().from(reviews).where(p)] *)
Definition select_reviews (p : Review.t -> bool) : io (list Review.t) :=
  fun d => (inl (filter p (reviews d)), d).

(** [db.select().from(items).where(p)] *)
Definition select_items (p : Item.t -> bool) : io (list Item.t) :=
  fun d => (inl (filter p (items d)), d).

(** [.limit(1)] on a result *)
Definition limit1 {A} (l : list A) : list A := firstn 1 l.

(** The rowid of the next insert into an AUTOINCREMENT table: one more
    than the largest rowid ever present. *)
Definition next_rowid (d : db) : Z :=
  fold_left Z.max (map Review.id (reviews d)) (reviews_seq d) + 1.

(** The columns of an insert into [reviews]; the key is the store's. *)
Record review_values := mkvalues {
  v_itemId : Z;
  v_userId : jsstring;
  v_rating : Z;
  v_title : jsstring;
  v_comment : option jsstring;
  v_createdAt : jsstring;
  v_updatedAt : jsstring
}.

(** [db.insert(reviews).values(v).returning()].  A text is stored as it
    is given, which is what the driver does with a text that holds no
    NUL and no lone surrogate. *)
Definition insert_review (v : review_values) : io (list Review.t) :=
  fun d =>
    let row := Review.mk (next_rowid d) (v_itemId v) (v_userId v) (v_rating v)
                 (v_title v) (v_comment v) (v_createdAt v) (v_updatedAt v) in
    (inl [row], mkdb (items d) (reviews d ++ [row]) (next_rowid d)).

(** The [updates] object of PUT: a column is set when its property is. *)
Record review_updates := mkupdates {
  u_rating : option Z;
  u_title : option jsstring;
  u_comment : option (option jsstring);
  u_updatedAt : jsstring
}.

Definition set_review (u : review_updates) (r : Review.t) : Review.t :=
  Review.mk (Review.id r) (Review.itemId r) (Review.userId r)
    (match u_rating u with Some x => x | None => Review.rating r end)
    (match u_title u with Some x => x | None => Review.title r end)
    (match u_comment u with Some x => x | None => Review.comment r end)
    (Review.createdAt r)
    (u_updatedAt u).

(** [db.update(reviews).set(u).where(p).returning()], with text stored
    as by [insert_review]. *)
Definition update_reviews (u : review_updates) (p : Review.t -> bool)
  : io (list Review.t) :=
  fun d =>
    (inl (map (set_review u) (filter p (reviews d))),
     mkdb (items d)
       (map (fun r => if p r then set_review u r else r) (reviews d))
       (reviews_seq d)).

(** [db.delete(reviews).where(p).returning()] *)
Definition delete_reviews (p : Review.t -> bool) : io (list Review.t) :=
  fun d =>
    (inl (filter p (reviews d)),
     mkdb (items d) (filter (fun r => negb (p r)) (reviews d)) (reviews_seq d)).

Definition set_item_rating (avg : float) (total : Z) (now : jsstring)
  (i : Item.t) : Item.t :=
  Item.mk (Item.id i) (Item.name i) (Item.description i) (Item.category i)
    (Item.imageUrl i) avg total (Item.createdAt i) now.

(** [db.update(items).set({averageRating, totalReviews, updatedAt}).where(p)] *)
Definition update_items_rating (avg : float) (total : Z) (now : jsstring)
  (p : Item.t -> bool) : io unit :=
  fun d =>
    (inl tt,
     mkdb (map (fun i => if p i then set_item_rating avg total now i else i)
             (items d))
       (reviews d) (reviews_seq d)).

(** ** The aggregation recomputation: [updateItemRating] *)

(** An integer column read into a JavaScript number. *)
Definition number_of_Z (z : Z) : float :=
  SF2Prim (binary_normalize prec emax z 0 false).

(** [itemReviews.reduce((sum, r) => sum + r.rating, 0)] *)
Definition sum_ratings (itemReviews : list Review.t) : float :=
  fold_left (fun sum r => PrimFloat.add sum (number_of_Z (Review.rating r)))
    itemReviews PrimFloat.zero.

Definition array_length {A} (l : list A) : Z := Z.of_nat (length l).

Definition average (itemReviews : list Review.t) : float :=
  if 0 <? array_length itemReviews
  then PrimFloat.div (sum_ratings itemReviews)
         (number_of_Z (array_length itemReviews))
  else PrimFloat.zero.

Definition updateItemRating (now : jsstring) (itemId : Z) : io unit :=
  try_catch
    (itemReviews <- select_reviews (fun r => Review.itemId r =? itemId) ;;
     let averageRating := average itemReviews in
     update_items_rating averageRating (array_length itemReviews) now
       (fun i => Item.id i =? itemId))
    (fun error => throw error).

(** ** Requests and responses *)

(** The payload of [NextResponse.json]. *)
Inductive json :=
| JsonError (error : string) (code : option string)
| JsonServerError (e : exn)        (* 'Internal server error: ' + message *)
| JsonReview (r : Review.t)
| JsonReviews (l : list Review.t)
| JsonDeleted (id : Z)             (* 'Review deleted successfully', id *)
| JsonUndefined.

Record response := mkresponse { body : json; status : Z }.

Definition NextResponse_json (b : json) (s : Z) : io response :=
  ret (mkresponse b s).

(** The properties that POST destructures from the body; an absent one
    is [JUndefined]. *)
Module CreateBody.
Record t := mk {
  itemId : jsval;
  userId : jsval;
  rating : jsval;
  title : jsval;
  comment : jsval
}.
End CreateBody.

(** The properties that PUT destructures from the body. *)
Module UpdateBody.
Record t := mk {
  rating : jsval;
  title : jsval;
  comment : jsval
}.
End UpdateBody.

(** [const {...} = await request.json()]: [None] is a body that is not
    JSON, or the JSON [null], on which destructuring throws. *)
Definition request_json {A} (request : option A) : io A :=
  match request with
  | Some b => ret b
  | None => throw SyntaxError
  end.

(** [searchParams.get(k)]: a string, or null as [None].  [!p] holds of
    null and of the empty string. *)
Definition param_truthy (p : option jsstring) : bool :=
  match p with
  | Some (_ :: _) => true
  | _ => false
  end.

Definition parseInt_param (p : option jsstring) : option Z :=
  match p with
  | Some s => parseInt_string s
  | None => parseInt JNull
  end.

(** [v.trim() === ''], evaluated on strings only. *)
Definition trim_is_empty (v : jsval) : bool :=
  match v with
  | JStr s => match trim s with [] => true | _ => false end
  | _ => false
  end.

(** [v.trim()]: only a string has the method. *)
Definition call_trim (v : jsval) : io jsstring :=
  match v with
  | JStr s => ret (trim s)
  | _ => throw TypeError
  end.

(** [eq(column, x)] for a number [x] *)
Definition eq_num (column : Z) (x : option Z) : bool :=
  match x with
  | Some z => column =? z
  | None => false
  end.

(** A number bound to an integer column; unreachable on NaN, which the
    validations before every use exclude. *)
Definition to_integer (x : option Z) : io Z :=
  match x with
  | Some z => ret z
  | None => throw TypeError
  end.

(** The handler's [try { ... } catch (error) { return 500 }]. *)
Definition handler (m : io response) (d : db) : response * db :=
  match m d with
  | (inl r, d') => (r, d')
  | (inr e, d') => (mkresponse (JsonServerError e) 500, d')
  end.

(** ** POST: create a review *)

Definition POST (clk : nat -> jsstring) (request : option CreateBody.t)
  : db -> response * db :=
  handler
    (body <- request_json request ;;
     let itemId := CreateBody.itemId body in
     let userId := CreateBody.userId body in
     let rating := CreateBody.rating body in
     let title := CreateBody.title body in
     let comment := CreateBody.comment body in
     if negb (truthy itemId) || isNaN (parseInt itemId) then
       NextResponse_json
         (JsonError "Valid itemId is required" (Some "INVALID_ITEM_ID"%string)) 400
     else if negb (truthy userId) || negb (typeof_string userId)
             || trim_is_empty userId then
       NextResponse_json
         (JsonError "Valid userId is required" (Some "INVALID_USER_ID"%string)) 400
     else if negb (truthy rating) || isNaN (parseInt rating)
             || num_lt (parseInt rating) 1 || num_gt (parseInt rating) 5 then
       NextResponse_json
         (JsonError "Rating must be an integer between 1 and 5"
            (Some "INVALID_RATING"%string)) 400
     else if negb (truthy title) || negb (typeof_string title)
             || trim_is_empty title then
       NextResponse_json
         (JsonError "Title is required" (Some "MISSING_TITLE"%string)) 400
     else
       item <- select_items (fun i => eq_num (Item.id i) (parseInt itemId)) ;;
       match limit1 item with
       | [] => NextResponse_json (JsonError "Item not found" None) 404
       | _ :: _ =>
           itemId' <- to_integer (parseInt itemId) ;;
           userId' <- call_trim userId ;;
           rating' <- to_integer (parseInt rating) ;;
           title' <- call_trim title ;;
           comment' <- (if truthy comment
                        then c <- call_trim comment ;; ret (Some c)
                        else ret None) ;;
           newReview <- insert_review
                          (mkvalues itemId' userId' rating' title' comment'
                             (clk 0%nat) (clk 1%nat)) ;;
           updateItemRating (clk 2%nat) itemId' ;;
           match newReview with
           | r :: _ => NextResponse_json (JsonReview r) 201
           | [] => NextResponse_json JsonUndefined 201
           end
       end).

(** ** PUT: update a review *)

Definition PUT (clk : nat -> jsstring) (id : option jsstring)
  (request : option UpdateBody.t) : db -> response * db :=
  handler
    (if negb (param_truthy id) || isNaN (parseInt_param id) then
       NextResponse_json
         (JsonError "Valid ID is required" (Some "INVALID_ID"%string)) 400
     else
       body <- request_json request ;;
       let rating := UpdateBody.rating body in
       let title := UpdateBody.title body in
       let comment := UpdateBody.comment body in
       existingReview <-
         select_reviews (fun r => eq_num (Review.id r) (parseInt_param id)) ;;
       match limit1 existingReview with
       | [] => NextResponse_json (JsonError "Review not found" None) 404
       | existing :: _ =>
           let updatedAt := clk 0%nat in
           if negb (is_undefined rating)
              && (isNaN (parseInt rating) || num_lt (parseInt rating) 1
                  || num_gt (parseInt rating) 5) then
             NextResponse_json
               (JsonError "Rating must be an integer between 1 and 5"
                  (Some "INVALID_RATING"%string)) 400
           else
             updates_rating <-
               (if negb (is_undefined rating)
                then x <- to_integer (parseInt rating) ;; ret (Some x)
                else ret None) ;;
             if negb (is_undefined title)
                && (negb (typeof_string title) || trim_is_empty title) then
               NextResponse_json
                 (JsonError "Title must be a non-empty string"
                    (Some "INVALID_TITLE"%string)) 400
             else
               updates_title <-
                 (if negb (is_undefined title)
                  then x <- call_trim title ;; ret (Some x)
                  else ret None) ;;
               updates_comment <-
                 (if negb (is_undefined comment)
                  then (if truthy comment
                        then c <- call_trim comment ;; ret (Some (Some c))
                        else ret (Some None))
                  else ret None) ;;
               updated <-
                 update_reviews
                   (mkupdates updates_rating updates_title updates_comment
                      updatedAt)
                   (fun r => eq_num (Review.id r) (parseInt_param id)) ;;
               (if negb (is_undefined rating)
                then updateItemRating (clk 1%nat) (Review.itemId existing)
                else ret tt) ;;
               match updated with
               | r :: _ => NextResponse_json (JsonReview r) 200
               | [] => NextResponse_json JsonUndefined 200
               end
       end).

(** ** DELETE: delete a review *)

Definition DELETE (clk : nat -> jsstring) (id : option jsstring)
  : db -> response * db :=
  handler
    (if negb (param_truthy id) || isNaN (parseInt_param id) then
       NextResponse_json
         (JsonError "Valid ID is required" (Some "INVALID_ID"%string)) 400
     else
       existingReview <-
         select_reviews (fun r => eq_num (Review.id r) (parseInt_param id)) ;;
       match limit1 existingReview with
       | [] => NextResponse_json (JsonError "Review not found" None) 404
       | existing :: _ =>
           let itemId := Review.itemId existing in
           deleted <-
             delete_reviews (fun r => eq_num (Review.id r) (parseInt_param id)) ;;
           updateItemRating (clk 0%nat) itemId ;;
           match deleted with
           | r :: _ => NextResponse_json (JsonDeleted (Review.id r)) 200
           | [] => throw TypeError
           end
       end).

(** ** GET: one review, or a page of reviews *)

Inductive column :=
| col_id | col_itemId | col_userId | col_rating | col_title | col_comment
| col_createdAt | col_updatedAt.

Inductive direction := asc | desc.

(** The list query as the builder assembles it; a NaN limit or offset is
    [None]. *)
Record select_query := mkquery {
  q_where_itemId : option Z;
  q_orderBy : direction * column;
  q_limit : option Z;
  q_offset : option Z
}.

(** [p ?? dflt] *)
Definition nullish (p : option jsstring) (dflt : jsstring) : jsstring :=
  match p with Some s => s | None => dflt end.

(** [Math.min(x, 100)] *)
Definition Math_min_100 (x : option Z) : option Z :=
  match x with Some z => Some (Z.min z 100) | None => None end.

(** [sort === 'createdAt' ? reviews.createdAt : reviews.createdAt] *)
Definition orderColumn (sort : jsstring) : column :=
  if jsstring_eqb sort (str "createdAt") then col_createdAt else col_createdAt.

(** The query string of GET. *)
Record search_params := mkparams {
  p_id : option jsstring;
  p_itemId : option jsstring;
  p_limit : option jsstring;
  p_offset : option jsstring;
  p_sort : option jsstring;
  p_order : option jsstring
}.

(** [order === 'asc' ? query.orderBy(asc(c)) : query.orderBy(desc(c))] *)
Definition orderBy (order : jsstring) (c : column) : direction * column :=
  if jsstring_eqb order (str "asc") then (asc, c) else (desc, c).

(** The engine that runs a list query is the store's and is left open:
    [execute q] is the awaited [query.limit(limit).offset(offset)]. *)
Definition GET (execute : select_query -> io (list Review.t))
  (searchParams : search_params) : db -> response * db :=
  handler
    (let id := p_id searchParams in
     let itemId := p_itemId searchParams in
     let limit :=
       Math_min_100 (parseInt_string (nullish (p_limit searchParams) (str "10"))) in
     let offset := parseInt_string (nullish (p_offset searchParams) (str "0")) in
     let sort := nullish (p_sort searchParams) (str "createdAt") in
     let order := nullish (p_order searchParams) (str "desc") in
     if param_truthy id then
       if negb (param_truthy id) || isNaN (parseInt_param id) then
         NextResponse_json
           (JsonError "Valid ID is required" (Some "INVALID_ID"%string)) 400
       else
         review <-
           select_reviews (fun r => eq_num (Review.id r) (parseInt_param id)) ;;
         match limit1 review with
         | [] => NextResponse_json (JsonError "Review not found" None) 404
         | r :: _ => NextResponse_json (JsonReview r) 200
         end
     else
       let finish (where_itemId : option Z) : io response :=
         results <-
           execute (mkquery where_itemId (orderBy order (orderColumn sort))
                      limit offset) ;;
         NextResponse_json (JsonReviews results) 200 in
       if param_truthy itemId then
         if isNaN (parseInt_param itemId) then
           NextResponse_json
             (JsonError "Valid itemId is required"
                (Some "INVALID_ITEM_ID"%string)) 400
         else
           w <- to_integer (parseInt_param itemId) ;;
           finish (Some w)
       else finish None).

(** ** Sequences of mutations *)

Inductive request :=
| Create (clk : nat -> jsstring) (body : option CreateBody.t)
| Update (clk : nat -> jsstring) (id : option jsstring)
    (body : option UpdateBody.t)
| Delete (clk : nat -> jsstring) (id : option jsstring).

Definition handle (q : request) : db -> response * db :=
  match q with
  | Create clk b => POST clk b
  | Update clk id b => PUT clk id b
  | Delete clk id => DELETE clk id
  end.

(** The stores after each request of a sequence run one after another. *)
Fixpoint run (qs : list request) (d : db) : list db :=
  match qs with
  | [] => []
  | q :: qs' => let d' := snd (handle q d) in d' :: run qs' d'
  end.

(** * The items route

    The handlers of [/api/items] (GET, POST, PUT, DELETE) over the same
    two tables.  Three things that the route relies on are not part of
    the repository and are left open:
    - what the database driver stores when a value that is neither a
      string nor null is bound to a text column ([description] and
      [imageUrl] are bound as they arrive), [bind_text];
    - whether the connection enforces foreign keys, [foreign_keys];
    - the engine that runs the list query, as for the reviews. *)

(** ** parseFloat *)

Definition is_digit (c : N) : bool := ((48 <=? c) && (c <=? 57))%N.

(** The longest prefix of decimal digits, and what follows it. *)
Fixpoint take_digits (s : jsstring) : jsstring * jsstring :=
  match s with
  | c :: s' =>
      if is_digit c
      then let '(ds, rest) := take_digits s' in (c :: ds, rest)
      else ([], s)
  | [] => ([], [])
  end.

Definition decimal_value (ds : jsstring) : Z :=
  fold_left (fun a c => 10 * a + Z.of_N (c - 48)) ds 0.

Fixpoint starts_with (p s : jsstring) : bool :=
  match p, s with
  | [], _ => true
  | a :: p', b :: s' => (a =? b)%N && starts_with p' s'
  | _ :: _, [] => false
  end.

(** The binary64 nearest to [m * 10^e], ties to even: the integer
    rounded when [e] is not negative, and otherwise the correctly
    rounded quotient of [m] by the power of ten. *)
Definition round_decimal (neg : bool) (m e : Z) : float :=
  if m =? 0 then (if neg then neg_zero else PrimFloat.zero)
  else if 0 <=? e then
    SF2Prim (binary_normalize prec emax ((if neg then - m else m) * 10 ^ e) 0 false)
  else
    SF2Prim (SFdiv prec emax (S754_finite neg (Z.to_pos m) 0)
               (S754_finite false (Z.to_pos (10 ^ (- e))) 0)).

(** The value of the longest prefix of the trimmed string that is a
    StrDecimalLiteral; NaN when there is none. *)
Definition parseFloat_string (input : jsstring) : float :=
  let s0 := trimStart input in
  let neg := match s0 with 45%N :: _ => true | _ => false end in
  let s1 := match s0 with 45%N :: r | 43%N :: r => r | _ => s0 end in
  if starts_with (str "Infinity") s1
  then (if neg then neg_infinity else infinity)
  else
    let '(int_part, s2) := take_digits s1 in
    let '(frac_part, s3) :=
      match s2 with
      | 46%N :: r => take_digits r
      | _ => ([], s2)
      end in
    match int_part ++ frac_part with
    | [] => nan
    | ds =>
        let exponent :=
          match s3 with
          | 101%N :: r | 69%N :: r =>
              let '(esign, r') :=
                match r with
                | 45%N :: t => (-1, t)
                | 43%N :: t => (1, t)
                | _ => (1, r)
                end in
              match fst (take_digits r') with
              | [] => 0
              | eds => esign * decimal_value eds
              end
          | _ => 0
          end in
        round_decimal neg (decimal_value ds)
          (exponent - Z.of_nat (length frac_part))
    end.

Definition parseFloat (v : jsval) : float := parseFloat_string (ToString v).

(** ** The store of the route *)

(** The reviews route inserts no item, so its store carries no sequence
    for the AUTOINCREMENT key of [items]; the items route needs one. *)
Record catalog := mkcatalog {
  store : db;
  items_seq : Z
}.

(** What the driver and the connection decide. *)
Record driver := mkdriver {
  bind_text : jsval -> option (option jsstring);
  foreign_keys : bool
}.

(** What a REAL column hands back of a number written to it: the number,
    but for a negative zero, which is read back as zero. *)
Definition stored_real (x : float) : float :=
  if PrimFloat.eqb x 0 then 0%float else x.

Inductive item_exn :=
| JsError (e : exn)     (* thrown by the handler's own code *)
| DriverError           (* the driver refuses a bound value *)
| ConstraintError.      (* FOREIGN KEY constraint failed *)

Module Items.

Definition io (A : Type) : Type := catalog -> (A + item_exn) * catalog.

Definition ret {A} (a : A) : io A := fun c => (inl a, c).

Definition throw {A} (e : item_exn) : io A := fun c => (inr e, c).

Definition bind {A B} (m : io A) (k : A -> io B) : io B :=
  fun c =>
    match m c with
    | (inl a, c') => k a c'
    | (inr e, c') => (inr e, c')
    end.

Declare Scope items_scope.
Delimit Scope items_scope with items.
Notation "x <- m ;; k" := (bind m (fun x => k))
  (at level 61, m at next level, right associativity) : items_scope.
#[local] Open Scope items_scope.

(** ** Statements *)

(** [db.select().from(items).where(p)] *)
Definition select_items (p : Item.t -> bool) : io (list Item.t) :=
  fun c => (inl (filter p (items (store c))), c).

(** The rowid of the next insert into [items]. *)
Definition next_rowid (c : catalog) : Z :=
  fold_left Z.max (map Item.id (items (store c))) (items_seq c) + 1.

(** A value bound to a nullable text column. *)
Definition bind_column (drv : driver) (v : jsval) : io (option jsstring) :=
  match v with
  | JNull => ret None
  | JStr s => ret (Some s)
  | _ =>
      match bind_text drv v with
      | Some x => ret x
      | None => throw DriverError
      end
  end.

(** The columns of an insert into [items]; [description] and [imageUrl]
    are the values of the body, or null. *)
Record item_values := mkvalues {
  v_name : jsstring;
  v_description : jsval;
  v_category : jsstring;
  v_imageUrl : jsval;
  v_averageRating : float;
  v_totalReviews : Z;
  v_createdAt : jsstring;
  v_updatedAt : jsstring
}.

(** [db.insert(items).values(v).returning()].  A text is stored as it is
    given, which is what the driver does with a text that holds no NUL
    and no lone surrogate; the returned row is read without failure,
    which is what the driver does with integers below 2^53 in
    magnitude. *)
Definition insert_item (drv : driver) (v : item_values) : io (list Item.t) :=
  description <- bind_column drv (v_description v) ;;
  imageUrl <- bind_column drv (v_imageUrl v) ;;
  fun c =>
    let row := Item.mk (next_rowid c) (v_name v) description (v_category v)
                 imageUrl (stored_real (v_averageRating v)) (v_totalReviews v)
                 (v_createdAt v) (v_updatedAt v) in
    (inl [row],
     mkcatalog
       (mkdb (items (store c) ++ [row]) (reviews (store c))
          (reviews_seq (store c)))
       (next_rowid c)).

(** The [updates] object of PUT: a column is set when its property is. *)
Record item_updates := mkupdates {
  u_name : option jsstring;
  u_description : option jsval;
  u_category : option jsstring;
  u_imageUrl : option jsval;
  u_averageRating : option float;
  u_totalReviews : option Z;
  u_updatedAt : jsstring
}.

(** The columns of [updates] as the driver binds them. *)
Record bound_updates := mkbound {
  b_name : option jsstring;
  b_description : option (option jsstring);
  b_category : option jsstring;
  b_imageUrl : option (option jsstring);
  b_averageRating : option float;
  b_totalReviews : option Z;
  b_updatedAt : jsstring
}.

Definition or_keep {A} (x : option A) (old : A) : A :=
  match x with Some v => v | None => old end.

Definition set_item (u : bound_updates) (i : Item.t) : Item.t :=
  Item.mk (Item.id i)
    (or_keep (b_name u) (Item.name i))
    (or_keep (b_description u) (Item.description i))
    (or_keep (b_category u) (Item.category i))
    (or_keep (b_imageUrl u) (Item.imageUrl i))
    (or_keep (option_map stored_real (b_averageRating u)) (Item.averageRating i))
    (or_keep (b_totalReviews u) (Item.totalReviews i))
    (Item.createdAt i)
    (b_updatedAt u).

Definition bind_optional (drv : driver) (v : option jsval)
  : io (option (option jsstring)) :=
  match v with
  | Some x => y <- bind_column drv x ;; ret (Some y)
  | None => ret None
  end.

(** [db.update(items).set(u).where(p).returning()], with text stored
    and rows returned as by [insert_item]. *)
Definition update_items (drv : driver) (u : item_updates) (p : Item.t -> bool)
  : io (list Item.t) :=
  description <- bind_optional drv (u_description u) ;;
  imageUrl <- bind_optional drv (u_imageUrl u) ;;
  fun c =>
    let b := mkbound (u_name u) description (u_category u) imageUrl
               (u_averageRating u) (u_totalReviews u) (u_updatedAt u) in
    (inl (map (set_item b) (filter p (items (store c)))),
     mkcatalog
       (mkdb (map (fun i => if p i then set_item b i else i) (items (store c)))
          (reviews (store c)) (reviews_seq (store c)))
       (items_seq c)).

(** A review refers to one of the rows. *)
Definition referenced (rows : list Item.t) (r : Review.t) : bool :=
  existsb (fun i => Item.id i =? Review.itemId r) rows.

(** [db.delete(items).where(p).returning()]: with foreign keys enforced
    the statement fails when a review refers to a row that it would
    delete ([ON DELETE no action]).  The rows are returned as by
    [insert_item]. *)
Definition delete_items (drv : driver) (p : Item.t -> bool)
  : io (list Item.t) :=
  fun c =>
    let rows := filter p (items (store c)) in
    if foreign_keys drv && existsb (referenced rows) (reviews (store c))
    then (inr ConstraintError, c)
    else
      (inl rows,
       mkcatalog
         (mkdb (filter (fun i => negb (p i)) (items (store c)))
            (reviews (store c)) (reviews_seq (store c)))
         (items_seq c)).

(** ** Requests and responses *)

Inductive json :=
| JsonError (error : string) (code : option string)
| JsonServerError (e : item_exn)   (* 'Internal server error: ' + message *)
| JsonItem (i : Item.t)
| JsonItems (l : list Item.t)
| JsonDeleted (id : Z)             (* 'Item deleted successfully', id *)
| JsonUndefined.

Record response := mkresponse { body : json; status : Z }.

Definition NextResponse_json (b : json) (s : Z) : io response :=
  ret (mkresponse b s).

(** The properties that POST destructures from the body. *)
Module CreateBody.
Record t := mk {
  name : jsval;
  description : jsval;
  category : jsval;
  imageUrl : jsval
}.
End CreateBody.

(** The properties that PUT destructures from the body. *)
Module UpdateBody.
Record t := mk {
  name : jsval;
  description : jsval;
  category : jsval;
  imageUrl : jsval;
  averageRating : jsval;
  totalReviews : jsval
}.
End UpdateBody.

Definition request_json {A} (request : option A) : io A :=
  match request with
  | Some b => ret b
  | None => throw (JsError SyntaxError)
  end.

Definition call_trim (v : jsval) : io jsstring :=
  match v with
  | JStr s => ret (trim s)
  | _ => throw (JsError TypeError)
  end.

Definition to_integer (x : option Z) : io Z :=
  match x with
  | Some z => ret z
  | None => throw (JsError TypeError)
  end.

(** [v || null] *)
Definition or_null (v : jsval) : jsval := if truthy v then v else JNull.

Definition handler (m : io response) (c : catalog) : response * catalog :=
  match m c with
  | (inl r, c') => (r, c')
  | (inr e, c') => (mkresponse (JsonServerError e) 500, c')
  end.

(** ** POST: create an item *)

Definition POST (drv : driver) (clk : nat -> jsstring)
  (request : option CreateBody.t) : catalog -> response * catalog :=
  handler
    (body <- request_json request ;;
     let name := CreateBody.name body in
     let description := CreateBody.description body in
     let category := CreateBody.category body in
     let imageUrl := CreateBody.imageUrl body in
     if negb (truthy name) || negb (typeof_string name) || trim_is_empty name then
       NextResponse_json
         (JsonError "Name is required" (Some "MISSING_NAME"%string)) 400
     else if negb (truthy category) || negb (typeof_string category)
             || trim_is_empty category then
       NextResponse_json
         (JsonError "Category is required" (Some "MISSING_CATEGORY"%string)) 400
     else
       let timestamp := clk 0%nat in
       name' <- call_trim name ;;
       category' <- call_trim category ;;
       newItem <- insert_item drv
                    (mkvalues name' (or_null description) category'
                       (or_null imageUrl) PrimFloat.zero 0 timestamp timestamp) ;;
       match newItem with
       | i :: _ => NextResponse_json (JsonItem i) 201
       | [] => NextResponse_json JsonUndefined 201
       end).

(** ** PUT: update an item *)

Definition PUT (drv : driver) (clk : nat -> jsstring) (id : option jsstring)
  (request : option UpdateBody.t) : catalog -> response * catalog :=
  handler
    (if negb (param_truthy id) || isNaN (parseInt_param id) then
       NextResponse_json
         (JsonError "Valid ID is required" (Some "INVALID_ID"%string)) 400
     else
       body <- request_json request ;;
       let name := UpdateBody.name body in
       let description := UpdateBody.description body in
       let category := UpdateBody.category body in
       let imageUrl := UpdateBody.imageUrl body in
       let averageRating := UpdateBody.averageRating body in
       let totalReviews := UpdateBody.totalReviews body in
       existingItem <-
         select_items (fun i => eq_num (Item.id i) (parseInt_param id)) ;;
       match limit1 existingItem with
       | [] => NextResponse_json (JsonError "Item not found" None) 404
       | _ :: _ =>
           let updatedAt := clk 0%nat in
           if negb (is_undefined name)
              && (negb (typeof_string name) || trim_is_empty name) then
             NextResponse_json
               (JsonError "Name must be a non-empty string"
                  (Some "INVALID_NAME"%string)) 400
           else
             updates_name <-
               (if negb (is_undefined name)
                then x <- call_trim name ;; ret (Some x)
                else ret None) ;;
             let updates_description :=
               if negb (is_undefined description) then Some description
               else None in
             if negb (is_undefined category)
                && (negb (typeof_string category) || trim_is_empty category) then
               NextResponse_json
                 (JsonError "Category must be a non-empty string"
                    (Some "INVALID_CATEGORY"%string)) 400
             else
               updates_category <-
                 (if negb (is_undefined category)
                  then x <- call_trim category ;; ret (Some x)
                  else ret None) ;;
               let updates_imageUrl :=
                 if negb (is_undefined imageUrl) then Some imageUrl else None in
               let rating := parseFloat averageRating in
               if negb (is_undefined averageRating)
                  && (PrimFloat.is_nan rating || PrimFloat.ltb rating 0
                      || PrimFloat.ltb 5 rating) then
                 NextResponse_json
                   (JsonError "Average rating must be between 0 and 5"
                      (Some "INVALID_RATING"%string)) 400
               else
                 let updates_averageRating :=
                   if negb (is_undefined averageRating) then Some rating
                   else None in
                 let reviews := parseInt totalReviews in
                 if negb (is_undefined totalReviews)
                    && (isNaN reviews || num_lt reviews 0) then
                   NextResponse_json
                     (JsonError "Total reviews must be a non-negative integer"
                        (Some "INVALID_REVIEWS"%string)) 400
                 else
                   updates_totalReviews <-
                     (if negb (is_undefined totalReviews)
                      then x <- to_integer reviews ;; ret (Some x)
                      else ret None) ;;
                   updatedItem <-
                     update_items drv
                       (mkupdates updates_name updates_description
                          updates_category updates_imageUrl
                          updates_averageRating updates_totalReviews updatedAt)
                       (fun i => eq_num (Item.id i) (parseInt_param id)) ;;
                   match updatedItem with
                   | i :: _ => NextResponse_json (JsonItem i) 200
                   | [] => NextResponse_json JsonUndefined 200
                   end
       end).

(** ** DELETE: delete an item *)

Definition DELETE (drv : driver) (id : option jsstring)
  : catalog -> response * catalog :=
  handler
    (if negb (param_truthy id) || isNaN (parseInt_param id) then
       NextResponse_json
         (JsonError "Valid ID is required" (Some "INVALID_ID"%string)) 400
     else
       deletedItem <-
         delete_items drv (fun i => eq_num (Item.id i) (parseInt_param id)) ;;
       match deletedItem with
       | [] => NextResponse_json (JsonError "Item not found" None) 404
       | _ :: _ =>
           id' <- to_integer (parseInt_param id) ;;
           NextResponse_json (JsonDeleted id') 200
       end).

(** ** GET: one item, or a page of items *)

Inductive condition :=
| name_or_description_like (pattern : jsstring)
    (* or(like(items.name, p), like(items.description, p)) *)
| category_eq (category : jsstring).

(** The list query as the builder assembles it: [q_where] is the
    argument list of [and(...)], and [None] when no condition was
    pushed. *)
Record select_query := mkquery {
  q_where : option (list condition);
  q_limit : option Z;
  q_offset : option Z
}.

Record search_params := mkparams {
  p_id : option jsstring;
  p_limit : option jsstring;
  p_offset : option jsstring;
  p_search : option jsstring;
  p_category : option jsstring
}.

Definition GET (execute : select_query -> io (list Item.t))
  (searchParams : search_params) : catalog -> response * catalog :=
  handler
    (let id := p_id searchParams in
     if param_truthy id then
       if isNaN (parseInt_param id) then
         NextResponse_json
           (JsonError "Valid ID is required" (Some "INVALID_ID"%string)) 400
       else
         item <- select_items (fun i => eq_num (Item.id i) (parseInt_param id)) ;;
         match limit1 item with
         | [] => NextResponse_json (JsonError "Item not found" None) 404
         | i :: _ => NextResponse_json (JsonItem i) 200
         end
     else
       let limit :=
         Math_min_100
           (parseInt_string (nullish (p_limit searchParams) (str "10"))) in
       let offset := parseInt_string (nullish (p_offset searchParams) (str "0")) in
       let search := p_search searchParams in
       let category := p_category searchParams in
       let conditions :=
         (match search with
          | Some ((_ :: _) as s) =>
              [name_or_description_like (str "%" ++ s ++ str "%")]
          | _ => []
          end)
         ++ (match category with
             | Some ((_ :: _) as s) => [category_eq s]
             | _ => []
             end) in
       let where_ :=
         if 0 <? array_length conditions then Some conditions else None in
       results <- execute (mkquery where_ limit offset) ;;
       NextResponse_json (JsonItems results) 200).

(** ** Sequences of mutations *)

Inductive request :=
| Create (clk : nat -> jsstring) (body : option CreateBody.t)
| Update (clk : nat -> jsstring) (id : option jsstring)
    (body : option UpdateBody.t)
| Delete (id : option jsstring).

Definition handle (drv : driver) (q : request)
  : catalog -> response * catalog :=
  match q with
  | Create clk b => POST drv clk b
  | Update clk id b => PUT drv clk id b
  | Delete id => DELETE drv id
  end.

End Items.

(** ** Both routes on one store *)

(** A handler of the reviews route, run on the store of the catalog. *)
Definition on_store (h : db -> response * db) (c : catalog) : catalog :=
  mkcatalog (snd (h (store c))) (items_seq c).

Inductive api_request :=
| ToReviews (q : request)
| ToItems (q : Items.request).

(** The catalog after a mutation through either route. *)
Definition serve (drv : driver) (q : api_request) (c : catalog) : catalog :=
  match q with
  | ToReviews q' => on_store (handle q') c
  | ToItems q' => snd (Items.handle drv q' c)
  end.

(** * The review form of the item page

    [handleSubmitReview] posts the form to the reviews route.  Only the
    body that it sends is modelled; the session check before it and the
    state updates after it are not. *)

(** A number written by [JSON.stringify] and read by [request.json()]:
    NaN is written as [null].  The integer is one that a binary64 holds
    exactly (below 2^53 in magnitude). *)
Definition json_number (x : option Z) : jsval :=
  match x with
  | None => JNull
  | Some 0 => JNum (Zero false)
  | Some (Z.pos p) => JNum (Finite false p (Z.of_nat (length (digits p))))
  | Some (Z.neg p) => JNum (Finite true p (Z.of_nat (length (digits p))))
  end.

(** The body of the POST: [params_id] is the route parameter, [user_id]
    is [session.user.id], and [rating], [title] and [comment] are the
    state of the form. *)
Definition handleSubmitReview_body (params_id user_id : jsstring) (rating : Z)
  (title comment : jsstring) : CreateBody.t :=
  CreateBody.mk (json_number (parseInt_string params_id)) (JStr user_id)
    (json_number (Some rating)) (JStr title) (JStr comment).

(** * The item list of the home page

    [filterItems] narrows the fetched items by category and by search
    text.  The rows are those of the items route, so [description] can
    be null.  [toLowerCase] is the built-in case mapping and is left
    open. *)

(** [s.includes(q)] *)
Fixpoint includes (s q : jsstring) : bool :=
  starts_with q s
  || match s with
     | [] => false
     | _ :: s' => includes s' q
     end.

(** [array.filter(callback)] for a callback that can throw: the first
    exception ends the call. *)
Fixpoint filter_throwing {A} (callback : A -> bool + exn) (l : list A)
  : list A + exn :=
  match l with
  | [] => inl []
  | x :: l' =>
      match callback x with
      | inr e => inr e
      | inl keep =>
          match filter_throwing callback l' with
          | inr e => inr e
          | inl rest => inl (if keep then x :: rest else rest)
          end
      end
  end.

(** The value that [filterItems] hands to [setFilteredItems], or the
    exception that it ends with. *)
Definition filterItems (toLowerCase : jsstring -> jsstring)
  (items : list Item.t) (selectedCategory searchQuery : jsstring)
  : list Item.t + exn :=
  let filtered :=
    if negb (jsstring_eqb selectedCategory (str "All"))
    then filter (fun item => jsstring_eqb (Item.category item) selectedCategory)
           items
    else items in
  if truthy (JStr (trim searchQuery)) then
    let query := toLowerCase searchQuery in
    filter_throwing
      (fun item =>
         if includes (toLowerCase (Item.name item)) query then inl true
         else match Item.description item with
              | Some description =>
                  inl (includes (toLowerCase description) query)
              | None => inr TypeError   (* null has no toLowerCase *)
              end)
      filtered
  else inl filtered.

(** ** Create requests in flight

    A handler yields at each [await]; between two awaits it runs alone.
    The awaited statements of a POST are: the lookup of the item, the
    insert, and, in [updateItemRating], the select of the item's reviews
    and the update of the item.  A request in flight is the point it has
    reached, with the values it holds. *)













(** * Specification-side notions *)

(** The persisted reviews of an item. *)
Definition reviews_of (d : db) (itemId : Z) : list Review.t :=
  filter (fun r => Review.itemId r =? itemId) (reviews d).

(** The sum of a list of numbers in floating point, left to right. *)
Definition float_sum (xs : list float) : float :=
  fold_left PrimFloat.add xs PrimFloat.zero.

(** The arithmetic mean of the ratings as the specification words it:
    the sum divided by the count, in floating point, and 0 for no
    rating. *)
Definition mean (ratings : list Z) : float :=
  match ratings with
  | [] => PrimFloat.zero
  | _ :: _ =>
      PrimFloat.div (float_sum (map number_of_Z ratings))
        (number_of_Z (Z.of_nat (length ratings)))
  end.

(** An item's stored aggregate agrees with its reviews. *)
Definition consistent_item (d : db) (it : Item.t) : Prop :=
  Item.averageRating it = mean (map Review.rating (reviews_of d (Item.id it)))
  /\ Item.totalReviews it = Z.of_nat (length (reviews_of d (Item.id it))).

Definition aggregates_consistent (d : db) : Prop :=
  Forall (consistent_item d) (items d).

(** The primary key of [reviews]. *)
Definition review_keys_unique (d : db) : Prop :=
  NoDup (map Review.id (reviews d)).

(** The store that [updateItemRating] leaves. *)
Definition recomputed (now : jsstring) (itemId : Z) (d : db) : db :=
  mkdb
    (map (fun i =>
            if Item.id i =? itemId
            then set_item_rating (average (reviews_of d itemId))
                   (array_length (reviews_of d itemId)) now i
            else i)
       (items d))
    (reviews d) (reviews_seq d).

(** The four field validations of POST, in the order it runs them. *)
Definition itemId_rejected (b : CreateBody.t) : bool :=
  negb (truthy (CreateBody.itemId b)) || isNaN (parseInt (CreateBody.itemId b)).

Definition userId_rejected (b : CreateBody.t) : bool :=
  negb (truthy (CreateBody.userId b)) || negb (typeof_string (CreateBody.userId b))
  || trim_is_empty (CreateBody.userId b).

Definition rating_rejected (b : CreateBody.t) : bool :=
  negb (truthy (CreateBody.rating b)) || isNaN (parseInt (CreateBody.rating b))
  || num_lt (parseInt (CreateBody.rating b)) 1
  || num_gt (parseInt (CreateBody.rating b)) 5.

Definition title_rejected (b : CreateBody.t) : bool :=
  negb (truthy (CreateBody.title b)) || negb (typeof_string (CreateBody.title b))
  || trim_is_empty (CreateBody.title b).

Definition create_validated (b : CreateBody.t) : bool :=
  negb (itemId_rejected b) && negb (userId_rejected b)
  && negb (rating_rejected b) && negb (title_rejected b).


(** No object occurs in the value.  [parseInt] of such a value cannot
    throw: an object of a parsed body with a property named [toString]
    makes ToString, and with it [parseInt], throw a TypeError, and [JObj]
    does not tell such an object from the others. *)
Fixpoint object_free (v : jsval) : bool :=
  match v with
  | JObj => false
  | JArr l =>
      (fix all (l : list jsval) : bool :=
         match l with
         | [] => true
         | x :: r => object_free x && all r
         end) l
  | _ => true
  end.

(** The store after [insert_review v]. *)
Definition inserted (v : review_values) (d : db) : db := snd (insert_review v d).

(** The [id] validation of PUT and DELETE. *)
Definition id_rejected (id : option jsstring) : bool :=
  negb (param_truthy id) || isNaN (parseInt_param id).

(** The row filter [eq(reviews.id, parseInt(id))]. *)
Definition has_key (id : option jsstring) (r : Review.t) : bool :=
  eq_num (Review.id r) (parseInt_param id).

(** The two patch validations of PUT. *)
Definition patch_rating_rejected (b : UpdateBody.t) : bool :=
  negb (is_undefined (UpdateBody.rating b))
  && (isNaN (parseInt (UpdateBody.rating b))
      || num_lt (parseInt (UpdateBody.rating b)) 1
      || num_gt (parseInt (UpdateBody.rating b)) 5).

Definition patch_title_rejected (b : UpdateBody.t) : bool :=
  negb (is_undefined (UpdateBody.title b))
  && (negb (typeof_string (UpdateBody.title b))
      || trim_is_empty (UpdateBody.title b)).

(** The stores after [update_reviews u] and [delete_reviews] on a key. *)
Definition updated (u : review_updates) (id : option jsstring) (d : db) : db :=
  snd (update_reviews u (has_key id) d).

Definition deleted (id : option jsstring) (d : db) : db :=
  snd (delete_reviews (has_key id) d).

(** The columns that a validated patch sets. *)
Definition patch_rating (b : UpdateBody.t) : option Z :=
  if is_undefined (UpdateBody.rating b) then None
  else parseInt (UpdateBody.rating b).

Definition patch_title (b : UpdateBody.t) : option jsstring :=
  match UpdateBody.title b with
  | JStr s => Some (trim s)
  | _ => None
  end.

(** [None] when [comment.trim()] throws: a truthy comment that is not a
    string. *)
Definition patch_comment (b : UpdateBody.t) : option (option (option jsstring)) :=
  match UpdateBody.comment b with
  | JUndefined => Some None
  | JStr s => if truthy (JStr s) then Some (Some (Some (trim s))) else Some (Some None)
  | c => if truthy c then None else Some (Some None)
  end.

Definition patch_updates (clk : nat -> jsstring) (b : UpdateBody.t)
  (c : option (option jsstring)) : review_updates :=
  mkupdates (patch_rating b) (patch_title b) c (clk 0%nat).

(** The invariant of the mutation handlers. *)
Definition store_invariant (d : db) : Prop :=
  review_keys_unique d /\ aggregates_consistent d.

(** The comment that a patch stores: [comment ? comment.trim() : null]. *)
Definition stored_comment (c : jsval) : option jsstring :=
  match c with
  | JStr ((_ :: _) as s) => Some (trim s)
  | _ => None
  end.

(** A patch comment on which [comment.trim()] does not throw. *)
Definition comment_accepted (c : jsval) : bool :=
  typeof_string c || negb (truthy c).

(** Two rows that differ at most in [comment] and [updatedAt]. *)
Definition same_but_comment (r r' : Review.t) : Prop :=
  Review.id r' = Review.id r
  /\ Review.itemId r' = Review.itemId r
  /\ Review.userId r' = Review.userId r
  /\ Review.rating r' = Review.rating r
  /\ Review.title r' = Review.title r
  /\ Review.createdAt r' = Review.createdAt r.

(** GET's query string with [sort] replaced. *)
Definition with_sort (sp : search_params) (sort : option jsstring) : search_params :=
  mkparams (p_id sp) (p_itemId sp) (p_limit sp) (p_offset sp) sort (p_order sp).

(** An engine that orders every list query by [createdAt], in the
    direction that [order] names, whatever the query asked for. *)
Definition ordered_by_createdAt (order : option jsstring)
  (execute : select_query -> io (list Review.t)) (q : select_query)
  : io (list Review.t) :=
  execute
    (mkquery (q_where_itemId q)
       (if jsstring_eqb (nullish order (str "desc")) (str "asc")
        then (asc, col_createdAt) else (desc, col_createdAt))
       (q_limit q) (q_offset q)).

(** ** Sample data *)

Definition sample_clock (k : nat) : jsstring :=
  str "2025-01-01T00:00:00.000Z".

Definition sample_item : Item.t :=
  Item.mk 1 (str "Kettle") None (str "kitchen") None PrimFloat.zero 0
    (str "2024-12-31T00:00:00.000Z") (str "2024-12-31T00:00:00.000Z").

Definition sample_store : db := mkdb [sample_item] [] 0.

(** A JSON integer with one digit. *)
Definition digit (p : positive) : jsval := JNum (Finite false p 1).

Definition sample_create (itemId rating : jsval) : option CreateBody.t :=
  Some (CreateBody.mk itemId (JStr (str "user-1")) rating
          (JStr (str " Good ")) JUndefined).

(** The store after two reviews, rated 4 and 2, of the sample item. *)
Definition two_reviews : db :=
  snd (POST sample_clock (sample_create (digit 1) (digit 2))
         (snd (POST sample_clock (sample_create (digit 1) (digit 4)) sample_store))).

(** The store after one review, rated 4, of the sample item. *)
Definition one_review : db :=
  snd (POST sample_clock (sample_create (digit 1) (digit 4)) sample_store).

Definition sample_requests : list request :=
  [ Create sample_clock (sample_create (digit 1) (digit 4));
    Create sample_clock (sample_create (digit 1) (digit 2));
    Update sample_clock (Some (str "1"))
      (Some (UpdateBody.mk JUndefined JUndefined (JStr (str " fine "))));
    Update sample_clock (Some (str "2"))
      (Some (UpdateBody.mk (digit 5) JUndefined JUndefined));
    Create sample_clock (sample_create (digit 1) (digit 6));
    Delete sample_clock (Some (str "1"));
    Delete sample_clock (Some (str "2")) ].

(** The single review of [one_review]. *)
Definition sample_review : Review.t :=
  Review.mk 1 1 (str "user-1") 4 (str "Good") None (sample_clock 0%nat)
    (sample_clock 1%nat).

(** ** Binary64 notions *)

(** The number of binary digits of an integer. *)
Definition dig (z : Z) : Z := Zdigits2 z.

(** The 53-bit significand of a positive integer below 2^53. *)
Definition mant (z : Z) : Z := z * 2 ^ (53 - dig z).

(** The binary64 that a positive integer below 2^53 is. *)
Definition canon (z : Z) : spec_float :=
  S754_finite false (Z.to_pos (z * 2 ^ (53 - dig z))) (dig z - 53).

Definition inexact (l : location) : bool :=
  match l with loc_Exact => false | loc_Inexact _ => true end.

(** The exact sum of a list of integers. *)
Definition total (l : list Z) : Z := fold_right Z.add 0 l.

(** The range constraints of the schema. *)
Definition rating_in_range (r : Review.t) : Prop := 1 <= Review.rating r <= 5.

Definition float_in_0_5 (x : float) : Prop :=
  PrimFloat.leb 0%float x = true /\ PrimFloat.leb x 5%float = true.

Definition float_in_1_5 (x : float) : Prop :=
  PrimFloat.leb 1%float x = true /\ PrimFloat.leb x 5%float = true.

Definition average_in_range (it : Item.t) : Prop :=
  float_in_0_5 (Item.averageRating it).

(** A JavaScript array has fewer than 2^32 elements. *)
Definition array_limit : Z := 2 ^ 32.

(** ** Concurrent creates of five-star reviews *)












(** * Notions for the further properties of the routes *)

(** ** Text columns *)

Definition starts_with_space (s : jsstring) : bool :=
  match s with
  | c :: _ => isWhiteSpace c
  | [] => false
  end.

(** Neither the first nor the last code unit is white space. *)
Definition trimmed (s : jsstring) : bool :=
  negb (starts_with_space s) && negb (starts_with_space (rev s)).

(** What the validations and [trim] calls of POST and PUT leave in the
    text columns of a review. *)
Definition review_text_ok (r : Review.t) : Prop :=
  Review.userId r <> [] /\ trimmed (Review.userId r) = true
  /\ Review.title r <> [] /\ trimmed (Review.title r) = true
  /\ match Review.comment r with
     | Some c => trimmed c = true
     | None => True
     end.

(** ** Text that the driver keeps

    The database driver hands a text back as it was given when the text
    holds no NUL, at which the driver cuts a text, and no surrogate
    without its partner, which the driver replaces by U+FFFD.  The
    statements of this embedding store a text as it is given, so what is
    said about a stored text is said for a text of this kind. *)
Definition is_high_surrogate (c : N) : bool := ((55296 <=? c) && (c <=? 56319))%N.

Definition is_low_surrogate (c : N) : bool := ((56320 <=? c) && (c <=? 57343))%N.

Fixpoint storable (s : jsstring) : bool :=
  match s with
  | [] => true
  | c :: r =>
      if (c =? 0)%N then false
      else if is_high_surrogate c then
        match r with
        | c' :: r' => is_low_surrogate c' && storable r'
        | [] => false
        end
      else negb (is_low_surrogate c) && storable r
  end.

(** A property that is stored after [trim], and one that is stored as
    it is; a value that is not a string is not text. *)
Definition storable_trimmed (v : jsval) : bool :=
  match v with
  | JStr s => storable (trim s)
  | _ => true
  end.

Definition storable_value (v : jsval) : bool :=
  match v with
  | JStr s => storable s
  | _ => true
  end.

(** What a stored column is known to hold of a text: the text itself
    when the driver keeps it. *)
Definition kept (s column : jsstring) : Prop :=
  storable s = true -> column = s.

Definition kept_comment (c column : option jsstring) : Prop :=
  match c with
  | Some s => storable s = true -> column = Some s
  | None => column = None
  end.

(** A request to the reviews route whose text the driver keeps. *)
Definition request_storable (q : request) : bool :=
  match q with
  | Create _ (Some b) =>
      storable_trimmed (CreateBody.userId b)
      && storable_trimmed (CreateBody.title b)
      && storable_trimmed (CreateBody.comment b)
  | Update _ _ (Some b) =>
      storable_trimmed (UpdateBody.title b)
      && storable_trimmed (UpdateBody.comment b)
  | _ => true
  end.

(** ** Integers that the driver reads back

    The driver reads an INTEGER column into a JavaScript number and
    throws a RangeError on one that a binary64 does not hold exactly, of
    magnitude 2^53 or more; it does so on the rows that a statement
    returns, after the statement has run.  The statements of this
    embedding return every row, so what is said about the answer to a
    request that reads such rows is said for integers below 2^53 in
    magnitude. *)
Definition safe_integer (z : Z) : bool := (- 2 ^ 53 <? z) && (z <? 2 ^ 53).

(** Every integer of the store, and the next key of [reviews], can be
    read. *)
Definition store_readable (d : db) : bool :=
  safe_integer (next_rowid d)
  && forallb (fun it => safe_integer (Item.id it)
                        && safe_integer (Item.totalReviews it)) (items d)
  && forallb (fun r => safe_integer (Review.id r)
                       && safe_integer (Review.itemId r)
                       && safe_integer (Review.rating r)) (reviews d).

(** ** References *)

(** Every review refers to a stored item. *)
Definition references_resolve (d : db) : Prop :=
  forall r, In r (reviews d) ->
    exists it, In it (items d) /\ Item.id it = Review.itemId r.

(** ** Integers in a request *)

(** The value of a key as a client writes it into a query string. *)
Definition key_param (id : Z) : option jsstring := Some (digits (Z.to_pos id)).

(** A Create body with its rating replaced. *)
Definition with_rating (b : CreateBody.t) (rating : jsval) : CreateBody.t :=
  CreateBody.mk (CreateBody.itemId b) (CreateBody.userId b) rating
    (CreateBody.title b) (CreateBody.comment b).

(** ** Engines of the list query *)

(** An engine that refuses a query for more than 100 rows. *)
Definition at_most_100 (execute : select_query -> io (list Review.t))
  (q : select_query) : io (list Review.t) :=
  match q_limit q with
  | Some l => if l <=? 100 then execute q else throw TypeError
  | None => execute q
  end.

(** An engine that refuses a query whose limit is not [l]. *)
Definition handed_limit (l : Z) (execute : select_query -> io (list Review.t))
  (q : select_query) : io (list Review.t) :=
  match q_limit q with
  | Some l' => if l' =? l then execute q else throw TypeError
  | None => throw TypeError
  end.

(** An engine that only reads. *)
Definition read_only (execute : select_query -> io (list Review.t)) : Prop :=
  forall q d, snd (execute q d) = d.

(** The engine that returns every row, whatever the query. *)
Definition all_rows (q : select_query) : io (list Review.t) :=
  select_reviews (fun _ => true).

(** ** Samples *)

Definition sample_patch : option UpdateBody.t :=
  Some (UpdateBody.mk (digit 5) (JStr (str " Better ")) JNull).

(** ** Rows before and after a request *)

(** The columns of a review that no handler sets after the insert. *)
Definition same_identity (r r' : Review.t) : Prop :=
  Review.id r' = Review.id r
  /\ Review.itemId r' = Review.itemId r
  /\ Review.userId r' = Review.userId r
  /\ Review.createdAt r' = Review.createdAt r.

(** An item's key and its aggregate columns. *)
Definition aggregate (it : Item.t) : Z * float * Z :=
  (Item.id it, Item.averageRating it, Item.totalReviews it).

(** The sign of a JSON number applied to its magnitude. *)
Definition signed (neg : bool) (z : Z) : Z := if neg then - z else z.

(** The integer that [Finite neg s n] is when all its digits are before
    the decimal point. *)
Definition integer_value (neg : bool) (s : positive) (n : Z) : Z :=
  signed neg (Z.pos s * 10 ^ (n - Z.of_nat (length (digits s)))).

(** The integer part of [Finite neg s n] when its first [n] digits are
    before the decimal point: the number truncated towards zero. *)
Definition truncated_value (neg : bool) (s : positive) (n : Z) : Z :=
  signed neg (Z.pos s / 10 ^ (Z.of_nat (length (digits s)) - n)).

(** The first digit of a number. *)
Definition leading_digit (s : positive) : Z :=
  Z.pos s / 10 ^ (Z.of_nat (length (digits s)) - 1).

(** The integer that a JSON number is, if it is one that Number::toString
    writes in full: zero, or at most 21 digits, all before the decimal
    point. *)
Definition integer_number (x : number) : option Z :=
  match x with
  | Zero _ => Some 0
  | Finite neg s n =>
      if (Z.of_nat (length (digits s)) <=? n) && (n <=? 21)
      then Some (integer_value neg s n)
      else None
  | _ => None
  end.

(** The integer that is read off the decimal string of a number: the
    number truncated towards zero when its magnitude is at least 10^-6
    and below 10^21, and otherwise, when the string is in exponent
    notation, the first digit with the sign; nothing for NaN and the
    infinities. *)
Definition integer_read (x : number) : option Z :=
  match x with
  | NaN | Infinity _ => None
  | Zero _ => Some 0
  | Finite neg s n =>
      if (Z.of_nat (length (digits s)) <=? n) && (n <=? 21)
      then Some (integer_value neg s n)
      else if (0 <? n) && (n <=? 21) then Some (truncated_value neg s n)
      else if (-6 <? n) && (n <=? 0) then Some 0
      else Some (signed neg (leading_digit s))
  end.

(** A rating that the check of POST lets pass. *)
Definition rating_passes (x : option Z) : bool :=
  match x with
  | Some z => (1 <=? z) && (z <=? 5)
  | None => false
  end.

(** A query string that names a review by key and nothing else. *)
Definition by_id (id : option jsstring) : search_params :=
  mkparams id None None None None None.

(** What PUT relates a stored row to: the identity columns stay, and a
    row that the key does not select stays whole. *)
Definition put_relates (id : option jsstring) (r r' : Review.t) : Prop :=
  same_identity r r' /\ (has_key id r = false -> r' = r).

(** * Notions for the items route *)

(** The validation of a required text property ([name] and [category]
    of POST) and of an optional one (of PUT). *)
Definition required_text_rejected (v : jsval) : bool :=
  negb (truthy v) || negb (typeof_string v) || trim_is_empty v.

Definition optional_text_rejected (v : jsval) : bool :=
  negb (is_undefined v) && (negb (typeof_string v) || trim_is_empty v).

(** What a value bound to a nullable text column is stored as; [None]
    when the driver refuses it. *)
Definition bound (drv : driver) (v : jsval) : option (option jsstring) :=
  match v with
  | JNull => Some None
  | JStr s => Some (Some s)
  | _ => bind_text drv v
  end.

Definition bound_optional (drv : driver) (v : jsval)
  : option (option (option jsstring)) :=
  if is_undefined v then Some None
  else match bound drv v with
       | Some x => Some (Some x)
       | None => None
       end.

(** [v.trim()] of a string, as a column. *)
Definition trimmed_text (v : jsval) : jsstring :=
  match v with
  | JStr s => trim s
  | _ => []
  end.

Definition patch_text (v : jsval) : option jsstring :=
  match v with
  | JStr s => Some (trim s)
  | _ => None
  end.

(** The row filter [eq(items.id, parseInt(id))]. *)
Definition item_has_key (id : option jsstring) (i : Item.t) : bool :=
  eq_num (Item.id i) (parseInt_param id).

(** The row that POST inserts. *)
Definition new_item (clk : nat -> jsstring) (b : Items.CreateBody.t)
  (description imageUrl : option jsstring) (c : catalog) : Item.t :=
  Item.mk (Items.next_rowid c) (trimmed_text (Items.CreateBody.name b))
    description (trimmed_text (Items.CreateBody.category b)) imageUrl
    PrimFloat.zero 0 (clk 0%nat) (clk 0%nat).

(** The catalog with a row appended to [items]. *)
Definition with_item (row : Item.t) (c : catalog) : catalog :=
  mkcatalog
    (mkdb (items (store c) ++ [row]) (reviews (store c)) (reviews_seq (store c)))
    (Item.id row).

(** The catalog after [update_items] and [delete_items] on a key. *)
Definition items_updated (u : Items.bound_updates) (id : option jsstring)
  (c : catalog) : catalog :=
  mkcatalog
    (mkdb (map (fun i => if item_has_key id i then Items.set_item u i else i)
             (items (store c)))
       (reviews (store c)) (reviews_seq (store c)))
    (items_seq c).

Definition items_deleted (id : option jsstring) (c : catalog) : catalog :=
  mkcatalog
    (mkdb (filter (fun i => negb (item_has_key id i)) (items (store c)))
       (reviews (store c)) (reviews_seq (store c)))
    (items_seq c).

(** The two aggregate validations of PUT. *)
Definition average_rejected (b : Items.UpdateBody.t) : bool :=
  negb (is_undefined (Items.UpdateBody.averageRating b))
  && (PrimFloat.is_nan (parseFloat (Items.UpdateBody.averageRating b))
      || PrimFloat.ltb (parseFloat (Items.UpdateBody.averageRating b)) 0
      || PrimFloat.ltb 5 (parseFloat (Items.UpdateBody.averageRating b))).

Definition total_rejected (b : Items.UpdateBody.t) : bool :=
  negb (is_undefined (Items.UpdateBody.totalReviews b))
  && (isNaN (parseInt (Items.UpdateBody.totalReviews b))
      || num_lt (parseInt (Items.UpdateBody.totalReviews b)) 0).

(** The columns that a validated patch sets. *)
Definition item_patch (clk : nat -> jsstring) (b : Items.UpdateBody.t)
  (description imageUrl : option (option jsstring)) : Items.bound_updates :=
  Items.mkbound
    (patch_text (Items.UpdateBody.name b))
    description
    (patch_text (Items.UpdateBody.category b))
    imageUrl
    (if is_undefined (Items.UpdateBody.averageRating b) then None
     else Some (parseFloat (Items.UpdateBody.averageRating b)))
    (if is_undefined (Items.UpdateBody.totalReviews b) then None
     else parseInt (Items.UpdateBody.totalReviews b))
    (clk 0%nat).

(** The reviews that refer to an item with the key. *)
Definition key_referenced (id : option jsstring) (c : catalog) : bool :=
  existsb (Items.referenced (filter (item_has_key id) (items (store c))))
    (reviews (store c)).

(** ** Invariants of the catalog *)

(** The sequence of [items] is at least every key in the table, and no
    review refers to a key beyond it. *)
Definition sequence_covers (c : catalog) : Prop :=
  (forall it, In it (items (store c)) -> Item.id it <= items_seq c)
  /\ (forall r, In r (reviews (store c)) -> Review.itemId r <= items_seq c).

Definition catalog_invariant (c : catalog) : Prop :=
  store_invariant (store c) /\ sequence_covers c.

(** A request that does not write the aggregate columns itself: any but
    an items PUT whose body carries [averageRating] or [totalReviews]. *)
Definition leaves_aggregates (q : api_request) : bool :=
  match q with
  | ToItems (Items.Update _ _ (Some b)) =>
      is_undefined (Items.UpdateBody.averageRating b)
      && is_undefined (Items.UpdateBody.totalReviews b)
  | _ => true
  end.

(** The range constraints on the aggregate columns. *)
Definition aggregate_in_range (it : Item.t) : Prop :=
  average_in_range it /\ 0 <= Item.totalReviews it.

(** ** Engines of the items list query *)

(** The engine that returns every item, whatever the query. *)
Definition all_items (q : Items.select_query) : Items.io (list Item.t) :=
  Items.select_items (fun _ => true).

(** ** Samples *)

(** A driver that refuses what is not a string, with foreign keys off,
    and one with foreign keys on. *)
Definition strict_driver : driver := mkdriver (fun _ => None) false.

Definition enforcing_driver : driver := mkdriver (fun _ => None) true.

Definition sample_catalog : catalog := mkcatalog one_review 1.

Definition sample_item_body : option Items.CreateBody.t :=
  Some (Items.CreateBody.mk (JStr (str " Toaster ")) JUndefined
          (JStr (str "kitchen")) JNull).

(** A review of an item with the key. *)
Definition refers_to_key (id : option jsstring) (r : Review.t) : bool :=
  eq_num (Review.itemId r) (parseInt_param id).

(** A query string that names an item by key and nothing else. *)
Definition item_by_id (id : option jsstring) : Items.search_params :=
  Items.mkparams id None None None None.

(** The sample catalog after the deletion of its item, with foreign
    keys off. *)
Definition orphaned_catalog : catalog :=
  snd (Items.DELETE strict_driver (Some (str "1")) sample_catalog).

(** The item of [one_review]: the sample item with its aggregate
    recomputed. *)
Definition sample_item_rated : Item.t :=
  Item.mk 1 (str "Kettle") None (str "kitchen") None 4%float 1
    (str "2024-12-31T00:00:00.000Z") (sample_clock 2%nat).

(** An engine of the items list query that refuses a query for more than
    100 rows and an empty conjunction in [where]. *)
Definition items_checked
  (execute : Items.select_query -> Items.io (list Item.t))
  (q : Items.select_query) : Items.io (list Item.t) :=
  match Items.q_limit q, Items.q_where q with
  | Some l, _ => if l <=? 100
                 then match Items.q_where q with
                      | Some [] => Items.throw DriverError
                      | _ => execute q
                      end
                 else Items.throw DriverError
  | None, Some [] => Items.throw DriverError
  | None, _ => execute q
  end.

(** An engine of the items list query that refuses a query whose limit
    is not [l]. *)
Definition items_handed_limit (l : Z)
  (execute : Items.select_query -> Items.io (list Item.t))
  (q : Items.select_query) : Items.io (list Item.t) :=
  match Items.q_limit q with
  | Some l' => if l' =? l then execute q else Items.throw DriverError
  | None => Items.throw DriverError
  end.

(** A Create body of the items route whose text the driver keeps. *)
Definition item_text_storable (b : Items.CreateBody.t) : bool :=
  storable_trimmed (Items.CreateBody.name b)
  && storable_trimmed (Items.CreateBody.category b)
  && storable_value (Items.or_null (Items.CreateBody.description b))
  && storable_value (Items.or_null (Items.CreateBody.imageUrl b)).

(** Every key and count of the catalog, and the next key, can be read. *)
Definition integers_readable (c : catalog) : bool :=
  safe_integer (Items.next_rowid c)
  && forallb (fun it => safe_integer (Item.id it)
                        && safe_integer (Item.totalReviews it))
       (items (store c)).

(** The count that a PUT body carries, if any, can be read. *)
Definition total_is_safe (b : Items.UpdateBody.t) : bool :=
  is_undefined (Items.UpdateBody.totalReviews b)
  || match parseInt (Items.UpdateBody.totalReviews b) with
     | Some z => safe_integer z
     | None => true
     end.

Definition request_is_safe (q : Items.request) : bool :=
  match q with
  | Items.Update _ _ (Some b) => total_is_safe b
  | _ => true
  end.

(** A patch of the aggregate columns alone. *)
Definition aggregate_patch (averageRating totalReviews : jsval)
  : option Items.UpdateBody.t :=
  Some (Items.UpdateBody.mk JUndefined JUndefined JUndefined JUndefined
          averageRating totalReviews).

(** ** The item that a mutation recomputes *)

Definition first_keyed_item (id : option jsstring) (d : db) : option Z :=
  match filter (has_key id) (reviews d) with
  | existing :: _ => Some (Review.itemId existing)
  | [] => None
  end.

(** The item whose aggregate a request recomputes when it succeeds:
    the one that the body names for a Create, and the one of the keyed
    review for a Delete and for an Update that carries a rating. *)
Definition affected_item (q : request) (d : db) : option Z :=
  match q with
  | Create _ (Some b) => parseInt (CreateBody.itemId b)
  | Update _ id (Some b) =>
      if is_undefined (UpdateBody.rating b) then None
      else first_keyed_item id d
  | Delete _ id => first_keyed_item id d
  | _ => None
  end.

(** A store whose one item carries an aggregate that its reviews (none)
    do not justify. *)
Definition stale_store : db :=
  mkdb [Item.mk 1 (str "Kettle") None (str "kitchen") None 5%float 9
          (str "2024-12-31T00:00:00.000Z") (str "2024-12-31T00:00:00.000Z")]
    [] 0.

(** ** Item keys *)

Definition item_keys_unique (c : catalog) : Prop :=
  NoDup (map Item.id (items (store c))).

(** What the items PUT relates a stored item to. *)
Definition item_put_relates (id : option jsstring) (i i' : Item.t) : Prop :=
  Item.id i' = Item.id i /\ Item.createdAt i' = Item.createdAt i
  /\ (item_has_key id i = false -> i' = i).

(** ** The home page *)

(** The items that the category selection keeps. *)
Definition in_category (selectedCategory : jsstring) (items : list Item.t)
  : list Item.t :=
  if jsstring_eqb selectedCategory (str "All") then items
  else filter (fun item => jsstring_eqb (Item.category item) selectedCategory)
         items.

(** An item on which the search callback throws: no description, and a
    name that does not contain the query. *)
Definition search_throws (toLowerCase : jsstring -> jsstring)
  (query : jsstring) (item : Item.t) : bool :=
  negb (includes (toLowerCase (Item.name item)) query)
  && match Item.description item with
     | None => true
     | Some _ => false
     end.

(** An item that the search keeps when it does not throw. *)
Definition search_matches (toLowerCase : jsstring -> jsstring)
  (query : jsstring) (item : Item.t) : bool :=
  includes (toLowerCase (Item.name item)) query
  || match Item.description item with
     | Some description => includes (toLowerCase description) query
     | None => false
     end.

(** A case mapping for the samples: ASCII letters only. *)
Definition ascii_lower (s : jsstring) : jsstring :=
  map (fun c => if ((65 <=? c) && (c <=? 90))%N then (c + 32)%N else c) s.

(** * Binary64 arithmetic on small integers

    The ratings are integers, so is their count, and for fewer than 2^32
    reviews every partial sum stays below 2^53: the running sum of
    [reduce] is exact and the division is a single rounding.  This part
    derives that from the specification of the primitive floats. *)

Lemma digits2_pos_size (p : positive) : digits2_pos p = Pos.size p.
Proof. induction p; simpl; congruence. Qed.

Lemma dig_pos (p : positive) : dig (Zpos p) = Zpos (Pos.size p).
Proof. unfold dig; simpl. rewrite digits2_pos_size. reflexivity. Qed.

Lemma dig_bounds (z : Z) :
  0 < z -> 1 <= dig z /\ 2 ^ (dig z - 1) <= z < 2 ^ dig z.
Proof.
  destruct z as [|p|p]; try lia. intros _. rewrite dig_pos.
  pose proof (Pos.size_gt p) as Hgt. pose proof (Pos.size_le p) as Hle.
  apply Pos2Z.pos_lt_pos in Hgt. apply Pos2Z.pos_le_pos in Hle.
  rewrite Pos2Z.inj_pow in Hgt, Hle.
  split; [lia|].
  split; [|exact Hgt].
  replace (2 ^ Zpos (Pos.size p)) with (2 * 2 ^ (Zpos (Pos.size p) - 1)) in Hle.
  - change (Z.pos p~0) with (2 * Z.pos p) in Hle.
    remember (2 ^ (Z.pos (Pos.size p) - 1)) as t. clear Heqt Hgt. lia.
  - rewrite <- Z.pow_succ_r by lia. f_equal. lia.
Qed.

Lemma dig_unique (z d : Z) :
  0 < z -> 2 ^ (d - 1) <= z < 2 ^ d -> dig z = d.
Proof.
  intros Hz [Hlo Hhi].
  destruct (dig_bounds z Hz) as (H1 & Hlo' & Hhi').
  assert (Hd : 1 <= d).
  { destruct (Z_lt_le_dec d 1) as [Hlt|]; [|lia].
    exfalso. destruct (Z_lt_le_dec d 0) as [Hneg|Hnn].
    - rewrite Z.pow_neg_r in Hhi by lia. lia.
    - assert (d = 0) by lia. subst d. simpl in Hhi. lia. }
  destruct (Z.lt_trichotomy (dig z) d) as [Hlt|[Heq|Hgt]]; [|exact Heq|].
  - exfalso. assert (2 ^ dig z <= 2 ^ (d - 1)) by (apply Z.pow_le_mono_r; lia). lia.
  - exfalso. assert (2 ^ d <= 2 ^ (dig z - 1)) by (apply Z.pow_le_mono_r; lia). lia.
Qed.

Lemma dig_shift (z k : Z) : 0 < z -> 0 <= k -> dig (z * 2 ^ k) = dig z + k.
Proof.
  intros Hz Hk. destruct (dig_bounds z Hz) as (H1 & Hlo & Hhi).
  assert (Hp : 0 < 2 ^ k) by (apply Z.pow_pos_nonneg; lia).
  apply dig_unique; [nia|].
  replace (dig z + k - 1) with ((dig z - 1) + k) by lia.
  rewrite !Z.pow_add_r by lia. nia.
Qed.

Lemma dig_le_53 (z : Z) : 0 < z < 2 ^ 53 -> 1 <= dig z <= 53.
Proof.
  intros [Hz Hlt]. destruct (dig_bounds z Hz) as (H1 & Hlo & Hhi).
  split; [exact H1|].
  destruct (Z_le_gt_dec (dig z) 53) as [|Hgt]; [assumption|exfalso].
  assert (2 ^ 53 <= 2 ^ (dig z - 1)) by (apply Z.pow_le_mono_r; lia). lia.
Qed.

Lemma mant_bounds (z : Z) :
  0 < z < 2 ^ 53 -> 2 ^ 52 <= mant z < 2 ^ 53 /\ dig (mant z) = 53.
Proof.
  intros Hz. pose proof (dig_le_53 z Hz) as Hd.
  destruct (dig_bounds z (proj1 Hz)) as (_ & Hlo & Hhi).
  assert (Hdig : dig (mant z) = 53)
    by (unfold mant; rewrite dig_shift by lia; lia).
  split; [|exact Hdig].
  assert (Hm : 0 < mant z)
    by (unfold mant; apply Z.mul_pos_pos; [lia|apply Z.pow_pos_nonneg; lia]).
  destruct (dig_bounds (mant z) Hm) as (_ & Hlo' & Hhi').
  rewrite Hdig in Hlo', Hhi'. simpl Z.sub in Hlo'. lia.
Qed.

Lemma fexp_eq (e : Z) : -1021 <= e -> fexp prec emax e = e - 53.
Proof. intros H. unfold fexp, SpecFloat.emin, prec, emax. lia. Qed.

Lemma Zdigits2_dig z : Zdigits2 z = dig z.
Proof. reflexivity. Qed.

(** Rounding an exact 53-bit significand changes nothing. *)
Lemma binary_round_aux_exact (m : positive) (e : Z) :
  dig (Zpos m) = 53 -> -1074 <= e <= 971 ->
  binary_round_aux prec emax false (Zpos m) e loc_Exact = S754_finite false m e.
Proof.
  intros Hd He.
  unfold binary_round_aux, shr_fexp.
  rewrite Zdigits2_dig, Hd, fexp_eq by lia.
  replace (53 + e - 53 - e) with 0 by lia.
  simpl shr. cbv beta iota. simpl shr_m. simpl loc_of_shr_record.
  simpl round_nearest_even.
  rewrite Zdigits2_dig, Hd, fexp_eq by lia.
  replace (53 + e - 53 - e) with 0 by lia.
  simpl.
  replace (e <=? 971) with true by (symmetry; apply Z.leb_le; lia).
  reflexivity.
Qed.

Lemma shift_pos_mul (k m : positive) :
  Zpos (Pos.iter xO m k) = Zpos m * 2 ^ Zpos k.
Proof.
  change (Pos.iter xO m k) with (shift_pos k m).
  rewrite shift_pos_correct, Z.pow_pos_fold. lia.
Qed.

Lemma mant_pos (z : Z) : 0 < z < 2 ^ 53 -> 0 < mant z.
Proof. intros H. pose proof (mant_bounds z H). lia. Qed.

Lemma canon_eq (z : Z) :
  canon z = S754_finite false (Z.to_pos (mant z)) (dig z - 53).
Proof. reflexivity. Qed.

(** An integer below 2^53 is its own nearest binary64. *)
Lemma binary_normalize_canon (z : Z) :
  0 < z < 2 ^ 53 -> binary_normalize prec emax z 0 false = canon z.
Proof.
  intros Hz. pose proof (dig_le_53 z Hz) as Hd.
  pose proof (mant_bounds z Hz) as [Hm Hdm]. pose proof (mant_pos z Hz) as Hmp.
  destruct z as [|p|p]; try lia.
  unfold binary_normalize, binary_round.
  change (Zpos (digits2_pos p)) with (dig (Zpos p)).
  rewrite Z.add_0_r, fexp_eq by lia.
  unfold shl_align.
  destruct (dig (Zpos p) - 53 - 0) as [|k|k] eqn:Ek; try lia.
  - assert (E53 : dig (Zpos p) = 53) by lia.
    rewrite canon_eq. unfold mant. rewrite E53. simpl Z.sub.
    rewrite Z.mul_1_r. simpl Z.to_pos.
    apply binary_round_aux_exact; [exact E53|lia].
  - assert (Hk : Zpos k = 53 - dig (Zpos p)) by lia.
    assert (Hmk : Zpos (Pos.iter xO p k) = mant (Zpos p))
      by (rewrite shift_pos_mul, Hk; reflexivity).
    rewrite binary_round_aux_exact.
    + rewrite canon_eq, <- Hmk. simpl Z.to_pos. reflexivity.
    + rewrite Hmk. exact Hdm.
    + lia.
Qed.

(** ** Shifting right drops the trailing zeros of an exact significand *)

Lemma shr_1_even (m : Z) :
  0 < m ->
  shr_1 (Build_shr_record (2 * m) false false) = Build_shr_record m false false.
Proof. destruct m; try lia. reflexivity. Qed.

Lemma pow2_double (k : Z) : 0 <= k -> 2 ^ (2 * k) = 2 ^ k * 2 ^ k.
Proof. intros H. rewrite <- Z.pow_add_r by lia. f_equal. lia. Qed.

Lemma iter_shr_1_exact (k : positive) :
  forall m : Z, 0 < m ->
    iter_pos shr_1 k (Build_shr_record (m * 2 ^ Zpos k) false false)
    = Build_shr_record m false false.
Proof.
  induction k as [k IH|k IH|]; intros m Hm.
  - assert (Hp : 0 < 2 ^ Zpos k) by (apply Z.pow_pos_nonneg; lia).
    replace (m * 2 ^ Zpos k~1) with (2 * ((m * 2 ^ Zpos k) * 2 ^ Zpos k)).
    + cbn [iter_pos]. rewrite shr_1_even by nia.
      rewrite IH by nia. apply IH, Hm.
    + rewrite (Pos2Z.inj_xI k), Z.pow_add_r, pow2_double by lia. ring.
  - assert (Hp : 0 < 2 ^ Zpos k) by (apply Z.pow_pos_nonneg; lia).
    replace (m * 2 ^ Zpos k~0) with ((m * 2 ^ Zpos k) * 2 ^ Zpos k).
    + cbn [iter_pos]. rewrite IH by nia. apply IH, Hm.
    + rewrite (Pos2Z.inj_xO k), pow2_double by lia. ring.
  - cbn [iter_pos]. rewrite Z.pow_1_r, Z.mul_comm. apply shr_1_even, Hm.
Qed.

Lemma shr_exact (m e k : Z) :
  0 < m -> 0 <= k ->
  shr (Build_shr_record (m * 2 ^ k) false false) e k
  = (Build_shr_record m false false, e + k).
Proof.
  intros Hm Hk. destruct k as [|k|k]; try lia.
  - simpl. rewrite Z.mul_1_r, Z.add_0_r. reflexivity.
  - unfold shr. rewrite iter_shr_1_exact by exact Hm. reflexivity.
Qed.

(** Rounding a 53-bit significand followed by zeros drops the zeros. *)
Lemma binary_round_aux_shifted (m k e : Z) :
  0 < m -> dig m = 53 -> 0 <= k -> -1074 <= e -> e + k <= 971 ->
  binary_round_aux prec emax false (m * 2 ^ k) e loc_Exact
  = S754_finite false (Z.to_pos m) (e + k).
Proof.
  intros Hm Hd Hk He Hek.
  unfold binary_round_aux, shr_fexp.
  rewrite Zdigits2_dig, dig_shift, Hd, fexp_eq by lia.
  replace (53 + k + e - 53 - e) with k by lia.
  unfold shr_record_of_loc. rewrite shr_exact by lia.
  cbn [shr_m loc_of_shr_record round_nearest_even].
  rewrite Zdigits2_dig, Hd, fexp_eq by lia.
  replace (53 + (e + k) - 53 - (e + k)) with 0 by lia.
  cbn [shr shr_m].
  destruct m as [|p|p]; try lia.
  replace (e + k <=? emax - prec) with true
    by (symmetry; apply Z.leb_le; unfold emax, prec; lia).
  reflexivity.
Qed.

Lemma dig_mono (x y : Z) : 0 < x <= y -> dig x <= dig y.
Proof.
  intros [Hx Hxy].
  destruct (dig_bounds x Hx) as (_ & Hlo & _).
  destruct (dig_bounds y ltac:(lia)) as (_ & _ & Hhi).
  destruct (Z_le_gt_dec (dig x) (dig y)) as [|Hgt]; [assumption|exfalso].
  assert (2 ^ dig y <= 2 ^ (dig x - 1)) by (apply Z.pow_le_mono_r; lia). lia.
Qed.

(** ** Addition of integers is exact below 2^53 *)

Lemma shl_align_fst (m : positive) (e e' : Z) :
  e' <= e ->
  Zpos (fst (shl_align m e e')) = Zpos m * 2 ^ (e - e').
Proof.
  intros Hle. unfold shl_align.
  destruct (e' - e) as [|k|k] eqn:Ek; try lia; simpl fst.
  - replace (e - e') with 0 by lia. lia.
  - rewrite shift_pos_mul. f_equal. f_equal. lia.
Qed.

Lemma SFadd_canon (a b : Z) :
  0 < a -> 0 < b -> a + b < 2 ^ 53 ->
  SFadd prec emax (canon a) (canon b) = canon (a + b).
Proof.
  intros Ha Hb Hab.
  assert (Ha' : 0 < a < 2 ^ 53) by lia. assert (Hb' : 0 < b < 2 ^ 53) by lia.
  assert (Hs' : 0 < a + b < 2 ^ 53) by lia.
  pose proof (dig_le_53 a Ha') as Hda. pose proof (dig_le_53 b Hb') as Hdb.
  pose proof (dig_le_53 (a + b) Hs') as Hds.
  pose proof (mant_bounds a Ha') as [Hma Hdma].
  pose proof (mant_bounds b Hb') as [Hmb Hdmb].
  pose proof (mant_bounds (a + b) Hs') as [Hms Hdms].
  rewrite !canon_eq. unfold SFadd.
  set (ez := Z.min (dig a - 53) (dig b - 53)).
  unfold cond_Zopp.
  rewrite !shl_align_fst by (unfold ez; lia).
  rewrite !Z2Pos.id by lia.
  (* the aligned sum is (a + b) * 2^(-ez) *)
  assert (Hsum : mant a * 2 ^ (dig a - 53 - ez) + mant b * 2 ^ (dig b - 53 - ez)
                 = (a + b) * 2 ^ (- ez)).
  { unfold mant. rewrite <- !Z.mul_assoc, <- !Z.pow_add_r by (unfold ez; lia).
    replace (53 - dig a + (dig a - 53 - ez)) with (- ez) by lia.
    replace (53 - dig b + (dig b - 53 - ez)) with (- ez) by lia. ring. }
  rewrite Hsum. clear Hsum.
  pose proof (dig_mono a (a + b) ltac:(lia)) as Hmono_a.
  pose proof (dig_mono b (a + b) ltac:(lia)) as Hmono_b.
  assert (Hez : - 52 <= ez <= 0 /\ ez <= dig (a + b) - 53) by (unfold ez; lia).
  assert (Hpow : 0 < 2 ^ (- ez)) by (apply Z.pow_pos_nonneg; lia).
  assert (HM : 0 < (a + b) * 2 ^ (- ez)) by nia.
  assert (HdM : dig ((a + b) * 2 ^ (- ez)) = dig (a + b) - ez)
    by (rewrite dig_shift by lia; lia).
  destruct ((a + b) * 2 ^ (- ez)) as [|P|P] eqn:EM; try lia.
  unfold binary_normalize, binary_round.
  change (Zpos (digits2_pos P)) with (dig (Zpos P)).
  rewrite HdM, fexp_eq by lia.
  unfold shl_align.
  destruct (dig (a + b) - ez + ez - 53 - ez) as [|k|k] eqn:Ek; try lia.
  - rewrite <- EM.
    replace ((a + b) * 2 ^ (- ez)) with (mant (a + b) * 2 ^ 0).
    + rewrite binary_round_aux_shifted by lia. f_equal. lia.
    + unfold mant. rewrite Z.pow_0_r, Z.mul_1_r. f_equal. f_equal. lia.
  - rewrite <- EM.
    replace ((a + b) * 2 ^ (- ez)) with (mant (a + b) * 2 ^ Zpos k).
    + rewrite binary_round_aux_shifted by lia. f_equal. lia.
    + unfold mant. rewrite <- Z.mul_assoc, <- Z.pow_add_r by lia.
      f_equal. f_equal. lia.
Qed.


(** ** Division is correctly rounded *)

Lemma loc_of_shr_record_of_loc (m : Z) (l : location) :
  loc_of_shr_record (shr_record_of_loc m l) = l.
Proof. destruct l as [|[]]; reflexivity. Qed.

Lemma shr_m_of_loc (m : Z) (l : location) : shr_m (shr_record_of_loc m l) = m.
Proof. destruct l as [|[]]; reflexivity. Qed.

Lemma shr_1_of_loc (q : Z) (l : location) :
  0 < q ->
  shr_1 (shr_record_of_loc q l)
  = Build_shr_record (Z.div2 q) (Z.odd q) (inexact l).
Proof.
  intros Hq. destruct q as [|p|p]; try lia.
  destruct p, l as [|[]]; reflexivity.
Qed.

(** The location of the remainder [r] of a division by [d]. *)
Lemma new_location_eq (d r : Z) :
  0 < d -> 0 <= r < d ->
  new_location d r = if r =? 0 then loc_Exact else loc_Inexact (2 * r ?= d).
Proof.
  intros Hd Hr. unfold new_location.
  change (IntDef.Z.even d) with (Z.even d).
  destruct (Z.even d) eqn:Ev;
    unfold new_location_even, new_location_odd;
    change (IntDef.Z.eqb r 0) with (r =? 0);
    destruct (r =? 0) eqn:E0; try reflexivity.
  f_equal.
  change (IntDef.Z.compare (IntDef.Z.add (IntDef.Z.mul 2 r) 1) d)
    with (2 * r + 1 ?= d).
  assert (Hodd : Z.odd d = true) by (rewrite <- Z.negb_even, Ev; reflexivity).
  apply Z.odd_spec in Hodd as [h Hh].
  destruct (2 * r + 1 ?= d) eqn:C1, (2 * r ?= d) eqn:C2; try reflexivity;
    try apply Z.compare_eq in C1; try apply Z.compare_eq in C2;
    rewrite ?Z.compare_lt_iff, ?Z.compare_gt_iff in *; lia.
Qed.

Lemma round_nearest_even_cases (m : Z) (l : location) :
  round_nearest_even m l = m \/ round_nearest_even m l = m + 1.
Proof.
  destruct l as [|[]]; simpl; auto. destruct (Z.even m); auto.
Qed.

(** Rounding a 53-bit quotient. *)
Lemma binary_round_aux_53 (q e : Z) (l : location) :
  2 ^ 52 <= q < 2 ^ 53 -> -1074 <= e <= 970 ->
  binary_round_aux prec emax false q e l =
  if round_nearest_even q l =? 2 ^ 53
  then S754_finite false (Z.to_pos (2 ^ 52)) (e + 1)
  else S754_finite false (Z.to_pos (round_nearest_even q l)) e.
Proof.
  intros Hq He.
  assert (Hd : dig q = 53) by (apply dig_unique; simpl Z.sub; lia).
  unfold binary_round_aux, shr_fexp.
  rewrite Zdigits2_dig, Hd, fexp_eq by lia.
  replace (53 + e - 53 - e) with 0 by lia.
  cbn [shr]. rewrite loc_of_shr_record_of_loc, shr_m_of_loc.
  destruct (round_nearest_even_cases q l) as [H0|H0]; rewrite H0.
  - replace (q =? 2 ^ 53) with false by (symmetry; apply Z.eqb_neq; lia).
    rewrite Zdigits2_dig, Hd, fexp_eq by lia.
    replace (53 + e - 53 - e) with 0 by lia.
    cbn [shr shr_record_of_loc shr_m].
    destruct q as [|p|p]; try lia.
    replace (e <=? emax - prec) with true
      by (symmetry; apply Z.leb_le; unfold emax, prec; lia).
    reflexivity.
  - destruct (q + 1 =? 2 ^ 53) eqn:E.
    + apply Z.eqb_eq in E. rewrite E.
      change (Zdigits2 (2 ^ 53)) with 54.
      rewrite fexp_eq by lia.
      replace (54 + e - 53 - e) with 1 by lia.
      cbn [shr_record_of_loc]. 
      change (2 ^ 53) with (2 ^ 52 * 2 ^ 1).
      rewrite shr_exact by lia. cbn [shr_m].
      change (2 ^ 52) with (Zpos (Z.to_pos (2 ^ 52))) at 1. cbv iota.
      replace (e + 1 <=? emax - prec) with true
        by (symmetry; apply Z.leb_le; unfold emax, prec; lia).
      reflexivity.
    + apply Z.eqb_neq in E.
      assert (Hd' : dig (q + 1) = 53) by (apply dig_unique; simpl Z.sub; lia).
      rewrite Zdigits2_dig, Hd', fexp_eq by lia.
      replace (53 + e - 53 - e) with 0 by lia.
      cbn [shr shr_record_of_loc shr_m].
      destruct (q + 1) as [|p|p] eqn:Eq1; try lia.
      replace (e <=? emax - prec) with true
        by (symmetry; apply Z.leb_le; unfold emax, prec; lia).
      reflexivity.
Qed.

(** Rounding once more a significand that is exact and has 53 or 54
    bits: the second [shr_fexp] of [binary_round_aux]. *)
Lemma renormalize (m0 e : Z) :
  2 ^ 52 <= m0 <= 2 ^ 53 -> -1074 <= e <= 970 ->
  (let '(mrs, e') := shr_fexp prec emax m0 e loc_Exact in
   match shr_m mrs with
   | 0 => S754_zero false
   | Zpos m => if e' <=? emax - prec then S754_finite false m e'
               else S754_infinity false
   | Zneg _ => S754_nan
   end)
  = if m0 =? 2 ^ 53
    then S754_finite false (Z.to_pos (2 ^ 52)) (e + 1)
    else S754_finite false (Z.to_pos m0) e.
Proof.
  intros Hm He. unfold shr_fexp.
  destruct (m0 =? 2 ^ 53) eqn:E.
  - apply Z.eqb_eq in E. rewrite E.
    change (Zdigits2 (2 ^ 53)) with 54.
    rewrite fexp_eq by lia.
    replace (54 + e - 53 - e) with 1 by lia.
    cbn [shr_record_of_loc].
    change (2 ^ 53) with (2 ^ 52 * 2 ^ 1).
    rewrite shr_exact by lia. cbn [shr_m].
    change (2 ^ 52) with (Zpos (Z.to_pos (2 ^ 52))) at 1. cbv iota.
    replace (e + 1 <=? emax - prec) with true
      by (symmetry; apply Z.leb_le; unfold emax, prec; lia).
    reflexivity.
  - apply Z.eqb_neq in E.
    assert (Hd : dig m0 = 53) by (apply dig_unique; simpl Z.sub; lia).
    rewrite Zdigits2_dig, Hd, fexp_eq by lia.
    replace (53 + e - 53 - e) with 0 by lia.
    cbn [shr shr_record_of_loc shr_m].
    destruct m0 as [|p|p]; try lia.
    replace (e <=? emax - prec) with true
      by (symmetry; apply Z.leb_le; unfold emax, prec; lia).
    reflexivity.
Qed.

(** Rounding a 54-bit quotient: one bit is shifted out first. *)
Lemma binary_round_aux_54 (q e : Z) (l : location) :
  2 ^ 53 <= q < 2 ^ 54 -> -1074 <= e <= 969 ->
  binary_round_aux prec emax false q e l =
  let l' := loc_of_shr_record
              (Build_shr_record (Z.div2 q) (Z.odd q) (inexact l)) in
  let m0 := round_nearest_even (Z.div2 q) l' in
  if m0 =? 2 ^ 53
  then S754_finite false (Z.to_pos (2 ^ 52)) (e + 2)
  else S754_finite false (Z.to_pos m0) (e + 1).
Proof.
  intros Hq He.
  assert (Hd : dig q = 54) by (apply dig_unique; simpl Z.sub; lia).
  assert (Hq2 : 2 ^ 52 <= Z.div2 q < 2 ^ 53).
  { rewrite Z.div2_div.
    split; [apply Z.div_le_lower_bound; lia|apply Z.div_lt_upper_bound; lia]. }
  unfold binary_round_aux. unfold shr_fexp at 1.
  rewrite Zdigits2_dig, Hd, fexp_eq by lia.
  replace (54 + e - 53 - e) with 1 by lia.
  cbn [shr iter_pos]. rewrite shr_1_of_loc by lia.
  cbn [shr_m].
  set (l' := loc_of_shr_record _).
  pose proof (round_nearest_even_cases (Z.div2 q) l') as Hc.
  rewrite renormalize by lia.
  cbv zeta.
  replace (e + 1 + 1) with (e + 2) by lia. reflexivity.
Qed.

Lemma SFdiv_core_canon (s n : Z) :
  0 < s < 2 ^ 53 -> 0 < n < 2 ^ 53 ->
  SFdiv_core_binary prec emax (mant s) (dig s - 53) (mant n) (dig n - 53)
  = (mant s * 2 ^ 53 / mant n, dig s - dig n - 53,
     new_location (mant n) ((mant s * 2 ^ 53) mod mant n)).
Proof.
  intros Hs Hn.
  pose proof (dig_le_53 s Hs) as Hds. pose proof (dig_le_53 n Hn) as Hdn.
  pose proof (mant_bounds s Hs) as [Hms Hdms].
  pose proof (mant_bounds n Hn) as [Hmn Hdmn].
  unfold SFdiv_core_binary.
  fold (dig (mant s)). fold (dig (mant n)). rewrite Hdms, Hdmn.
  change IntDef.Z.min with Z.min.
  rewrite fexp_eq by lia.
  replace (Z.min (53 + (dig s - 53) - (53 + (dig n - 53)) - 53)
             (dig s - 53 - (dig n - 53))) with (dig s - dig n - 53) by lia.
  replace (dig s - 53 - (dig n - 53) - (dig s - dig n - 53)) with 53 by lia.
  cbv zeta iota.
  change IntDef.Z.shiftl with Z.shiftl.
  rewrite Z.shiftl_mul_pow2 by lia.
  change IntDef.Z.div_eucl with Z.div_eucl.
  unfold Z.div, Z.modulo.
  destruct (Z.div_eucl (mant s * 2 ^ 53) (mant n)); reflexivity.
Qed.

Lemma compare_scaled (B x y : Z) : 0 < B -> (B * x ?= B * y) = (x ?= y).
Proof.
  intros HB.
  destruct (Z.compare_spec x y) as [->|H|H].
  - apply Z.compare_refl.
  - apply Z.compare_lt_iff. nia.
  - apply Z.compare_gt_iff. nia.
Qed.

(** The quotient of two integers below 2^53 is a normal binary64 within
    half a unit in the last place of the exact quotient. *)
Lemma SFdiv_canon (s n : Z) :
  0 < s < 2 ^ 53 -> 0 < n < 2 ^ 53 ->
  exists (M : positive) (E : Z),
    SFdiv prec emax (canon s) (canon n) = S754_finite false M E
    /\ 2 ^ 52 <= Zpos M < 2 ^ 53
    /\ E <= 0
    /\ 2 * Z.abs (Zpos M * n - s * 2 ^ (- E)) <= n.
Proof.
  intros Hs Hn.
  pose proof (dig_le_53 s Hs) as Hds. pose proof (dig_le_53 n Hn) as Hdn.
  pose proof (mant_bounds s Hs) as [Hms Hdms].
  pose proof (mant_bounds n Hn) as [Hmn Hdmn].
  rewrite !canon_eq. unfold SFdiv. cbn [xorb].
  rewrite !Z2Pos.id by lia.
  rewrite SFdiv_core_canon by assumption.
  set (e' := dig s - dig n - 53).
  set (q := mant s * 2 ^ 53 / mant n).
  set (r := (mant s * 2 ^ 53) mod mant n).
  assert (He' : -105 <= e' <= -1) by (unfold e'; lia).
  assert (HD : mant s * 2 ^ 53 = mant n * q + r)
    by (apply Z.div_mod; lia).
  assert (Hr : 0 <= r < mant n) by (apply Z.mod_pos_bound; lia).
  assert (Hq : 2 ^ 52 <= q < 2 ^ 54) by (split; nia).
  rewrite new_location_eq by lia.
  (* the remainder, scaled back to the integers [s] and [n] *)
  set (B := 2 ^ (53 - dig n)).
  assert (HB : 0 < B) by (apply Z.pow_pos_nonneg; lia).
  set (T := s * 2 ^ (- e') - n * q).
  assert (HrT : r = B * T).
  { unfold T. rewrite Z.mul_sub_distr_l.
    replace (B * (n * q)) with (mant n * q) by (unfold mant, B; ring).
    replace (B * (s * 2 ^ (- e'))) with (mant s * 2 ^ 53); [lia|].
    unfold mant, B, e'. rewrite <- !Z.mul_assoc, (Z.mul_comm (2 ^ (53 - dig n))).
    rewrite <- !Z.mul_assoc, <- !Z.pow_add_r by lia.
    f_equal. f_equal. lia. }
  assert (HT : 0 <= T < n).
  { assert (Hmn' : mant n = B * n) by (unfold mant, B; ring).
    rewrite HrT, Hmn' in Hr. split; nia. }
  assert (Hr0 : (r =? 0) = (T =? 0)).
  { destruct (Z.eqb_spec T 0) as [E0|E0].
    - rewrite HrT, E0, Z.mul_0_r. reflexivity.
    - apply Z.eqb_neq. rewrite HrT. nia. }
  assert (Hcmp : (2 * r ?= mant n) = (2 * T ?= n)).
  { replace (2 * r) with (B * (2 * T)) by (rewrite HrT; ring).
    replace (mant n) with (B * n) by (unfold mant, B; ring).
    apply compare_scaled, HB. }
  assert (HsT : s * 2 ^ (- e') = n * q + T) by (unfold T; ring).
  assert (Hqmax : q <= 2 ^ 54 - 2) by nia.
  assert (HU : s * 2 ^ (- e') = 2 * (s * 2 ^ (- (e' + 1)))).
  { replace (- e') with (1 + - (e' + 1)) by lia.
    rewrite Z.pow_add_r by lia. ring. }
  rewrite Hr0, Hcmp. clearbody T. clear HrT Hr0 Hcmp Hr HD r.
  assert (Hgen : forall P U : Z, P = s * 2 ^ (- e') ->
                                U = s * 2 ^ (- (e' + 1)) ->
                                P = n * q + T /\ P = 2 * U)
    by (intros P U -> ->; split; assumption).
  clear HsT HU.
  destruct (Z_lt_le_dec q (2 ^ 53)) as [Hlt|Hge].
  - (* a 53-bit quotient *)
    rewrite binary_round_aux_53 by lia.
    set (l := if T =? 0 then loc_Exact else loc_Inexact (2 * T ?= n)).
    assert (Hm0 : (round_nearest_even q l = q /\ 2 * T <= n)
                  \/ (round_nearest_even q l = q + 1 /\ n <= 2 * T)).
    { unfold l. destruct (Z.eqb_spec T 0) as [E0|E0]; [left; cbn [round_nearest_even]; lia|].
      destruct (Z.compare_spec (2 * T) n) as [Heq|Hl|Hg]; cbn [round_nearest_even].
      - destruct (Z.even q); [left|right]; lia.
      - left; lia.
      - right; lia. }
    clearbody l.
    destruct (round_nearest_even q l =? 2 ^ 53) eqn:Eov.
    + apply Z.eqb_eq in Eov.
      exists (Z.to_pos (2 ^ 52)), (e' + 1).
      split; [reflexivity|]. split; [simpl; lia|]. split; [lia|].
      change (Zpos (Z.to_pos (2 ^ 52))) with (2 ^ 52).
      destruct (Hgen _ _ eq_refl eq_refl) as [HP HU].
      remember (s * 2 ^ (- (e' + 1))) as U. clear HeqU Hgen.
      destruct Hm0 as [[Hq0 ?]|[Hq1 ?]]; lia.
    + apply Z.eqb_neq in Eov.
      exists (Z.to_pos (round_nearest_even q l)), e'.
      split; [reflexivity|].
      rewrite Z2Pos.id by lia.
      split; [lia|]. split; [lia|].
      destruct (Hgen _ _ eq_refl eq_refl) as [HP HU].
      remember (s * 2 ^ (- e')) as P. clear HeqP Hgen.
      destruct Hm0 as [[-> ?]|[-> ?]]; lia.
  - (* a 54-bit quotient *)
    rewrite binary_round_aux_54 by lia. cbv zeta.
    pose proof (Z.div2_odd q) as Hq2.
    set (q2 := Z.div2 q) in *. 
    set (l' := loc_of_shr_record _).
    assert (Hm0 : (round_nearest_even q2 l' = q2
                   /\ (Z.odd q = false \/ T = 0))
                  \/ (round_nearest_even q2 l' = q2 + 1
                      /\ Z.odd q = true)).
    { unfold l'. destruct (Z.odd q); destruct (Z.eqb_spec T 0) as [E0|E0];
        cbn [inexact loc_of_shr_record round_nearest_even].
      - destruct (Z.even q2); [left|right]; auto.
      - right; auto.
      - left; auto.
      - left; auto. }
    clearbody l'.
    assert (Hq2b : 2 ^ 52 <= q2 < 2 ^ 53)
      by (destruct (Z.odd q); simpl Z.b2z in Hq2; lia).
    assert (Hno : round_nearest_even q2 l' <> 2 ^ 53).
    { destruct Hm0 as [[-> _]|[-> Hodd]]; [lia|].
      rewrite Hodd in Hq2. simpl Z.b2z in Hq2. lia. }
    apply Z.eqb_neq in Hno. rewrite Hno. apply Z.eqb_neq in Hno.
    exists (Z.to_pos (round_nearest_even q2 l')), (e' + 1).
    split; [reflexivity|].
    assert (Hpos : 0 < round_nearest_even q2 l')
      by (destruct Hm0 as [[-> _]|[-> _]]; lia).
    rewrite Z2Pos.id by lia.
    split; [destruct Hm0 as [[H0 _]|[H0 _]]; rewrite H0 in *; lia|].
    split; [lia|].
    destruct (Hgen _ _ eq_refl eq_refl) as [HP HU].
    remember (s * 2 ^ (- (e' + 1))) as U. clear HeqU Hgen.
    destruct Hm0 as [[-> [Hodd| ->]]|[-> Hodd]];
      try rewrite Hodd in Hq2; simpl Z.b2z in Hq2; try lia.
    destruct (Z.odd q); simpl Z.b2z in Hq2; lia.
Qed.

(** ** From the specification floats to the primitive ones *)

Lemma canon_valid (z : Z) : 0 < z < 2 ^ 53 -> valid_binary (canon z) = true.
Proof.
  intros Hz. pose proof (dig_le_53 z Hz) as Hd.
  pose proof (mant_bounds z Hz) as [Hm Hdm].
  rewrite canon_eq. unfold SpecFloat.valid_binary, bounded, canonical_mantissa.
  change (Zpos (digits2_pos (Z.to_pos (mant z)))) with (dig (Zpos (Z.to_pos (mant z)))).
  rewrite Z2Pos.id, Hdm, fexp_eq by lia.
  apply andb_true_iff. split; [apply Z.eqb_eq|apply Z.leb_le; unfold emax, prec]; lia.
Qed.

Lemma Prim2SF_number_of_Z (z : Z) :
  0 < z < 2 ^ 53 -> Prim2SF (number_of_Z z) = canon z.
Proof.
  intros Hz. unfold number_of_Z. rewrite binary_normalize_canon by exact Hz.
  apply Prim2SF_SF2Prim, canon_valid, Hz.
Qed.

Lemma Prim2SF_zero : Prim2SF PrimFloat.zero = S754_zero false.
Proof. reflexivity. Qed.

Lemma number_of_Z_0 : number_of_Z 0 = PrimFloat.zero.
Proof. reflexivity. Qed.

(** Adding a positive integer to a non-negative one is exact as long as
    the sum stays below 2^53. *)
Lemma add_number_of_Z (a b : Z) :
  0 <= a -> 0 < b -> a + b < 2 ^ 53 ->
  PrimFloat.add (number_of_Z a) (number_of_Z b) = number_of_Z (a + b).
Proof.
  intros Ha Hb Hab. apply Prim2SF_inj.
  rewrite add_spec, (Prim2SF_number_of_Z b), (Prim2SF_number_of_Z (a + b)) by lia.
  destruct (Z.eq_dec a 0) as [->|Hne].
  - rewrite number_of_Z_0, Prim2SF_zero. reflexivity.
  - rewrite Prim2SF_number_of_Z by lia. apply SFadd_canon; lia.
Qed.

Lemma SFcompare_finite (m1 m2 : positive) (e1 e2 : Z) :
  SFcompare (S754_finite false m1 e1) (S754_finite false m2 e2)
  = Some match e1 ?= e2 with
         | Lt => Lt
         | Gt => Gt
         | Eq => (Zpos m1 ?= Zpos m2)
         end.
Proof. reflexivity. Qed.

(** The quotient of two integers, as a primitive float. *)
Lemma div_number_of_Z (s n : Z) :
  0 < s < 2 ^ 53 -> 0 < n < 2 ^ 53 ->
  exists (M : positive) (E : Z),
    Prim2SF (PrimFloat.div (number_of_Z s) (number_of_Z n)) = S754_finite false M E
    /\ 2 ^ 52 <= Zpos M < 2 ^ 53
    /\ E <= 0
    /\ 2 * Z.abs (Zpos M * n - s * 2 ^ (- E)) <= n.
Proof.
  intros Hs Hn. rewrite div_spec, !Prim2SF_number_of_Z by assumption.
  apply SFdiv_canon; assumption.
Qed.

Lemma pow2_le (a b : Z) : 0 <= a <= b -> 2 ^ a <= 2 ^ b.
Proof. intros H. apply Z.pow_le_mono_r; lia. Qed.

(** A quotient of integers that lies between 1 and 5 rounds to a float
    between 1 and 5. *)
Lemma div_between_1_and_5 (s n : Z) :
  0 < n -> n <= s <= 5 * n -> s < 2 ^ 53 ->
  PrimFloat.leb 1%float (PrimFloat.div (number_of_Z s) (number_of_Z n)) = true
  /\ PrimFloat.leb (PrimFloat.div (number_of_Z s) (number_of_Z n)) 5%float = true.
Proof.
  intros Hn Hsn Hs.
  destruct (div_number_of_Z s n ltac:(lia) ltac:(lia)) as (M & E & HP & HM & HE & Hrnd).
  rewrite !leb_spec, HP.
  change (Prim2SF 1%float) with (S754_finite false (Z.to_pos (2 ^ 52)) (-52)).
  change (Prim2SF 5%float) with (S754_finite false (Z.to_pos (5 * 2 ^ 50)) (-50)).
  unfold SFleb. rewrite !SFcompare_finite.
  change (Zpos (Z.to_pos (2 ^ 52))) with (2 ^ 52).
  change (Zpos (Z.to_pos (5 * 2 ^ 50))) with (5 * 2 ^ 50).
  split.
  - (* 1 <= quotient: the exponent is at least -52 *)
    assert (HE52 : -52 <= E).
    { destruct (Z_le_gt_dec (-52) E) as [|Hlt]; [assumption|exfalso].
      pose proof (pow2_le 53 (- E) ltac:(lia)) as Hp.
      remember (2 ^ (- E)) as P. clear HeqP. nia. }
    destruct (Z.compare_spec (-52) E) as [HeqE|HltE|HgtE]; try reflexivity; [|lia].
    destruct (Z.compare_spec (2 ^ 52) (Zpos M)); try reflexivity. lia.
  - (* quotient <= 5 *)
    destruct (Z.compare_spec E (-50)) as [HeqE|HltE|HgtE]; try reflexivity.
    + destruct (Z.compare_spec (Zpos M) (5 * 2 ^ 50)) as [|?|Hgt]; try reflexivity.
      exfalso. subst E. change (2 ^ (- -50)) with (2 ^ 50) in Hrnd. nia.
    + exfalso. pose proof (pow2_le (- E) 49 ltac:(lia)) as Hp.
      assert (0 < 2 ^ (- E)) by (apply Z.pow_pos_nonneg; lia).
      remember (2 ^ (- E)) as P. clear HeqP. nia.
Qed.


Lemma div_nonneg (s n : Z) :
  0 < s < 2 ^ 53 -> 0 < n < 2 ^ 53 ->
  PrimFloat.leb 0%float (PrimFloat.div (number_of_Z s) (number_of_Z n)) = true.
Proof.
  intros Hs Hn.
  destruct (div_number_of_Z s n Hs Hn) as (M & E & HP & _).
  rewrite leb_spec, HP. reflexivity.
Qed.

(** ** The running sum and the mean *)

Lemma total_bounds (l : list Z) :
  Forall (fun z => 1 <= z <= 5) l ->
  Z.of_nat (length l) <= total l <= 5 * Z.of_nat (length l).
Proof.
  induction 1 as [|z l Hz _ IH]; simpl total; simpl length; [lia|].
  rewrite Nat2Z.inj_succ. lia.
Qed.

(** The left-to-right floating-point sum of positive integers is their
    exact sum as long as that is below 2^53. *)
Lemma fold_add_exact (l : list Z) :
  Forall (fun z => 0 < z) l ->
  forall a : Z, 0 <= a -> a + total l < 2 ^ 53 ->
    fold_left PrimFloat.add (map number_of_Z l) (number_of_Z a)
    = number_of_Z (a + total l).
Proof.
  induction 1 as [|z l Hz Hl IH]; intros a Ha Hlt; simpl.
  - rewrite Z.add_0_r. reflexivity.
  - simpl total in Hlt.
    assert (Hnn : 0 <= total l).
    { clear - Hl. induction Hl as [|y l Hy _ IH]; simpl; lia. }
    rewrite add_number_of_Z by lia.
    rewrite IH by lia. f_equal. lia.
Qed.

Lemma float_sum_exact (l : list Z) :
  Forall (fun z => 1 <= z <= 5) l ->
  Z.of_nat (length l) < array_limit ->
  float_sum (map number_of_Z l) = number_of_Z (total l).
Proof.
  intros Hl Hn. pose proof (total_bounds l Hl) as Hb.
  unfold array_limit in Hn. unfold float_sum.
  rewrite <- number_of_Z_0, fold_add_exact; [reflexivity| |lia|lia].
  eapply Forall_impl; [|exact Hl]. simpl. intros; lia.
Qed.

(** The mean of ratings between 1 and 5 is a float between 1 and 5. *)
Lemma mean_in_range (ratings : list Z) :
  Forall (fun z => 1 <= z <= 5) ratings ->
  ratings <> [] ->
  Z.of_nat (length ratings) < array_limit ->
  float_in_1_5 (mean ratings) /\ float_in_0_5 (mean ratings).
Proof.
  intros Hl Hne Hn. pose proof (total_bounds ratings Hl) as Hb.
  destruct ratings as [|z l]; [contradiction|].
  unfold mean. rewrite float_sum_exact by assumption.
  set (n := Z.of_nat (length (z :: l))) in *.
  assert (Hn0 : 0 < n) by (unfold n; simpl length; lia).
  unfold array_limit in Hn.
  destruct (div_between_1_and_5 (total (z :: l)) n) as [H1 H5]; try lia.
  pose proof (div_nonneg (total (z :: l)) n ltac:(lia) ltac:(lia)) as H0.
  repeat split; assumption.
Qed.


(** For ratings between 1 and 5 the floating-point mean is the exact
    mean [total / n] rounded once: a normal binary64 [M * 2^E] within
    half a unit in the last place of it. *)
Lemma mean_correctly_rounded (ratings : list Z) :
  Forall (fun z => 1 <= z <= 5) ratings ->
  ratings <> [] ->
  Z.of_nat (length ratings) < array_limit ->
  exists (M : positive) (E : Z),
    Prim2SF (mean ratings) = S754_finite false M E
    /\ 2 ^ 52 <= Zpos M < 2 ^ 53
    /\ E <= 0
    /\ 2 * Z.abs (Zpos M * Z.of_nat (length ratings) - total ratings * 2 ^ (- E))
       <= Z.of_nat (length ratings).
Proof.
  intros Hl Hne Hn. pose proof (total_bounds ratings Hl) as Hb.
  destruct ratings as [|z l]; [contradiction|].
  unfold mean. rewrite float_sum_exact by assumption.
  unfold array_limit in Hn.
  apply div_number_of_Z; simpl length in *; lia.
Qed.
(** * The recomputation *)

Lemma fold_left_sum_map (rs : list Review.t) (acc : float) :
  fold_left (fun sum r => PrimFloat.add sum (number_of_Z (Review.rating r))) rs acc
  = fold_left PrimFloat.add (map number_of_Z (map Review.rating rs)) acc.
Proof.
  revert acc; induction rs as [|r rs IH]; intros acc; simpl; [reflexivity|].
  apply IH.
Qed.

Lemma average_mean (rs : list Review.t) :
  average rs = mean (map Review.rating rs).
Proof.
  destruct rs as [|r rs]; [reflexivity|].
  unfold average, array_length, mean, sum_ratings, float_sum.
  replace (0 <? Z.of_nat (length (r :: rs))) with true
    by (symmetry; apply Z.ltb_lt; simpl length; lia).
  rewrite fold_left_sum_map, !length_map.
  reflexivity.
Qed.

Lemma updateItemRating_eq (now : jsstring) (itemId : Z) (d : db) :
  updateItemRating now itemId d = (inl tt, recomputed now itemId d).
Proof. reflexivity. Qed.

Lemma map_if_false {A} (p : A -> bool) (f : A -> A) (l : list A) :
  (forall x, In x l -> p x = false) ->
  map (fun x => if p x then f x else x) l = l.
Proof.
  induction l as [|x l IH]; intros H; simpl; [reflexivity|].
  rewrite (H x (or_introl eq_refl)), IH; [reflexivity|].
  intros y Hy; apply H; right; exact Hy.
Qed.

Lemma recomputed_reviews_of (now : jsstring) (i j : Z) (d : db) :
  reviews_of (recomputed now i d) j = reviews_of d j.
Proof. reflexivity. Qed.

Lemma recomputed_item (now : jsstring) (itemId : Z) (d : db) (it : Item.t) :
  In it (items (recomputed now itemId d)) ->
  Item.id it = itemId ->
  Item.averageRating it = mean (map Review.rating (reviews_of d itemId))
  /\ Item.totalReviews it = Z.of_nat (length (reviews_of d itemId)).
Proof.
  unfold recomputed; simpl; intros Hin Hid.
  apply in_map_iff in Hin as (it0 & Heq & _).
  destruct (Item.id it0 =? itemId) eqn:E.
  - subst it; simpl; rewrite average_mean; split; reflexivity.
  - subst it0; rewrite Hid, Z.eqb_refl in E; discriminate.
Qed.

Lemma recomputed_other (now : jsstring) (itemId : Z) (d : db) (it : Item.t) :
  In it (items (recomputed now itemId d)) ->
  Item.id it <> itemId ->
  In it (items d).
Proof.
  unfold recomputed; simpl; intros Hin Hid.
  apply in_map_iff in Hin as (it0 & Heq & Hin0).
  destruct (Item.id it0 =? itemId) eqn:E.
  - subst it; simpl in Hid; apply Z.eqb_eq in E; contradiction.
  - subst it0; exact Hin0.
Qed.

(** C1. Running [updateItemRating] for an item returns normally, leaves
    the reviews alone, and rewrites every row of the item in place: its
    [averageRating] becomes the mean of the ratings of the item's
    persisted reviews (sum divided by count, in floating point), its
    [totalReviews] their count; both are 0 exactly when the item has no
    review. *)
Theorem updateItemRating_sets_mean_and_count :
  forall (now : jsstring) (itemId : Z) (d : db),
    let rs := reviews_of d itemId in
    let d' := snd (updateItemRating now itemId d) in
    fst (updateItemRating now itemId d) = inl tt
    /\ reviews d' = reviews d
    /\ (forall it, In it (items d) -> Item.id it = itemId ->
          In (set_item_rating (mean (map Review.rating rs))
                (Z.of_nat (length rs)) now it) (items d'))
    /\ (forall it, In it (items d') -> Item.id it = itemId ->
          Item.averageRating it = mean (map Review.rating rs)
          /\ Item.totalReviews it = Z.of_nat (length rs)
          /\ ((Item.averageRating it = PrimFloat.zero
               /\ Item.totalReviews it = 0) <-> rs = [])).
Proof.
  intros now itemId d rs d'; subst rs d'.
  rewrite updateItemRating_eq; simpl fst; simpl snd.
  split; [reflexivity|]. split; [reflexivity|]. split.
  - intros it Hin Hid. unfold recomputed; simpl.
    apply in_map_iff. exists it. split; [|exact Hin].
    apply Z.eqb_eq in Hid; rewrite Hid, average_mean. reflexivity.
  - intros it Hin Hid.
    destruct (recomputed_item _ _ _ _ Hin Hid) as [Ha Ht].
    split; [exact Ha|]. split; [exact Ht|]. split.
    + intros [_ H0]. rewrite Ht in H0.
      destruct (reviews_of d itemId); [reflexivity|simpl in H0; lia].
    + intros Hnil. rewrite Ha, Ht, Hnil. split; reflexivity.
Qed.

(** C7. For an [itemId] that no item carries, [updateItemRating]
    returns normally and leaves the store as it was: the update matches
    no row and nothing is raised. *)
Theorem updateItemRating_missing_item_is_silent :
  forall (now : jsstring) (itemId : Z) (d : db),
    (forall it, In it (items d) -> Item.id it <> itemId) ->
    updateItemRating now itemId d = (inl tt, d).
Proof.
  intros now itemId d Hnone.
  rewrite updateItemRating_eq. f_equal.
  unfold recomputed. rewrite map_if_false.
  - destruct d; reflexivity.
  - intros it Hin. apply Z.eqb_neq. apply Hnone, Hin.
Qed.

Lemma updateItemRating_missing_item_is_silent_witness :
  (forall it, In it (items two_reviews) -> Item.id it <> 42)
  /\ updateItemRating (sample_clock 0%nat) 42 two_reviews = (inl tt, two_reviews).
Proof.
  assert (H : forall it, In it (items two_reviews) -> Item.id it <> 42).
  { intros it Hin. vm_compute in Hin. destruct Hin as [<-|[]]. discriminate. }
  split; [exact H|].
  apply (updateItemRating_missing_item_is_silent (sample_clock 0%nat) 42
           two_reviews H).
Defined.

(** * POST *)

#[local] Opaque parseInt trim.

Ltac break_if :=
  match goal with
  | |- context [if ?b then _ else _] => destruct b eqn:?
  end.

Lemma filter_nil_iff {A} (p : A -> bool) (l : list A) :
  filter p l = [] <-> forall x, In x l -> p x = false.
Proof.
  induction l as [|x l IH]; simpl.
  - split; [intros _ y []|reflexivity].
  - destruct (p x) eqn:E.
    + split; [discriminate|]. intros H.
      rewrite (H x (or_introl eq_refl)) in E; discriminate.
    + rewrite IH. split.
      * intros H y [<-|Hy]; [exact E|apply H, Hy].
      * intros H y Hy; apply H; right; exact Hy.
Qed.

Lemma create_validated_inv (b : CreateBody.t) :
  create_validated b = true ->
  exists zi zr su st,
    parseInt (CreateBody.itemId b) = Some zi
    /\ parseInt (CreateBody.rating b) = Some zr
    /\ 1 <= zr <= 5
    /\ CreateBody.userId b = JStr su
    /\ CreateBody.title b = JStr st.
Proof.
  unfold create_validated, itemId_rejected, userId_rejected, rating_rejected,
    title_rejected.
  intros H.
  repeat (apply andb_true_iff in H as [H ?]).
  repeat match goal with
         | H : negb _ = true |- _ => apply negb_true_iff in H
         | H : _ || _ = false |- _ => apply orb_false_iff in H as [H ?]
         end.
  destruct (parseInt (CreateBody.itemId b)) as [zi|]; [|discriminate].
  destruct (parseInt (CreateBody.rating b)) as [zr|]; [|discriminate].
  destruct (CreateBody.userId b); try discriminate.
  destruct (CreateBody.title b); try discriminate.
  simpl in *.
  repeat match goal with
         | H : (_ <? _) = false |- _ => apply Z.ltb_ge in H
         end.
  do 4 eexists. repeat split; try reflexivity; lia.
Qed.

(** POST with its validations named. *)
Lemma POST_eq (clk : nat -> jsstring) (b : CreateBody.t) (d : db) :
  POST clk (Some b) d =
  if itemId_rejected b then
    (mkresponse (JsonError "Valid itemId is required"
                   (Some "INVALID_ITEM_ID"%string)) 400, d)
  else if userId_rejected b then
    (mkresponse (JsonError "Valid userId is required"
                   (Some "INVALID_USER_ID"%string)) 400, d)
  else if rating_rejected b then
    (mkresponse (JsonError "Rating must be an integer between 1 and 5"
                   (Some "INVALID_RATING"%string)) 400, d)
  else if title_rejected b then
    (mkresponse (JsonError "Title is required"
                   (Some "MISSING_TITLE"%string)) 400, d)
  else
    match filter (fun i => eq_num (Item.id i) (parseInt (CreateBody.itemId b)))
            (items d) with
    | [] => (mkresponse (JsonError "Item not found" None) 404, d)
    | _ :: _ =>
        handler
          (itemId' <- to_integer (parseInt (CreateBody.itemId b)) ;;
           userId' <- call_trim (CreateBody.userId b) ;;
           rating' <- to_integer (parseInt (CreateBody.rating b)) ;;
           title' <- call_trim (CreateBody.title b) ;;
           comment' <- (if truthy (CreateBody.comment b)
                        then c <- call_trim (CreateBody.comment b) ;; ret (Some c)
                        else ret None) ;;
           newReview <- insert_review
                          (mkvalues itemId' userId' rating' title' comment'
                             (clk 0%nat) (clk 1%nat)) ;;
           updateItemRating (clk 2%nat) itemId' ;;
           match newReview with
           | r :: _ => NextResponse_json (JsonReview r) 201
           | [] => NextResponse_json JsonUndefined 201
           end) d
    end.
Proof.
  unfold POST, handler, bind, request_json, ret, NextResponse_json, select_items,
    itemId_rejected, userId_rejected, rating_rejected, title_rejected.
  destruct (negb (truthy (CreateBody.itemId b)) || isNaN _); [reflexivity|].
  destruct (negb (truthy (CreateBody.userId b)) || _ || _); [reflexivity|].
  destruct (negb (truthy (CreateBody.rating b)) || _ || _ || _); [reflexivity|].
  destruct (negb (truthy (CreateBody.title b)) || _ || _); [reflexivity|].
  destruct (filter _ (items d)); reflexivity.
Qed.

(** What POST does, by cases: it either leaves the store as it was and
    answers 400, 404 or 500, or it has validated the body, found the
    item, inserted the row and recomputed the item, and answers 201. *)
Lemma POST_cases (clk : nat -> jsstring) (request : option CreateBody.t) (d : db) :
  (snd (POST clk request d) = d
   /\ (status (fst (POST clk request d)) = 400
       \/ status (fst (POST clk request d)) = 404
       \/ status (fst (POST clk request d)) = 500))
  \/ (exists b v,
         request = Some b
         /\ create_validated b = true
         /\ parseInt (CreateBody.itemId b) = Some (v_itemId v)
         /\ parseInt (CreateBody.rating b) = Some (v_rating v)
         /\ 1 <= v_rating v <= 5
         /\ v_createdAt v = clk 0%nat /\ v_updatedAt v = clk 1%nat
         /\ (exists it, In it (items d) /\ Item.id it = v_itemId v)
         /\ POST clk request d
            = (mkresponse
                 (JsonReview
                    (Review.mk (next_rowid d) (v_itemId v) (v_userId v)
                       (v_rating v) (v_title v) (v_comment v) (v_createdAt v)
                       (v_updatedAt v))) 201,
               recomputed (clk 2%nat) (v_itemId v) (inserted v d))).
Proof.
  destruct request as [b|]; [|left; split; [reflexivity|right; right; reflexivity]].
  rewrite POST_eq.
  destruct (itemId_rejected b) eqn:E1; [left; split; [reflexivity|left; reflexivity]|].
  destruct (userId_rejected b) eqn:E2; [left; split; [reflexivity|left; reflexivity]|].
  destruct (rating_rejected b) eqn:E3; [left; split; [reflexivity|left; reflexivity]|].
  destruct (title_rejected b) eqn:E4; [left; split; [reflexivity|left; reflexivity]|].
  assert (Hval : create_validated b = true)
    by (unfold create_validated; rewrite E1, E2, E3, E4; reflexivity).
  destruct (create_validated_inv b Hval) as (zi & zr & su & st & Pi & Pr & Hr & Eu & Et).
  destruct (filter _ (items d)) as [|it1 l1] eqn:Ef;
    [left; split; [reflexivity|right; left; reflexivity]|].
  assert (Hitem : exists it, In it (items d) /\ Item.id it = zi).
  { assert (Hin : In it1 (filter (fun i => eq_num (Item.id i)
                                          (parseInt (CreateBody.itemId b))) (items d)))
      by (rewrite Ef; left; reflexivity).
    apply filter_In in Hin as [Hin Heq]. exists it1. split; [exact Hin|].
    rewrite Pi in Heq. apply Z.eqb_eq, Heq. }
  rewrite Pi, Pr, Eu, Et.
  unfold handler, bind, to_integer, call_trim, ret.
  destruct (truthy (CreateBody.comment b)) eqn:Tc.
  - destruct (CreateBody.comment b) as [| | | |sc| |] eqn:Ec;
      try (left; split; [reflexivity|right; right; reflexivity]).
    right. exists b, (mkvalues zi (trim su) zr (trim st) (Some (trim sc))
                        (clk 0%nat) (clk 1%nat)).
    simpl. repeat split; try assumption; try reflexivity; lia.
  - right. exists b, (mkvalues zi (trim su) zr (trim st) None
                        (clk 0%nat) (clk 1%nat)).
    simpl. repeat split; try assumption; try reflexivity; lia.
Qed.

(** * PUT and DELETE *)

Lemma bind_inl {A B} (m : io A) (k : A -> io B) (d d' : db) (a : A) :
  m d = (inl a, d') -> bind m k d = k a d'.
Proof. intros H; unfold bind; rewrite H; reflexivity. Qed.

(** PUT in closed form. *)
Lemma PUT_eq (clk : nat -> jsstring) (id : option jsstring)
  (request : option UpdateBody.t) (d : db) :
  PUT clk id request d =
  if id_rejected id then
    (mkresponse (JsonError "Valid ID is required" (Some "INVALID_ID"%string)) 400, d)
  else
    match request with
    | None => (mkresponse (JsonServerError SyntaxError) 500, d)
    | Some b =>
        match filter (has_key id) (reviews d) with
        | [] => (mkresponse (JsonError "Review not found" None) 404, d)
        | existing :: _ =>
            if patch_rating_rejected b then
              (mkresponse (JsonError "Rating must be an integer between 1 and 5"
                             (Some "INVALID_RATING"%string)) 400, d)
            else if patch_title_rejected b then
              (mkresponse (JsonError "Title must be a non-empty string"
                             (Some "INVALID_TITLE"%string)) 400, d)
            else
              match patch_comment b with
              | None => (mkresponse (JsonServerError TypeError) 500, d)
              | Some c =>
                  let u := patch_updates clk b c in
                  (mkresponse (JsonReview (set_review u existing)) 200,
                   if is_undefined (UpdateBody.rating b)
                   then updated u id d
                   else recomputed (clk 1%nat) (Review.itemId existing)
                          (updated u id d))
              end
        end
    end.
Proof.
  unfold PUT, handler.
  change (negb (param_truthy id) || isNaN (parseInt_param id))
    with (id_rejected id).
  destruct (id_rejected id) eqn:E0; [reflexivity|].
  destruct request as [b|]; [|reflexivity].
  rewrite (bind_inl (request_json (Some b)) _ d d b eq_refl).
  change (fun r => eq_num (Review.id r) (parseInt_param id)) with (has_key id).
  rewrite (bind_inl (select_reviews (has_key id)) _ d d _ eq_refl).
  destruct (filter (has_key id) (reviews d)) as [|existing rest] eqn:Ef;
    [reflexivity|].
  simpl limit1. cbv iota.
  unfold patch_updates, patch_rating, patch_title, patch_comment,
    patch_rating_rejected, patch_title_rejected, updated, recomputed, reviews_of.
  destruct (is_undefined (UpdateBody.rating b)) eqn:Ur;
    destruct (parseInt (UpdateBody.rating b)) as [zr|] eqn:Pr;
    destruct (UpdateBody.title b) as [| |tb|tx|ts|tl|];
    destruct (UpdateBody.comment b) as [| |cb|cx|cs|cl|];
    unfold bind, ret, to_integer, call_trim, throw, NextResponse_json,
      update_reviews, updateItemRating, try_catch, bind, select_reviews,
      update_items_rating, ret;
    simpl; rewrite ?Ef; try reflexivity;
    repeat (break_if; simpl; rewrite ?Ef; try reflexivity).
Qed.

(** DELETE in closed form. *)
Lemma DELETE_eq (clk : nat -> jsstring) (id : option jsstring) (d : db) :
  DELETE clk id d =
  if id_rejected id then
    (mkresponse (JsonError "Valid ID is required" (Some "INVALID_ID"%string)) 400, d)
  else
    match filter (has_key id) (reviews d) with
    | [] => (mkresponse (JsonError "Review not found" None) 404, d)
    | existing :: _ =>
        (mkresponse (JsonDeleted (Review.id existing)) 200,
         recomputed (clk 0%nat) (Review.itemId existing) (deleted id d))
    end.
Proof.
  unfold DELETE, handler.
  change (negb (param_truthy id) || isNaN (parseInt_param id))
    with (id_rejected id).
  destruct (id_rejected id) eqn:E0; [reflexivity|].
  change (fun r => eq_num (Review.id r) (parseInt_param id)) with (has_key id).
  rewrite (bind_inl (select_reviews (has_key id)) _ d d _ eq_refl).
  destruct (filter (has_key id) (reviews d)) as [|existing rest] eqn:Ef;
    [reflexivity|].
  simpl limit1. cbv iota.
  unfold bind, delete_reviews, updateItemRating, try_catch, bind, select_reviews,
    update_items_rating, NextResponse_json, ret.
  simpl. rewrite Ef. reflexivity.
Qed.

(** * The aggregate invariant *)

Lemma consistent_item_ext (d1 d2 : db) (it : Item.t) :
  map Review.rating (reviews_of d1 (Item.id it))
  = map Review.rating (reviews_of d2 (Item.id it)) ->
  consistent_item d1 it -> consistent_item d2 it.
Proof.
  intros Heq [Ha Ht]. split.
  - rewrite <- Heq. exact Ha.
  - rewrite Ht. rewrite <- (length_map Review.rating), Heq, length_map.
    reflexivity.
Qed.

(** Recomputing item [i] makes every item consistent, provided the
    items other than [i] already were. *)
Lemma recomputed_consistent (now : jsstring) (i : Z) (d : db) :
  (forall it, In it (items d) -> Item.id it <> i -> consistent_item d it) ->
  aggregates_consistent (recomputed now i d).
Proof.
  intros Hother. apply Forall_forall. intros it Hin.
  destruct (Z.eq_dec (Item.id it) i) as [Hid|Hid].
  - destruct (recomputed_item _ _ _ _ Hin Hid) as [Ha Ht].
    split; rewrite recomputed_reviews_of, Hid; assumption.
  - apply (consistent_item_ext d); [reflexivity|].
    apply Hother; [|exact Hid].
    apply (recomputed_other now i); assumption.
Qed.

Lemma reviews_of_inserted (v : review_values) (d : db) (j : Z) :
  v_itemId v <> j ->
  reviews_of (inserted v d) j = reviews_of d j.
Proof.
  intros Hne. unfold reviews_of, inserted; simpl.
  rewrite filter_app; simpl.
  apply Z.eqb_neq in Hne. rewrite Hne. apply app_nil_r.
Qed.

Lemma NoDup_map_eq {A B} (f : A -> B) (l : list A) (x y : A) :
  NoDup (map f l) -> In x l -> In y l -> f x = f y -> x = y.
Proof.
  induction l as [|a l IH]; simpl; intros Hnd Hx Hy Hf; [contradiction|].
  inversion Hnd as [|? ? Hnotin Hnd']; subst.
  destruct Hx as [<-|Hx], Hy as [<-|Hy].
  - reflexivity.
  - exfalso. apply Hnotin. rewrite Hf. apply in_map, Hy.
  - exfalso. apply Hnotin. rewrite <- Hf. apply in_map, Hx.
  - apply IH; assumption.
Qed.

Lemma has_key_id (id : option jsstring) (r1 r2 : Review.t) :
  has_key id r1 = true -> has_key id r2 = true -> Review.id r1 = Review.id r2.
Proof.
  unfold has_key, eq_num. destruct (parseInt_param id); [|discriminate].
  intros H1 H2. apply Z.eqb_eq in H1, H2. congruence.
Qed.

(** Under the primary key, the rows that a key selects are the first of
    them. *)
Lemma keyed_row_unique (id : option jsstring) (d : db) (existing r : Review.t)
  (rest : list Review.t) :
  review_keys_unique d ->
  filter (has_key id) (reviews d) = existing :: rest ->
  In r (reviews d) -> has_key id r = true -> r = existing.
Proof.
  intros Hu Hf Hin Hk.
  assert (He : In existing (filter (has_key id) (reviews d)))
    by (rewrite Hf; left; reflexivity).
  apply filter_In in He as [He Hke].
  apply (NoDup_map_eq Review.id (reviews d)); try assumption.
  apply (has_key_id id); assumption.
Qed.

Lemma filter_map_if {A} (p q : A -> bool) (f : A -> A) (l : list A) :
  (forall x, In x l -> p x = true -> q (f x) = q x) ->
  filter q (map (fun x => if p x then f x else x) l)
  = map (fun x => if p x then f x else x) (filter q l).
Proof.
  induction l as [|x l IH]; intros H; simpl; [reflexivity|].
  assert (Hq : q (if p x then f x else x) = q x).
  { destruct (p x) eqn:E; [|reflexivity]. apply H; [left; reflexivity|exact E]. }
  rewrite Hq. destruct (q x); simpl; rewrite IH; try reflexivity;
    intros y Hy; apply H; right; exact Hy.
Qed.

Lemma reviews_of_updated (u : review_updates) (id : option jsstring) (d : db)
  (j : Z) :
  reviews_of (updated u id d) j
  = map (fun r => if has_key id r then set_review u r else r) (reviews_of d j).
Proof.
  unfold reviews_of, updated; simpl.
  apply filter_map_if. intros; reflexivity.
Qed.

(** An update that sets no rating leaves every item's ratings alone. *)
Lemma ratings_updated_no_rating (u : review_updates) (id : option jsstring)
  (d : db) (j : Z) :
  u_rating u = None ->
  map Review.rating (reviews_of (updated u id d) j)
  = map Review.rating (reviews_of d j).
Proof.
  intros Hu. rewrite reviews_of_updated, map_map.
  apply map_ext. intros r. destruct (has_key id r); [|reflexivity].
  unfold set_review; simpl. rewrite Hu. reflexivity.
Qed.

(** An update touches the reviews of the keyed row's item only. *)
Lemma reviews_of_updated_other (u : review_updates) (id : option jsstring)
  (d : db) (existing : Review.t) (rest : list Review.t) (j : Z) :
  review_keys_unique d ->
  filter (has_key id) (reviews d) = existing :: rest ->
  Review.itemId existing <> j ->
  reviews_of (updated u id d) j = reviews_of d j.
Proof.
  intros Hu Hf Hne. rewrite reviews_of_updated.
  apply map_if_false. intros r Hin.
  apply filter_In in Hin as [Hin Hj].
  destruct (has_key id r) eqn:Hk; [|reflexivity].
  rewrite (keyed_row_unique id d existing r rest Hu Hf Hin Hk) in Hj.
  apply Z.eqb_eq in Hj. contradiction.
Qed.

Lemma filter_filter_keep {A} (p q : A -> bool) (l : list A) :
  (forall x, In x l -> q x = true -> p x = true) ->
  filter q (filter p l) = filter q l.
Proof.
  induction l as [|x l IH]; intros H; simpl; [reflexivity|].
  destruct (q x) eqn:Eq.
  - rewrite (H x (or_introl eq_refl) Eq). simpl. rewrite Eq, IH; [reflexivity|].
    intros y Hy; apply H; right; exact Hy.
  - destruct (p x); simpl; rewrite ?Eq; apply IH;
      intros y Hy; apply H; right; exact Hy.
Qed.

(** A delete touches the reviews of the keyed row's item only. *)
Lemma reviews_of_deleted_other (id : option jsstring) (d : db)
  (existing : Review.t) (rest : list Review.t) (j : Z) :
  review_keys_unique d ->
  filter (has_key id) (reviews d) = existing :: rest ->
  Review.itemId existing <> j ->
  reviews_of (deleted id d) j = reviews_of d j.
Proof.
  intros Hu Hf Hne. unfold reviews_of, deleted; simpl.
  apply filter_filter_keep. intros r Hin Hj.
  destruct (has_key id r) eqn:Hk; [|reflexivity].
  rewrite (keyed_row_unique id d existing r rest Hu Hf Hin Hk) in Hj.
  apply Z.eqb_eq in Hj. contradiction.
Qed.

(** The primary key survives every statement. *)
Lemma fold_left_max_ge (l : list Z) (a : Z) :
  a <= fold_left Z.max l a /\ forall x, In x l -> x <= fold_left Z.max l a.
Proof.
  revert a; induction l as [|y l IH]; intros a; simpl.
  - split; [lia|intros x []].
  - destruct (IH (Z.max a y)) as [H1 H2]. split; [lia|].
    intros x [<-|Hx]; [lia|apply H2, Hx].
Qed.

Lemma keys_unique_inserted (v : review_values) (d : db) :
  review_keys_unique d -> review_keys_unique (inserted v d).
Proof.
  unfold review_keys_unique, inserted; simpl. intros Hu.
  rewrite map_app; simpl.
  apply NoDup_app; [exact Hu|repeat constructor; intros []|].
  intros x Hx [<-|[]].
  destruct (fold_left_max_ge (map Review.id (reviews d)) (reviews_seq d)) as [_ H].
  specialize (H _ Hx). unfold next_rowid in H. lia.
Qed.

Lemma keys_unique_updated (u : review_updates) (id : option jsstring) (d : db) :
  review_keys_unique d -> review_keys_unique (updated u id d).
Proof.
  unfold review_keys_unique, updated; simpl. intros Hu.
  rewrite map_map.
  erewrite map_ext; [exact Hu|].
  intros r. destruct (has_key id r); reflexivity.
Qed.

Lemma keys_unique_filter (keep : Review.t -> bool) (rows : list Review.t) :
  NoDup (map Review.id rows) -> NoDup (map Review.id (filter keep rows)).
Proof.
  intros Hnd. induction rows as [|r rows IH]; simpl; [constructor|].
  simpl in Hnd. apply NoDup_cons_iff in Hnd as [Hfresh Hnd].
  destruct (keep r); simpl; [|apply IH, Hnd].
  apply NoDup_cons; [|apply IH, Hnd].
  intros Hin. apply Hfresh.
  apply in_map_iff in Hin as (r' & Hid & Hin).
  apply filter_In in Hin as [Hin _].
  rewrite <- Hid. apply in_map, Hin.
Qed.

Lemma keys_unique_deleted (id : option jsstring) (d : db) :
  review_keys_unique d -> review_keys_unique (deleted id d).
Proof.
  unfold review_keys_unique, deleted; simpl. apply keys_unique_filter.
Qed.

Lemma keys_unique_recomputed (now : jsstring) (i : Z) (d : db) :
  review_keys_unique d -> review_keys_unique (recomputed now i d).
Proof. intros H; exact H. Qed.

Lemma POST_preserves (clk : nat -> jsstring) (request : option CreateBody.t)
  (d : db) :
  store_invariant d -> store_invariant (snd (POST clk request d)).
Proof.
  intros [Hu Hc].
  destruct (POST_cases clk request d) as [[Hd _]|(b & v & _ & _ & _ & _ & _ & _ & _ & _ & Heq)].
  - rewrite Hd. split; assumption.
  - rewrite Heq; simpl. split.
    + apply keys_unique_recomputed, keys_unique_inserted, Hu.
    + apply recomputed_consistent. intros it Hin Hid.
      apply (consistent_item_ext d).
      * rewrite reviews_of_inserted; [reflexivity|]. congruence.
      * eapply Forall_forall in Hc; [exact Hc|exact Hin].
Qed.

Lemma PUT_preserves (clk : nat -> jsstring) (id : option jsstring)
  (request : option UpdateBody.t) (d : db) :
  store_invariant d -> store_invariant (snd (PUT clk id request d)).
Proof.
  intros [Hu Hc]. rewrite PUT_eq.
  destruct (id_rejected id); [split; assumption|].
  destruct request as [b|]; [|split; assumption].
  destruct (filter (has_key id) (reviews d)) as [|existing rest] eqn:Ef;
    [split; assumption|].
  destruct (patch_rating_rejected b); [split; assumption|].
  destruct (patch_title_rejected b); [split; assumption|].
  destruct (patch_comment b) as [c|]; [|split; assumption].
  simpl snd.
  destruct (is_undefined (UpdateBody.rating b)) eqn:Ur.
  - split; [apply keys_unique_updated, Hu|].
    apply Forall_forall. intros it Hin.
    apply (consistent_item_ext d).
    + symmetry. apply ratings_updated_no_rating.
      unfold patch_updates, patch_rating; simpl. rewrite Ur. reflexivity.
    + eapply Forall_forall in Hc; [exact Hc|exact Hin].
  - split; [apply keys_unique_recomputed, keys_unique_updated, Hu|].
    apply recomputed_consistent. intros it Hin Hid.
    apply (consistent_item_ext d).
    + rewrite (reviews_of_updated_other _ id d existing rest); auto.
    + eapply Forall_forall in Hc; [exact Hc|exact Hin].
Qed.

Lemma DELETE_preserves (clk : nat -> jsstring) (id : option jsstring) (d : db) :
  store_invariant d -> store_invariant (snd (DELETE clk id d)).
Proof.
  intros [Hu Hc]. rewrite DELETE_eq.
  destruct (id_rejected id); [split; assumption|].
  destruct (filter (has_key id) (reviews d)) as [|existing rest] eqn:Ef;
    [split; assumption|].
  simpl snd.
  split; [apply keys_unique_recomputed, keys_unique_deleted, Hu|].
  apply recomputed_consistent. intros it Hin Hid.
  apply (consistent_item_ext d).
  - rewrite (reviews_of_deleted_other id d existing rest); auto.
  - eapply Forall_forall in Hc; [exact Hc|exact Hin].
Qed.

Lemma handle_preserves (q : request) (d : db) :
  store_invariant d -> store_invariant (snd (handle q d)).
Proof.
  destruct q; simpl.
  - apply POST_preserves.
  - apply PUT_preserves.
  - apply DELETE_preserves.
Qed.

(** C2. From a store whose review keys are unique and whose items all
    carry the mean and count of their reviews, every store that a
    sequence of Create, Update and Delete requests run one after another
    passes through has the same property: after each request, whatever
    it answered and whether or not it recomputed, each item's
    [averageRating] and [totalReviews] are the mean and count of its
    current reviews. *)
Theorem mutations_keep_aggregates_consistent :
  forall (qs : list request) (d : db),
    review_keys_unique d ->
    aggregates_consistent d ->
    Forall (fun d' => review_keys_unique d' /\ aggregates_consistent d')
      (run qs d).
Proof.
  induction qs as [|q qs IH]; intros d Hu Hc; simpl; [constructor|].
  destruct (handle_preserves q d (conj Hu Hc)) as [Hu' Hc'].
  constructor; [split; assumption|].
  apply IH; assumption.
Qed.

Lemma mutations_keep_aggregates_consistent_witness :
  review_keys_unique sample_store
  /\ aggregates_consistent sample_store
  /\ Forall (fun d' => review_keys_unique d' /\ aggregates_consistent d')
       (run sample_requests sample_store).
Proof.
  assert (Hu : review_keys_unique sample_store) by constructor.
  assert (Hc : aggregates_consistent sample_store)
    by (repeat constructor).
  split; [exact Hu|]. split; [exact Hc|].
  apply (mutations_keep_aggregates_consistent sample_requests sample_store Hu Hc).
Defined.

(** C3. When a review is the only one of its item, a DELETE of it
    answers 200 with its id, and the store it leaves is the recomputation
    of that item (the [itemId] read from the row before the delete) over
    the store without the row: the item has no review left and each of
    its rows has [averageRating] 0 and [totalReviews] 0. *)
Theorem delete_last_review_resets_aggregate :
  forall (clk : nat -> jsstring) (id : option jsstring) (d : db) (r : Review.t),
    review_keys_unique d ->
    id_rejected id = false ->
    In r (reviews d) ->
    has_key id r = true ->
    reviews_of d (Review.itemId r) = [r] ->
    let d' := snd (DELETE clk id d) in
    DELETE clk id d
    = (mkresponse (JsonDeleted (Review.id r)) 200,
       recomputed (clk 0%nat) (Review.itemId r) (deleted id d))
    /\ reviews_of d' (Review.itemId r) = []
    /\ (forall it, In it (items d) -> Item.id it = Review.itemId r ->
          In (set_item_rating PrimFloat.zero 0 (clk 0%nat) it) (items d'))
    /\ (forall it, In it (items d') -> Item.id it = Review.itemId r ->
          Item.averageRating it = PrimFloat.zero /\ Item.totalReviews it = 0).
Proof.
  intros clk id d r Hu Hid Hin Hk Hone d'.
  assert (Hf : exists rest, filter (has_key id) (reviews d) = r :: rest).
  { destruct (filter (has_key id) (reviews d)) as [|e rest] eqn:Ef.
    - assert (Hr : In r (filter (has_key id) (reviews d)))
        by (apply filter_In; split; assumption).
      rewrite Ef in Hr. destruct Hr.
    - exists rest. f_equal. symmetry.
      apply (keyed_row_unique id d e r rest Hu Ef Hin Hk). }
  destruct Hf as [rest Hf].
  assert (Heq : DELETE clk id d
                = (mkresponse (JsonDeleted (Review.id r)) 200,
                   recomputed (clk 0%nat) (Review.itemId r) (deleted id d)))
    by (rewrite DELETE_eq, Hid, Hf; reflexivity).
  assert (Hnil : reviews_of (deleted id d) (Review.itemId r) = []).
  { unfold reviews_of, deleted; simpl.
    apply filter_nil_iff. intros x Hx.
    apply filter_In in Hx as [Hx Hnk].
    destruct (Review.itemId x =? Review.itemId r) eqn:E; [|reflexivity].
    assert (Hxr : In x (reviews_of d (Review.itemId r)))
      by (apply filter_In; split; assumption).
    rewrite Hone in Hxr. destruct Hxr as [<-|[]].
    rewrite Hk in Hnk. discriminate. }
  subst d'. rewrite Heq. simpl snd.
  split; [reflexivity|]. split; [exact Hnil|]. split.
  - intros it Hit Hi. unfold recomputed; simpl.
    apply in_map_iff. exists it. split; [|exact Hit].
    apply Z.eqb_eq in Hi. rewrite Hi, Hnil. reflexivity.
  - intros it Hit Hi.
    destruct (recomputed_item _ _ _ _ Hit Hi) as [Ha Ht].
    rewrite Hnil in Ha, Ht. split; assumption.
Qed.

Lemma delete_last_review_resets_aggregate_witness :
  review_keys_unique one_review
  /\ id_rejected (Some (str "1")) = false
  /\ In sample_review (reviews one_review)
  /\ has_key (Some (str "1")) sample_review = true
  /\ reviews_of one_review (Review.itemId sample_review) = [sample_review]
  /\ (forall it,
        In it (items (snd (DELETE sample_clock (Some (str "1")) one_review))) ->
        Item.id it = Review.itemId sample_review ->
        Item.averageRating it = PrimFloat.zero /\ Item.totalReviews it = 0).
Proof.
  assert (H1 : review_keys_unique one_review)
    by (vm_compute; constructor; [intros []|constructor]).
  assert (H2 : id_rejected (Some (str "1")) = false) by (vm_compute; reflexivity).
  assert (H3 : In sample_review (reviews one_review))
    by (vm_compute; left; reflexivity).
  assert (H4 : has_key (Some (str "1")) sample_review = true)
    by (vm_compute; reflexivity).
  assert (H5 : reviews_of one_review (Review.itemId sample_review) = [sample_review])
    by (vm_compute; reflexivity).
  repeat (split; [assumption|]).
  apply (delete_last_review_resets_aggregate sample_clock (Some (str "1"))
           one_review sample_review H1 H2 H3 H4 H5).
Defined.

(** * Creating a review of an item that does not exist *)




(** * Updating the comment alone *)

Lemma Forall2_map_same {A} (P : A -> A -> Prop) (f : A -> A) (l : list A) :
  (forall x, P x (f x)) -> Forall2 P l (map f l).
Proof. intros H; induction l; simpl; constructor; auto. Qed.

Lemma Forall2_refl {A} (P : A -> A -> Prop) (l : list A) :
  (forall x, P x x) -> Forall2 P l l.
Proof. intros H; induction l; constructor; auto. Qed.

(** C6. A PUT on an existing review whose patch supplies [comment] and
    neither [rating] nor [title] leaves the items table as it was (no
    recomputation runs) and changes, in the reviews table, nothing but
    the [comment] and [updatedAt] of the keyed row.  When the comment is
    a string or falsy the answer is 200 and the row carries the trimmed
    comment (null for a falsy one) and the new [updatedAt]; otherwise
    [comment.trim()] throws, the answer is 500 and nothing is written.
    Whatever else a patch supplies, the items table is left alone
    whenever [rating] is absent from it. *)
Theorem put_comment_only_changes_comment_alone :
  forall (clk : nat -> jsstring) (id : option jsstring) (c : jsval) (d : db)
         (existing : Review.t) (rest : list Review.t),
    id_rejected id = false ->
    filter (has_key id) (reviews d) = existing :: rest ->
    c <> JUndefined ->
    let request := Some (UpdateBody.mk JUndefined JUndefined c) in
    let d' := snd (PUT clk id request d) in
    items d' = items d
    /\ Forall2 (fun r r' => same_but_comment r r'
                            /\ (has_key id r = false -> r' = r))
         (reviews d) (reviews d')
    /\ (comment_accepted c = true ->
        status (fst (PUT clk id request d)) = 200
        /\ Forall2 (fun r r' =>
                      has_key id r = true ->
                      Review.comment r' = stored_comment c
                      /\ Review.updatedAt r' = clk 0%nat
                      /\ Review.rating r' = Review.rating r
                      /\ Review.title r' = Review.title r)
             (reviews d) (reviews d'))
    /\ (comment_accepted c = false ->
        status (fst (PUT clk id request d)) = 500 /\ d' = d)
    /\ (forall b : UpdateBody.t,
           UpdateBody.rating b = JUndefined ->
           items (snd (PUT clk id (Some b) d)) = items d).
Proof.
  intros clk id c d existing rest Hid Hf Hc request d'.
  assert (Hskip : forall b : UpdateBody.t,
             UpdateBody.rating b = JUndefined ->
             items (snd (PUT clk id (Some b) d)) = items d).
  { intros b Hb. rewrite PUT_eq, Hid, Hf.
    destruct (patch_rating_rejected b); [reflexivity|].
    destruct (patch_title_rejected b); [reflexivity|].
    destruct (patch_comment b); [|reflexivity].
    rewrite Hb. reflexivity. }
  rewrite <- and_assoc, <- and_assoc, <- and_assoc. split; [|exact Hskip].
  rewrite !and_assoc. clear Hskip.
  subst request d'. rewrite PUT_eq, Hid, Hf.
  unfold patch_rating_rejected, patch_title_rejected; simpl.
  assert (Hframe : forall r : Review.t, same_but_comment r r
                                         /\ (has_key id r = false -> r = r))
    by (intros r; repeat split).
  destruct (patch_comment (UpdateBody.mk JUndefined JUndefined c)) as [pc|] eqn:Ep.
  - assert (Hacc : comment_accepted c = true /\ pc = Some (stored_comment c)).
    { unfold patch_comment in Ep; simpl in Ep.
      destruct c as [| |cb|cx|cs|cl|]; try congruence; simpl in *.
      - inversion Ep; split; reflexivity.
      - destruct cb; [discriminate|]. inversion Ep; split; reflexivity.
      - destruct cx; try discriminate; inversion Ep; split; reflexivity.
      - destruct cs; inversion Ep; split; reflexivity. }
    destruct Hacc as [Hacc ->].
    simpl. split; [reflexivity|]. split; [|split].
    + apply Forall2_map_same. intros r.
      destruct (has_key id r); [|repeat split].
      split; [repeat split|intros; discriminate].
    + intros _. split; [reflexivity|].
      apply Forall2_map_same. intros r Hk. rewrite Hk.
      repeat split.
    + intros Hn. rewrite Hacc in Hn. discriminate.
  - assert (Hacc : comment_accepted c = false).
    { unfold patch_comment in Ep; simpl in Ep.
      destruct c as [| |cb|cx|cs|cl|]; try congruence; simpl in *;
        try reflexivity.
      - destruct cb; [reflexivity|discriminate].
      - destruct cx; try discriminate; reflexivity.
      - destruct cs; discriminate. }
    simpl. split; [reflexivity|]. split; [|split].
    + apply Forall2_refl, Hframe.
    + intros Hy. rewrite Hacc in Hy. discriminate.
    + intros _. split; reflexivity.
Qed.

Lemma put_comment_only_changes_comment_alone_witness :
  id_rejected (Some (str "1")) = false
  /\ filter (has_key (Some (str "1"))) (reviews two_reviews)
     = [sample_review]
  /\ JStr (str " fine ") <> JUndefined
  /\ items (snd (PUT sample_clock (Some (str "1"))
                   (Some (UpdateBody.mk JUndefined JUndefined
                            (JStr (str " fine ")))) two_reviews))
     = items two_reviews.
Proof.
  assert (H1 : id_rejected (Some (str "1")) = false) by (vm_compute; reflexivity).
  assert (H2 : filter (has_key (Some (str "1"))) (reviews two_reviews)
               = [sample_review]) by (vm_compute; reflexivity).
  assert (H3 : JStr (str " fine ") <> JUndefined) by discriminate.
  repeat (split; [assumption|]).
  destruct (put_comment_only_changes_comment_alone sample_clock (Some (str "1"))
              (JStr (str " fine ")) two_reviews sample_review [] H1 H2 H3)
    as [Hitems _].
  exact Hitems.
Defined.

(** * Listing reviews *)

(** C10. The [sort] parameter of GET has no effect: two requests that
    differ in [sort] alone get the same answer from the same store, and
    every list query that GET issues is ordered by [createdAt], ascending
    when [order] is 'asc' and descending otherwise. *)
Theorem GET_ignores_sort :
  forall (execute : select_query -> io (list Review.t)) (sp : search_params)
         (sort1 sort2 : option jsstring) (d : db),
    GET execute (with_sort sp sort1) d = GET execute (with_sort sp sort2) d
    /\ GET execute sp d = GET (ordered_by_createdAt (p_order sp) execute) sp d.
Proof.
  intros execute sp sort1 sort2 d. split.
  - unfold GET, with_sort, orderColumn; simpl.
    destruct (jsstring_eqb (nullish sort1 (str "createdAt")) (str "createdAt")),
             (jsstring_eqb (nullish sort2 (str "createdAt")) (str "createdAt"));
      reflexivity.
  - unfold GET, ordered_by_createdAt, orderBy, orderColumn; simpl.
    destruct (jsstring_eqb (nullish (p_sort sp) (str "createdAt")) (str "createdAt")),
             (jsstring_eqb (nullish (p_order sp) (str "desc")) (str "asc"));
      reflexivity.
Qed.

(** * Ratings that are not integers *)

(** C4 (a rating that is not an integer between 1 and 5 is rejected by
    Create and Update, and nothing is written) fails on the code for
    ratings that are not integers.  A POST with the rating 4.7 is
    answered 201 and stores the rating 4, and a PUT with the rating 4.7
    is answered 200 and stores 4: [parseInt] truncates where the message
    of the check asks for an integer. *)
Theorem fractional_rating_is_accepted :
  (let r := POST sample_clock
              (sample_create (digit 1) (JNum (Finite false 47 1))) sample_store in
   status (fst r) = 201
   /\ map Review.rating (reviews (snd r)) = [4]
   /\ map Item.totalReviews (items (snd r)) = [1])
  /\ (let r := PUT sample_clock (Some (str "2"))
                 (Some (UpdateBody.mk (JNum (Finite false 47 1)) JUndefined
                          JUndefined)) two_reviews in
      status (fst r) = 200
      /\ map Review.rating (reviews two_reviews) = [4; 2]
      /\ map Review.rating (reviews (snd r)) = [4; 4]).
Proof. vm_compute. repeat split; reflexivity. Qed.

(** * The range of the average *)

Lemma reviews_of_length (d : db) (i : Z) :
  (length (reviews_of d i) <= length (reviews d))%nat.
Proof. apply filter_length_le. Qed.

(** What recomputation writes for an item whose own ratings lie between
    1 and 5. *)
Lemma recomputed_average_in_range (now : jsstring) (i : Z) (d : db) (it : Item.t) :
  Forall rating_in_range (reviews_of d i) ->
  Z.of_nat (length (reviews_of d i)) < array_limit ->
  In it (items (recomputed now i d)) ->
  Item.id it = i ->
  average_in_range it
  /\ (Item.averageRating it = PrimFloat.zero <-> reviews_of d i = [])
  /\ (reviews_of d i <> [] -> float_in_1_5 (Item.averageRating it)).
Proof.
  intros Hr Hn Hin Hid.
  destruct (recomputed_item _ _ _ _ Hin Hid) as [Ha _].
  assert (Hri : Forall (fun z => 1 <= z <= 5) (map Review.rating (reviews_of d i)))
    by (apply Forall_map; exact Hr).
  unfold average_in_range. rewrite Ha.
  destruct (reviews_of d i) as [|r rs] eqn:Er.
  - simpl. split; [split; reflexivity|]. split; [split; reflexivity|].
    intros Hc. exfalso. apply Hc. reflexivity.
  - destruct (mean_in_range (map Review.rating (r :: rs))) as [H15 H05].
    + exact Hri.
    + discriminate.
    + rewrite length_map. exact Hn.
    + split; [exact H05|]. split; [|intros _; exact H15].
      split; [|discriminate].
      intros Hz. destruct H15 as [H1 _]. rewrite Hz in H1. discriminate.
Qed.

(** The rows of item [i] after a recomputation for item [j]. *)
Lemma recomputed_keeps_range (now : jsstring) (i j : Z) (d : db) :
  Forall rating_in_range (reviews_of d i) ->
  Z.of_nat (length (reviews_of d i)) < array_limit ->
  (forall it, In it (items d) -> Item.id it = i -> average_in_range it) ->
  forall it, In it (items (recomputed now j d)) -> Item.id it = i ->
    average_in_range it.
Proof.
  intros Hr Hn Ha it Hin Hid.
  destruct (Z.eq_dec j i) as [->|Hji].
  - apply (recomputed_average_in_range now i d it Hr Hn Hin Hid).
  - apply Ha; [|exact Hid].
    apply (recomputed_other now j); [exact Hin|]. rewrite Hid. auto.
Qed.

Lemma patch_rating_in_range (b : UpdateBody.t) :
  patch_rating_rejected b = false ->
  match patch_rating b with Some z => 1 <= z <= 5 | None => True end.
Proof.
  unfold patch_rating_rejected, patch_rating.
  destruct (is_undefined (UpdateBody.rating b)); simpl; [trivial|].
  destruct (parseInt (UpdateBody.rating b)) as [z|]; simpl; [|trivial].
  intros H. apply orb_false_iff in H as [H1 H2].
  apply Z.ltb_ge in H1, H2. lia.
Qed.

(** The reviews of an item after an insert, an update and a delete. *)
Lemma inserted_reviews_of (v : review_values) (d : db) (i : Z) :
  1 <= v_rating v <= 5 ->
  Forall rating_in_range (reviews_of d i) ->
  Forall rating_in_range (reviews_of (inserted v d) i)
  /\ (length (reviews_of (inserted v d) i) <= length (reviews_of d i) + 1)%nat.
Proof.
  intros Hv Hr. unfold reviews_of, inserted; simpl.
  rewrite filter_app, length_app. split.
  - apply Forall_app. split; [exact Hr|]. simpl.
    destruct (v_itemId v =? i); constructor; [exact Hv|constructor].
  - simpl. destruct (v_itemId v =? i); simpl; lia.
Qed.

Lemma updated_reviews_of (u : review_updates) (id : option jsstring) (d : db) (i : Z) :
  match u_rating u with Some z => 1 <= z <= 5 | None => True end ->
  Forall rating_in_range (reviews_of d i) ->
  Forall rating_in_range (reviews_of (updated u id d) i)
  /\ length (reviews_of (updated u id d) i) = length (reviews_of d i).
Proof.
  intros Hu. unfold reviews_of, updated; simpl.
  induction (reviews d) as [|r l IH]; simpl; intros Hr; [split; [constructor|reflexivity]|].
  assert (Hid : Review.itemId (if has_key id r then set_review u r else r)
                = Review.itemId r) by (destruct (has_key id r); reflexivity).
  rewrite Hid. destruct (Review.itemId r =? i).
  - inversion Hr as [|r0 l0 Hr0 Hl]; subst.
    destruct (IH Hl) as [IH1 IH2]. split; [|simpl; rewrite IH2; reflexivity].
    constructor; [|exact IH1].
    destruct (has_key id r); [|exact Hr0].
    unfold rating_in_range, set_review; simpl.
    destruct (u_rating u); [exact Hu|exact Hr0].
  - apply IH, Hr.
Qed.

Lemma deleted_reviews_of (id : option jsstring) (d : db) (i : Z) :
  Forall rating_in_range (reviews_of d i) ->
  Forall rating_in_range (reviews_of (deleted id d) i)
  /\ (length (reviews_of (deleted id d) i) <= length (reviews_of d i))%nat.
Proof.
  unfold reviews_of, deleted; simpl.
  induction (reviews d) as [|r l IH]; simpl; intros Hr; [split; [constructor|lia]|].
  destruct (has_key id r); simpl.
  - destruct (Review.itemId r =? i).
    + inversion Hr as [|r0 l0 Hr0 Hl]; subst.
      destruct (IH Hl) as [IH1 IH2]. split; [exact IH1|simpl; lia].
    + apply IH, Hr.
  - destruct (Review.itemId r =? i).
    + inversion Hr as [|r0 l0 Hr0 Hl]; subst.
      destruct (IH Hl) as [IH1 IH2]. split; [constructor; assumption|simpl; lia].
    + apply IH, Hr.
Qed.

(** Every handler keeps the ratings of an item's reviews between 1 and 5
    and the item's average between 0 and 5. *)
Lemma handle_keeps_range (q : request) (d : db) (i : Z) :
  Forall rating_in_range (reviews_of d i) ->
  Z.of_nat (length (reviews_of d i)) + 1 < array_limit ->
  (forall it, In it (items d) -> Item.id it = i -> average_in_range it) ->
  Forall rating_in_range (reviews_of (snd (handle q d)) i)
  /\ (forall it, In it (items (snd (handle q d))) -> Item.id it = i ->
        average_in_range it).
Proof.
  intros Hr Hn Ha. destruct q as [clk request|clk id request|clk id]; simpl handle.
  - destruct (POST_cases clk request d)
      as [[Hd _]|(b & v & _ & _ & _ & _ & Hv & _ & _ & _ & Heq)].
    + rewrite Hd. split; assumption.
    + rewrite Heq; simpl snd. rewrite recomputed_reviews_of.
      destruct (inserted_reviews_of v d i Hv Hr) as [Hr' Hl'].
      split; [exact Hr'|].
      apply recomputed_keeps_range; [exact Hr'|lia|exact Ha].
  - rewrite PUT_eq.
    destruct (id_rejected id); [split; assumption|].
    destruct request as [b|]; [|split; assumption].
    destruct (filter (has_key id) (reviews d)) as [|existing rest] eqn:Ef;
      [split; assumption|].
    destruct (patch_rating_rejected b) eqn:Epr; [split; assumption|].
    destruct (patch_title_rejected b); [split; assumption|].
    destruct (patch_comment b) as [c|]; [|split; assumption].
    simpl snd.
    destruct (updated_reviews_of (patch_updates clk b c) id d i
                (patch_rating_in_range b Epr) Hr) as [Hr' Hl'].
    destruct (is_undefined (UpdateBody.rating b)).
    + split; [exact Hr'|exact Ha].
    + rewrite recomputed_reviews_of. split; [exact Hr'|].
      apply recomputed_keeps_range; [exact Hr'|lia|exact Ha].
  - rewrite DELETE_eq.
    destruct (id_rejected id); [split; assumption|].
    destruct (filter (has_key id) (reviews d)) as [|existing rest] eqn:Ef;
      [split; assumption|].
    simpl snd. rewrite recomputed_reviews_of.
    destruct (deleted_reviews_of id d i Hr) as [Hr' Hl'].
    split; [exact Hr'|].
    apply recomputed_keeps_range; [exact Hr'|lia|exact Ha].
Qed.

(** C8. For an item whose own persisted reviews all have ratings between
    1 and 5, whatever the reviews of other items are: the [averageRating]
    that [updateItemRating] writes lies between 0 and 5, is 0 exactly when
    the item has no review and lies between 1 and 5 otherwise (the item's
    reviews fit a JavaScript array, which holds fewer than 2^32 elements);
    and every mutation handler, whichever review it touches, keeps the
    ratings of the item's reviews between 1 and 5 and the item's
    [averageRating] between 0 and 5 (with room for one more review). *)
Theorem average_stays_in_range :
  forall (d : db) (itemId : Z),
    Forall rating_in_range (reviews_of d itemId) ->
    (forall (now : jsstring) (it : Item.t),
        Z.of_nat (length (reviews_of d itemId)) < array_limit ->
        In it (items (snd (updateItemRating now itemId d))) ->
        Item.id it = itemId ->
        average_in_range it
        /\ (Item.averageRating it = PrimFloat.zero <-> reviews_of d itemId = [])
        /\ (reviews_of d itemId <> [] -> float_in_1_5 (Item.averageRating it)))
    /\ (forall q : request,
           Z.of_nat (length (reviews_of d itemId)) + 1 < array_limit ->
           (forall it, In it (items d) -> Item.id it = itemId ->
              average_in_range it) ->
           Forall rating_in_range (reviews_of (snd (handle q d)) itemId)
           /\ (forall it, In it (items (snd (handle q d))) ->
                 Item.id it = itemId -> average_in_range it)).
Proof.
  intros d itemId Hr. split.
  - intros now it Hn Hin Hid. rewrite updateItemRating_eq in Hin.
    apply (recomputed_average_in_range now itemId d it); assumption.
  - intros q Hn Ha. apply handle_keeps_range; assumption.
Qed.

Lemma average_stays_in_range_witness :
  Forall rating_in_range (reviews_of two_reviews 1)
  /\ (forall it,
        In it (items (snd (updateItemRating (sample_clock 0%nat) 1 two_reviews))) ->
        Item.id it = 1 ->
        float_in_1_5 (Item.averageRating it)).
Proof.
  assert (H1 : Forall rating_in_range (reviews_of two_reviews 1))
    by (repeat constructor; vm_compute; discriminate).
  split; [exact H1|].
  intros it Hin Hid.
  destruct (average_stays_in_range two_reviews 1 H1) as [HA _].
  assert (H2 : Z.of_nat (length (reviews_of two_reviews 1)) < array_limit)
    by (vm_compute; reflexivity).
  destruct (HA (sample_clock 0%nat) it H2 Hin Hid) as (_ & _ & H15).
  apply H15. vm_compute. discriminate.
Defined.

(** * Concurrent creates *)



(** ** Updating one request of the list *)







(** ** The steps of a five-star create *)




(** ** The invariant of the interleavings *)






(** ** Creates that run one after another *)





(** ** The sequential schedule *)












(** * The scenarios of the specification *)

(** Two creates, rated 4 and 2: the item goes from 0/0 to 4/1 to 3/2. *)
Example scenario_two_creates :
  map (fun d => map (fun it => (Item.averageRating it, Item.totalReviews it))
                 (items d))
    [sample_store; one_review; two_reviews]
  = [[(0%float, 0)]; [(4%float, 1)]; [(3%float, 2)]].
Proof. vm_compute. reflexivity. Qed.

(** Deleting the review rated 4, then the one rated 2: 2/1, then 0/0. *)
Example scenario_two_deletes :
  let d1 := snd (DELETE sample_clock (Some (str "1")) two_reviews) in
  let d2 := snd (DELETE sample_clock (Some (str "2")) d1) in
  map (fun d => map (fun it => (Item.averageRating it, Item.totalReviews it))
                 (items d)) [d1; d2]
  = [[(2%float, 1)]; [(0%float, 0)]]
  /\ reviews d2 = [].
Proof. vm_compute. split; reflexivity. Qed.

(** A create with rating 6 is rejected and changes nothing. *)
Example scenario_rating_6 :
  POST sample_clock (sample_create (digit 1) (digit 6)) two_reviews
  = (mkresponse (JsonError "Rating must be an integer between 1 and 5"
                   (Some "INVALID_RATING"%string)) 400, two_reviews).
Proof. vm_compute. reflexivity. Qed.

(** A rating whose [parseInt] is NaN or outside 1..5, and for POST a
    falsy one, is rejected before anything is written. *)
Lemma rejected_rating_writes_nothing (clk : nat -> jsstring) (d : db) :
  (forall b : CreateBody.t,
      rating_rejected b = true ->
      snd (POST clk (Some b) d) = d
      /\ status (fst (POST clk (Some b) d)) = 400
      /\ (itemId_rejected b = false -> userId_rejected b = false ->
          body (fst (POST clk (Some b) d))
          = JsonError "Rating must be an integer between 1 and 5"
              (Some "INVALID_RATING"%string)))
  /\ (forall (id : option jsstring) (b : UpdateBody.t),
         patch_rating_rejected b = true ->
         snd (PUT clk id (Some b) d) = d
         /\ (id_rejected id = false ->
             filter (has_key id) (reviews d) <> [] ->
             fst (PUT clk id (Some b) d)
             = mkresponse (JsonError "Rating must be an integer between 1 and 5"
                             (Some "INVALID_RATING"%string)) 400)).
Proof.
  split.
  - intros b Hr. rewrite POST_eq, Hr.
    destruct (itemId_rejected b); [repeat split; intros; discriminate|].
    destruct (userId_rejected b); [repeat split; intros; discriminate|].
    repeat split.
  - intros id b Hr. rewrite PUT_eq, Hr.
    destruct (id_rejected id); [split; [reflexivity|intros; discriminate]|].
    destruct (filter (has_key id) (reviews d));
      [split; [reflexivity|intros _ H; contradiction]|].
    split; reflexivity.
Qed.

(** * Further properties of the reviews route *)

(** ** [trim] and [parseInt] *)

#[local] Transparent parseInt trim.

Lemma trimStart_no_space (s : jsstring) :
  starts_with_space (trimStart s) = false.
Proof.
  induction s as [|c s IH]; simpl; [reflexivity|].
  destruct (isWhiteSpace c) eqn:E; [exact IH|simpl; exact E].
Qed.

Lemma trimStart_keeps_last (l : jsstring) (c : N) :
  isWhiteSpace c = false -> trimStart (l ++ [c]) = trimStart l ++ [c].
Proof.
  intros Hc. induction l as [|x l IH]; simpl.
  - rewrite Hc; reflexivity.
  - destruct (isWhiteSpace x); [exact IH|reflexivity].
Qed.

Lemma trim_is_trimmed (s : jsstring) : trimmed (trim s) = true.
Proof.
  unfold trimmed, trim, trimEnd.
  rewrite rev_involutive, trimStart_no_space, andb_true_r.
  pose proof (trimStart_no_space s) as H.
  destruct (trimStart s) as [|c t]; [reflexivity|].
  simpl in H. simpl rev.
  rewrite (trimStart_keeps_last _ _ H), rev_app_distr. simpl. rewrite H.
  reflexivity.
Qed.

Lemma digitValue_decimal (u : Decimal.uint) (c : N) (r : jsstring) :
  uint_digits u = c :: r ->
  isWhiteSpace c = false /\ c <> 45%N /\ c <> 43%N /\ c <> 120%N /\ c <> 88%N
  /\ exists v, digitValue 10 c = Some v /\ 0 <= v <= 9.
Proof.
  destruct u; simpl; intros H; inversion H; subst;
    (repeat split; try discriminate; try reflexivity; eexists;
     split; [reflexivity|lia]).
Qed.

Ltac eval_digit :=
  match goal with
  | |- context [digitValue 10 ?c] =>
      let v := eval vm_compute in (digitValue 10 c) in
      change (digitValue 10 c) with v; cbv iota
  end.

Lemma parseDigits_uint (u : Decimal.uint) (acc : positive) :
  parseDigits 10 (Some (Z.pos acc)) (uint_digits u)
  = Some (Z.pos (Pos.of_uint_acc u acc)).
Proof.
  revert acc. induction u; intros acc; cbn [uint_digits Pos.of_uint_acc];
    try reflexivity;
    rewrite <- IHu; cbn [parseDigits]; eval_digit; do 2 f_equal; lia.
Qed.

Lemma parseDigits_zeros (a : Z) (k : nat) :
  parseDigits 10 (Some a) (repeat 48%N k) = Some (a * 10 ^ Z.of_nat k).
Proof.
  revert a. induction k as [|k IH]; intros a.
  - simpl. f_equal. lia.
  - cbn [repeat parseDigits]. eval_digit.
    rewrite IH, Nat2Z.inj_succ, Z.pow_succ_r by lia. f_equal. lia.
Qed.

Lemma parseDigits_app_uint (u : Decimal.uint) (acc : positive) (rest : jsstring) :
  parseDigits 10 (Some (Z.pos acc)) (uint_digits u ++ rest)
  = parseDigits 10 (Some (Z.pos (Pos.of_uint_acc u acc))) rest.
Proof.
  revert acc. induction u; intros acc; cbn [uint_digits Pos.of_uint_acc app];
    try reflexivity;
    rewrite <- IHu; cbn [parseDigits]; eval_digit; do 2 f_equal; lia.
Qed.

Lemma parseDigits_zero_uint (u : Decimal.uint) (rest : jsstring) :
  parseDigits 10 (Some 0) (uint_digits u ++ rest)
  = parseDigits 10 (Some (Z.of_N (Pos.of_uint u))) rest.
Proof.
  induction u; cbn [uint_digits app Pos.of_uint]; try reflexivity;
    cbn [parseDigits Z.of_N]; eval_digit;
    try (rewrite <- parseDigits_app_uint; reflexivity).
  exact IHu.
Qed.

Lemma parseDigits_none_uint (u : Decimal.uint) (rest : jsstring) :
  u <> Decimal.Nil ->
  parseDigits 10 None (uint_digits u ++ rest)
  = parseDigits 10 (Some (Z.of_N (Pos.of_uint u))) rest.
Proof.
  intros Hu. destruct u; [congruence|..];
    cbn [uint_digits app Pos.of_uint]; cbn [parseDigits Z.of_N]; eval_digit;
    try (rewrite <- parseDigits_app_uint; reflexivity).
  apply parseDigits_zero_uint.
Qed.

(** The decimal digits of a positive integer, followed by zeros, read
    back as the integer times the power of ten. *)
Lemma parseDigits_digits (p : positive) (k : nat) :
  parseDigits 10 None (digits p ++ repeat 48%N k)
  = Some (Z.pos p * 10 ^ Z.of_nat k).
Proof.
  unfold digits.
  rewrite parseDigits_none_uint by apply DecimalPos.Unsigned.to_uint_nonnil.
  rewrite DecimalPos.Unsigned.of_to. apply parseDigits_zeros.
Qed.

Lemma parseInt_string_uint (u : Decimal.uint) (k : nat) :
  u <> Decimal.Nil ->
  parseInt_string (uint_digits u ++ repeat 48%N k)
  = parseDigits 10 None (uint_digits u ++ repeat 48%N k)
  /\ parseInt_string (45%N :: uint_digits u ++ repeat 48%N k)
     = match parseDigits 10 None (uint_digits u ++ repeat 48%N k) with
       | Some m => Some (- m)
       | None => None
       end.
Proof.
  intros Hu.
  assert (E1 : forall o : option Z,
             match o with Some m => Some (1 * m) | None => None end = o)
    by (intros [m|]; [f_equal; lia|reflexivity]).
  assert (E2 : forall o : option Z,
             match o with Some m => Some (-1 * m) | None => None end
             = match o with Some m => Some (- m) | None => None end)
    by (intros [m|]; [f_equal; lia|reflexivity]).
  destruct u as [|u|u|u|u|u|u|u|u|u|u]; [congruence|..];
    (destruct u; [destruct k|..]);
    (split; [rewrite <- E1|rewrite <- E2]; reflexivity).
Qed.

Lemma parseInt_string_digits (p : positive) (k : nat) :
  parseInt_string (digits p ++ repeat 48%N k) = Some (Z.pos p * 10 ^ Z.of_nat k)
  /\ parseInt_string (45%N :: digits p ++ repeat 48%N k)
     = Some (- (Z.pos p * 10 ^ Z.of_nat k)).
Proof.
  unfold digits.
  destruct (parseInt_string_uint (Pos.to_uint p) k
              (DecimalPos.Unsigned.to_uint_nonnil p)) as [H1 H2].
  rewrite H1, H2. fold (digits p). rewrite parseDigits_digits. split; reflexivity.
Qed.

Lemma digits_not_empty (p : positive) : digits p <> [].
Proof.
  unfold digits. pose proof (DecimalPos.Unsigned.to_uint_nonnil p) as H.
  destruct (Pos.to_uint p); [congruence|..]; discriminate.
Qed.

Lemma parseInt_key_param (id : Z) :
  0 < id ->
  param_truthy (key_param id) = true
  /\ parseInt_param (key_param id) = Some id.
Proof.
  intros Hid. unfold key_param, param_truthy, parseInt_param. split.
  - pose proof (digits_not_empty (Z.to_pos id)) as H.
    destruct (digits (Z.to_pos id)); [congruence|reflexivity].
  - destruct (parseInt_string_digits (Z.to_pos id) 0) as [H _].
    simpl repeat in H. rewrite app_nil_r in H. rewrite H.
    f_equal. rewrite Z2Pos.id by exact Hid. lia.
Qed.

(** [parseInt] reads a JSON number whose digits are all before the
    decimal point, and that Number::toString writes without an exponent
    (at most 21 digits), as exactly that integer. *)
Lemma parseInt_integer (neg : bool) (s : positive) (n : Z) :
  Z.of_nat (length (digits s)) <= n <= 21 ->
  parseInt (JNum (Finite neg s n)) = Some (integer_value neg s n).
Proof.
  intros [Hk Hn]. unfold parseInt, integer_value, signed. cbn [ToString Number_toString].
  apply Z.leb_le in Hk, Hn. rewrite Hk, Hn. cbn [andb].
  unfold zeros.
  destruct (parseInt_string_digits s
              (Z.to_nat (n - Z.of_nat (length (digits s))))) as [H1 H2].
  apply Z.leb_le in Hk.
  rewrite Z2Nat.id in H1, H2 by lia.
  destruct neg; cbn [minus_sign]; [exact H2|exact H1].
Qed.

Lemma trim_nil : trim [] = [].
Proof. reflexivity. Qed.

(** The number of decimal digits of a positive integer. *)
Lemma of_uint_acc_lower (u : Decimal.uint) (acc : positive) :
  Z.pos acc * 10 ^ Z.of_nat (length (uint_digits u))
  <= Z.pos (Pos.of_uint_acc u acc).
Proof.
  revert acc. induction u; intros acc;
    cbn [uint_digits Pos.of_uint_acc length];
    try (rewrite Z.pow_0_r; lia);
    rewrite Nat2Z.inj_succ, Z.pow_succ_r by lia;
    match goal with
    | |- _ <= Z.pos (Pos.of_uint_acc _ ?a) =>
        specialize (IHu a);
        assert (Ha : 10 * Z.pos acc <= Z.pos a) by lia
    end;
    assert (Hp : 0 < 10 ^ Z.of_nat (length (uint_digits u)))
      by (apply Z.pow_pos_nonneg; lia);
    nia.
Qed.

Lemma to_uint_leading (p : positive) (u : Decimal.uint) :
  Pos.to_uint p <> Decimal.D0 u.
Proof.
  intros E.
  pose proof (DecimalPos.Unsigned.to_of (Pos.to_uint p)) as H.
  rewrite DecimalPos.Unsigned.of_to in H. cbn [N.to_uint] in H.
  rewrite E in H. unfold Decimal.unorm in H. cbn [Decimal.nzhead] in H.
  destruct (Decimal.nzhead u) eqn:En;
    try (symmetry in H; rewrite <- En in H;
         exact (DecimalFacts.nzhead_nonzero u _ H)).
  injection H as Hu. subst u.
  exact (DecimalPos.Unsigned.to_uint_nonzero p E).
Qed.

Lemma digits_length_lower (p : positive) :
  10 ^ (Z.of_nat (length (digits p)) - 1) <= Z.pos p.
Proof.
  unfold digits.
  pose proof (DecimalPos.Unsigned.of_to p) as H.
  pose proof (to_uint_leading p) as Hl.
  pose proof (DecimalPos.Unsigned.to_uint_nonnil p) as Hn.
  destruct (Pos.to_uint p) as [|u|u|u|u|u|u|u|u|u|u];
    [congruence|exfalso; exact (Hl u eq_refl)|..];
    cbn [Pos.of_uint] in H; injection H as <-;
    cbn [uint_digits length]; rewrite Nat2Z.inj_succ;
    match goal with
    | |- _ <= Z.pos (Pos.of_uint_acc _ ?a) =>
        pose proof (of_uint_acc_lower u a) as Hb
    end;
    replace (Z.succ (Z.of_nat (length (uint_digits u))) - 1)
      with (Z.of_nat (length (uint_digits u))) by lia;
    assert (Hp : 0 < 10 ^ Z.of_nat (length (uint_digits u)))
      by (apply Z.pow_pos_nonneg; lia);
    nia.
Qed.

Lemma digits_length_21 (p : positive) :
  Z.pos p < 10 ^ 21 -> Z.of_nat (length (digits p)) <= 21.
Proof.
  intros Hp. pose proof (digits_length_lower p) as H.
  destruct (Z_le_gt_dec (Z.of_nat (length (digits p))) 21) as [Hle|Hgt];
    [exact Hle|exfalso].
  assert (Hm : 10 ^ 21 <= 10 ^ (Z.of_nat (length (digits p)) - 1))
    by (apply Z.pow_le_mono_r; lia).
  lia.
Qed.

(** An integer below 10^21 in magnitude goes through JSON and
    [parseInt] unchanged. *)
Lemma parseInt_json_number (z : Z) :
  z <> 0 -> Z.abs z < 10 ^ 21 -> parseInt (json_number (Some z)) = Some z.
Proof.
  intros Hz Hb. destruct z as [|p|p]; [congruence|..]; cbn [json_number];
    rewrite parseInt_integer
      by (split; [lia|apply digits_length_21; exact Hb]);
    unfold integer_value, signed; rewrite Z.sub_diag, Z.pow_0_r; f_equal; lia.
Qed.

(** ** [parseInt] on a number with a fractional part *)

Lemma is_digit_cases (c : N) :
  is_digit c = true ->
  (c = 48 \/ c = 49 \/ c = 50 \/ c = 51 \/ c = 52 \/ c = 53 \/ c = 54 \/ c = 55
   \/ c = 56 \/ c = 57)%N.
Proof.
  unfold is_digit. intros H. apply andb_true_iff in H as [H1 H2].
  apply N.leb_le in H1, H2. lia.
Qed.

Lemma uint_digits_are_digits (u : Decimal.uint) :
  forallb is_digit (uint_digits u) = true.
Proof. induction u; cbn [uint_digits forallb]; try reflexivity; exact IHu. Qed.

Lemma decimal_value_from (l : jsstring) (a : Z) :
  fold_left (fun a c => 10 * a + Z.of_N (c - 48)) l a
  = a * 10 ^ Z.of_nat (length l) + decimal_value l.
Proof.
  unfold decimal_value. revert a.
  induction l as [|c l IH]; intros a; cbn [fold_left length].
  - rewrite Z.pow_0_r. lia.
  - rewrite (IH (10 * a + Z.of_N (c - 48))), (IH (10 * 0 + Z.of_N (c - 48))).
    rewrite Nat2Z.inj_succ, Z.pow_succ_r by lia. ring.
Qed.

Lemma decimal_value_app (l1 l2 : jsstring) :
  decimal_value (l1 ++ l2)
  = decimal_value l1 * 10 ^ Z.of_nat (length l2) + decimal_value l2.
Proof.
  unfold decimal_value at 1. rewrite fold_left_app.
  fold (decimal_value l1). apply decimal_value_from.
Qed.

Lemma decimal_value_bounds (l : jsstring) :
  forallb is_digit l = true ->
  0 <= decimal_value l < 10 ^ Z.of_nat (length l).
Proof.
  induction l as [|c l IH] using rev_ind; intros H.
  - cbn. lia.
  - rewrite forallb_app in H. apply andb_true_iff in H as [H1 H2].
    cbn [forallb] in H2. rewrite andb_true_r in H2.
    specialize (IH H1). rewrite decimal_value_app, length_app.
    cbn [length]. rewrite Nat2Z.inj_add, Z.pow_add_r by lia.
    change (Z.of_nat 1) with 1. rewrite Z.pow_1_r.
    assert (Hc : 0 <= decimal_value [c] <= 9)
      by (destruct (is_digit_cases c H2) as [->|[->|[->|[->|[->|[->|[->|[->|[->| ->]]]]]]]]];
          cbn; lia).
    lia.
Qed.

(** A run of digits is read as its value. *)
Lemma parseDigits_run (l rest : jsstring) (a : Z) :
  forallb is_digit l = true ->
  parseDigits 10 (Some a) (l ++ rest)
  = parseDigits 10 (Some (a * 10 ^ Z.of_nat (length l) + decimal_value l)) rest.
Proof.
  revert a. induction l as [|c l IH]; intros a H.
  - cbn [app length]. rewrite Z.pow_0_r. f_equal. f_equal. cbn. lia.
  - cbn [forallb] in H. apply andb_true_iff in H as [Hc Hl].
    cbn [app parseDigits].
    assert (Hd : digitValue 10 c = Some (Z.of_N (c - 48)))
      by (destruct (is_digit_cases c Hc) as [->|[->|[->|[->|[->|[->|[->|[->|[->| ->]]]]]]]]];
          reflexivity).
    rewrite Hd, (IH _ Hl). f_equal. f_equal.
    cbn [length]. rewrite Nat2Z.inj_succ, Z.pow_succ_r by lia.
    change (c :: l) with ([c] ++ l). rewrite decimal_value_app.
    change (decimal_value [c]) with (10 * 0 + Z.of_N (c - 48)). ring.
Qed.

Lemma parseDigits_first (c x : N) (l rest : jsstring) :
  is_digit c = true ->
  forallb is_digit l = true ->
  digitValue 10 x = None ->
  parseDigits 10 None (c :: l ++ x :: rest) = Some (decimal_value (c :: l)).
Proof.
  intros Hc Hl Hx. cbn [parseDigits].
  assert (Hd : digitValue 10 c = Some (Z.of_N (c - 48)))
    by (destruct (is_digit_cases c Hc) as [->|[->|[->|[->|[->|[->|[->|[->|[->| ->]]]]]]]]];
        reflexivity).
  rewrite Hd, (parseDigits_run l _ _ Hl). cbn [parseDigits].
  rewrite Hx. f_equal.
  change (c :: l) with ([c] ++ l). rewrite decimal_value_app.
  change (decimal_value [c]) with (10 * 0 + Z.of_N (c - 48)). ring.
Qed.

(** A string that starts with a digit, followed by a digit, a point or
    the letter e, has no sign and no radix prefix. *)
Lemma parseInt_string_unsigned (c c2 : N) (rest : jsstring) :
  is_digit c = true ->
  is_digit c2 = true \/ c2 = 46%N \/ c2 = 101%N ->
  parseInt_string (c :: c2 :: rest) = parseDigits 10 None (c :: c2 :: rest)
  /\ parseInt_string (45%N :: c :: c2 :: rest)
     = match parseDigits 10 None (c :: c2 :: rest) with
       | Some m => Some (- m)
       | None => None
       end.
Proof.
  intros Hc Hc2.
  assert (E1 : forall o : option Z,
             match o with Some m => Some (1 * m) | None => None end = o)
    by (intros [m|]; [f_equal; lia|reflexivity]).
  assert (E2 : forall o : option Z,
             match o with Some m => Some (-1 * m) | None => None end
             = match o with Some m => Some (- m) | None => None end)
    by (intros [m|]; [f_equal; lia|reflexivity]).
  destruct (is_digit_cases c Hc) as [->|[->|[->|[->|[->|[->|[->|[->|[->| ->]]]]]]]]];
    (destruct Hc2 as [Hc2|[->| ->]];
     [destruct (is_digit_cases c2 Hc2)
        as [->|[->|[->|[->|[->|[->|[->|[->|[->| ->]]]]]]]]]| |]);
    (split; [rewrite <- E1|rewrite <- E2]; reflexivity).
Qed.

Lemma decimal_value_digits (p : positive) : decimal_value (digits p) = Z.pos p.
Proof.
  pose proof (parseDigits_digits p 0) as H.
  cbn [repeat] in H. rewrite app_nil_r, Z.pow_0_r, Z.mul_1_r in H.
  unfold digits in *.
  pose proof (uint_digits_are_digits (Pos.to_uint p)) as Hd.
  pose proof (DecimalPos.Unsigned.to_uint_nonnil p) as Hn.
  destruct (uint_digits (Pos.to_uint p)) as [|c l] eqn:E.
  - destruct (Pos.to_uint p); [congruence|..]; discriminate E.
  - cbn [forallb] in Hd. apply andb_true_iff in Hd as [Hc Hl].
    cbn [parseDigits] in H.
    assert (Hv : digitValue 10 c = Some (Z.of_N (c - 48)))
      by (destruct (is_digit_cases c Hc) as [->|[->|[->|[->|[->|[->|[->|[->|[->| ->]]]]]]]]];
          reflexivity).
    rewrite Hv in H.
    rewrite <- (app_nil_r l) in H. rewrite (parseDigits_run l [] _ Hl) in H.
    cbn [parseDigits] in H. injection H as H. rewrite <- H.
    change (c :: l) with ([c] ++ l). rewrite decimal_value_app.
    change (decimal_value [c]) with (10 * 0 + Z.of_N (c - 48)). ring.
Qed.

(** The value of the first [m] digits of a number. *)
Lemma decimal_value_firstn (s : positive) (m : nat) :
  (m <= length (digits s))%nat ->
  decimal_value (firstn m (digits s))
  = Z.pos s / 10 ^ (Z.of_nat (length (digits s)) - Z.of_nat m).
Proof.
  intros Hm.
  pose proof (uint_digits_are_digits (Pos.to_uint s)) as Hd.
  fold (digits s) in Hd.
  pose proof (firstn_skipn m (digits s)) as Hsplit.
  assert (Hlen2 : Z.of_nat (length (skipn m (digits s)))
                  = Z.of_nat (length (digits s)) - Z.of_nat m)
    by (rewrite length_skipn; lia).
  rewrite <- Hsplit, forallb_app in Hd. apply andb_true_iff in Hd as [_ Hd2].
  pose proof (decimal_value_digits s) as Hv.
  rewrite <- Hsplit, decimal_value_app, Hlen2 in Hv.
  pose proof (decimal_value_bounds _ Hd2) as Hb. rewrite Hlen2 in Hb.
  apply (Z.div_unique _ _ _ (decimal_value (skipn m (digits s))));
    [left; exact Hb|]. rewrite <- Hv. ring.
Qed.

(** What [parseInt] reads of a run of digits that a point or the letter
    e ends, with or without a minus sign before it. *)
Lemma parseInt_string_prefix (neg : bool) (l : jsstring) (x : N) (tail : jsstring) :
  l <> [] ->
  forallb is_digit l = true ->
  x = 46%N \/ x = 101%N ->
  parseInt_string (minus_sign neg ++ l ++ x :: tail)
  = Some (signed neg (decimal_value l)).
Proof.
  intros Hne Hd Hx. destruct l as [|c l]; [congruence|].
  cbn [forallb] in Hd. apply andb_true_iff in Hd as [Hc Hl].
  assert (Hx0 : digitValue 10 x = None) by (destruct Hx as [->| ->]; reflexivity).
  assert (Hc2 : exists c2 rest,
             l ++ x :: tail = c2 :: rest
             /\ (is_digit c2 = true \/ c2 = 46%N \/ c2 = 101%N)).
  { destruct l as [|c2 l'].
    - eexists _, _. split; [reflexivity|right; exact Hx].
    - cbn [forallb] in Hl. apply andb_true_iff in Hl as [Hc2 _].
      eexists _, _. split; [reflexivity|left; exact Hc2]. }
  destruct Hc2 as (c2 & rest & Ec2 & Hc2).
  destruct (parseInt_string_unsigned c c2 rest Hc Hc2) as [P1 P2].
  pose proof (parseDigits_first c x l tail Hc Hl Hx0) as Hp.
  cbn [app]. rewrite Ec2 in *. unfold signed.
  destruct neg; cbn [minus_sign app]; [change (str "-") with [45%N]; cbn [app]|];
    rewrite ?P1, ?P2, Hp; reflexivity.
Qed.

Lemma digits_are_digits (s : positive) : forallb is_digit (digits s) = true.
Proof. apply uint_digits_are_digits. Qed.

Lemma firstn_digits (s : positive) (m : nat) :
  forallb is_digit (firstn m (digits s)) = true.
Proof.
  pose proof (digits_are_digits s) as Hd.
  rewrite <- (firstn_skipn m (digits s)), forallb_app in Hd.
  apply andb_true_iff in Hd as [Hd _]. exact Hd.
Qed.

Lemma firstn_not_empty (s : positive) (m : nat) :
  (0 < m)%nat -> firstn m (digits s) <> [].
Proof.
  intros Hm. pose proof (digits_not_empty s) as Hne.
  destruct m as [|m]; [lia|]. destruct (digits s); [congruence|discriminate].
Qed.

(** [parseInt] reads a JSON number that Number::toString writes with a
    decimal point after its [n]-th digit as the integer before the
    point: the number truncated towards zero. *)
Lemma parseInt_fraction (neg : bool) (s : positive) (n : Z) :
  0 < n <= 21 ->
  n < Z.of_nat (length (digits s)) ->
  parseInt (JNum (Finite neg s n)) = Some (truncated_value neg s n).
Proof.
  intros [Hn0 Hn21] Hnk. unfold parseInt, truncated_value.
  cbn [ToString Number_toString].
  replace (Z.of_nat (length (digits s)) <=? n) with false
    by (symmetry; apply Z.leb_gt; exact Hnk).
  replace (0 <? n) with true by (symmetry; apply Z.ltb_lt; exact Hn0).
  replace (n <=? 21) with true by (symmetry; apply Z.leb_le; exact Hn21).
  cbn [andb]. change (str ".") with [46%N]. cbn [app].
  rewrite parseInt_string_prefix;
    [|apply firstn_not_empty; lia|apply firstn_digits|left; reflexivity].
  rewrite decimal_value_firstn by lia. rewrite Z2Nat.id by lia. reflexivity.
Qed.

(** A number below 1 in magnitude that Number::toString writes without
    an exponent is read as 0. *)
Lemma parseInt_small (neg : bool) (s : positive) (n : Z) :
  -6 < n <= 0 ->
  parseInt (JNum (Finite neg s n)) = Some 0.
Proof.
  intros [Hn6 Hn0]. unfold parseInt. cbn [ToString Number_toString].
  pose proof (digits_not_empty s) as Hne.
  assert (Hk : 0 < Z.of_nat (length (digits s)))
    by (destruct (digits s); [congruence|cbn [length]; lia]).
  replace (Z.of_nat (length (digits s)) <=? n) with false
    by (symmetry; apply Z.leb_gt; lia).
  replace (0 <? n) with false by (symmetry; apply Z.ltb_ge; exact Hn0).
  replace (-6 <? n) with true by (symmetry; apply Z.ltb_lt; exact Hn6).
  replace (n <=? 0) with true by (symmetry; apply Z.leb_le; exact Hn0).
  cbn [andb]. change (str "0.") with ([48%N] ++ [46%N]).
  rewrite <- app_assoc. cbn [app].
  change (48%N :: 46%N :: zeros (- n) ++ digits s)
    with ([48%N] ++ 46%N :: zeros (- n) ++ digits s).
  rewrite parseInt_string_prefix;
    [|discriminate|reflexivity|left; reflexivity].
  destruct neg; reflexivity.
Qed.

(** A number that Number::toString writes in exponent notation is read
    as its first digit. *)
Lemma parseInt_exponent (neg : bool) (s : positive) (n : Z) :
  n <= -6 \/ 21 < n ->
  parseInt (JNum (Finite neg s n)) = Some (signed neg (leading_digit s)).
Proof.
  intros Hn. unfold parseInt, leading_digit. cbn [ToString Number_toString].
  pose proof (digits_not_empty s) as Hne.
  assert (Hk : 0 < Z.of_nat (length (digits s)))
    by (destruct (digits s); [congruence|cbn [length]; lia]).
  replace ((Z.of_nat (length (digits s)) <=? n) && (n <=? 21)) with false
    by (symmetry; apply andb_false_iff;
        destruct Hn; [left; apply Z.leb_gt|right; apply Z.leb_gt]; lia).
  replace ((0 <? n) && (n <=? 21)) with false
    by (symmetry; apply andb_false_iff;
        destruct Hn; [left; apply Z.ltb_ge|right; apply Z.leb_gt]; lia).
  replace ((-6 <? n) && (n <=? 0)) with false
    by (symmetry; apply andb_false_iff;
        destruct Hn; [left; apply Z.ltb_ge|right; apply Z.leb_gt]; lia).
  cbv zeta.
  destruct (Z.of_nat (length (digits s)) =? 1) eqn:Ek.
  - apply Z.eqb_eq in Ek. change (str "e") with [101%N]. cbn [app].
    rewrite parseInt_string_prefix;
      [|exact Hne|apply digits_are_digits|right; reflexivity].
    rewrite decimal_value_digits, Ek, Z.sub_diag, Z.pow_0_r, Z.div_1_r.
    reflexivity.
  - apply Z.eqb_neq in Ek. change (str ".") with [46%N]. cbn [app].
    rewrite parseInt_string_prefix;
      [|apply firstn_not_empty; lia|apply firstn_digits|left; reflexivity].
    rewrite decimal_value_firstn by lia. reflexivity.
Qed.

(** [parseInt] on a JSON number, in full. *)
Lemma parseInt_number (x : number) : parseInt (JNum x) = integer_read x.
Proof.
  destruct x as [|neg|neg|neg s n]; [reflexivity|destruct neg; reflexivity
                                     |reflexivity|].
  unfold integer_read.
  destruct ((Z.of_nat (length (digits s)) <=? n) && (n <=? 21)) eqn:E1.
  { apply andb_true_iff in E1 as [H1 H2]. apply Z.leb_le in H1, H2.
    apply parseInt_integer. lia. }
  destruct ((0 <? n) && (n <=? 21)) eqn:E2.
  { apply andb_true_iff in E2 as [H1 H2]. apply Z.ltb_lt in H1.
    apply Z.leb_le in H2. apply andb_false_iff in E1.
    apply parseInt_fraction; [lia|].
    destruct E1 as [E1|E1]; [apply Z.leb_gt in E1; exact E1|].
    apply Z.leb_gt in E1. lia. }
  destruct ((-6 <? n) && (n <=? 0)) eqn:E3.
  { apply andb_true_iff in E3 as [H1 H2]. apply Z.ltb_lt in H1.
    apply Z.leb_le in H2. apply parseInt_small. lia. }
  apply parseInt_exponent.
  apply andb_false_iff in E2, E3.
  destruct E2 as [E2|E2], E3 as [E3|E3];
    rewrite ?Z.ltb_ge, ?Z.leb_gt in E2, E3; lia.
Qed.

#[local] Opaque parseInt trim.

(** ** What a create leaves *)

Lemma trim_not_empty (s : jsstring) :
  trim_is_empty (JStr s) = false -> trim s <> [].
Proof. unfold trim_is_empty. destruct (trim s); [discriminate|discriminate]. Qed.

(** A POST answered 201, in full. *)
Lemma POST_created (clk : nat -> jsstring) (request : option CreateBody.t) (d : db) :
  status (fst (POST clk request d)) = 201 ->
  exists b zi zr su st,
    request = Some b
    /\ create_validated b = true
    /\ parseInt (CreateBody.itemId b) = Some zi
    /\ parseInt (CreateBody.rating b) = Some zr
    /\ 1 <= zr <= 5
    /\ CreateBody.userId b = JStr su /\ trim su <> []
    /\ CreateBody.title b = JStr st /\ trim st <> []
    /\ (exists it, In it (items d) /\ Item.id it = zi)
    /\ POST clk request d
       = (mkresponse
            (JsonReview
               (Review.mk (next_rowid d) zi (trim su) zr (trim st)
                  (stored_comment (CreateBody.comment b)) (clk 0%nat) (clk 1%nat)))
            201,
          recomputed (clk 2%nat) zi
            (inserted (mkvalues zi (trim su) zr (trim st)
                         (stored_comment (CreateBody.comment b))
                         (clk 0%nat) (clk 1%nat)) d)).
Proof.
  intros H201.
  destruct request as [b|]; [|discriminate H201].
  rewrite POST_eq in H201. rewrite POST_eq.
  destruct (itemId_rejected b) eqn:E1; [discriminate|].
  destruct (userId_rejected b) eqn:E2; [discriminate|].
  destruct (rating_rejected b) eqn:E3; [discriminate|].
  destruct (title_rejected b) eqn:E4; [discriminate|].
  assert (Hval : create_validated b = true)
    by (unfold create_validated; rewrite E1, E2, E3, E4; reflexivity).
  destruct (create_validated_inv b Hval) as (zi & zr & su & st & Pi & Pr & Hr & Eu & Et).
  destruct (filter _ (items d)) as [|it1 l1] eqn:Ef; [discriminate|].
  assert (Hitem : exists it, In it (items d) /\ Item.id it = zi).
  { assert (Hin : In it1 (filter (fun i => eq_num (Item.id i)
                                          (parseInt (CreateBody.itemId b))) (items d)))
      by (rewrite Ef; left; reflexivity).
    apply filter_In in Hin as [Hin Heq]. exists it1. split; [exact Hin|].
    rewrite Pi in Heq. apply Z.eqb_eq, Heq. }
  assert (Hsu : trim su <> []).
  { apply trim_not_empty. unfold userId_rejected in E2. rewrite Eu in E2.
    apply orb_false_iff in E2 as [_ E2]. exact E2. }
  assert (Hst : trim st <> []).
  { apply trim_not_empty. unfold title_rejected in E4. rewrite Et in E4.
    apply orb_false_iff in E4 as [_ E4]. exact E4. }
  exists b, zi, zr, su, st.
  repeat (split; [first [reflexivity|assumption]|]).
  revert H201. rewrite Pi, Pr, Eu, Et.
  unfold handler, bind, to_integer, call_trim, ret.
  destruct (CreateBody.comment b) as [| |cb|cx|cs|cl|] eqn:Ec; simpl;
    try (intros _; reflexivity); try discriminate.
  - destruct cb; simpl; [discriminate|intros _; reflexivity].
  - destruct cx as [| |ng|ng s n]; simpl; try discriminate; intros _; reflexivity.
  - destruct cs; simpl; intros _; reflexivity.
Qed.

Lemma next_rowid_fresh (d : db) :
  reviews_seq d < next_rowid d
  /\ forall r, In r (reviews d) -> Review.id r < next_rowid d.
Proof.
  destruct (fold_left_max_ge (map Review.id (reviews d)) (reviews_seq d)) as [H1 H2].
  unfold next_rowid. split; [lia|].
  intros r Hr. specialize (H2 _ (in_map Review.id _ _ Hr)). lia.
Qed.

(** X1. Every request to the reviews route is answered 200, 201, 400,
    404 or 500, and one that is not answered 200 or 201 leaves the store
    exactly as it was.  (The statements sent to the database do not fail
    in this embedding; a 500 comes from the handler's own code: a body
    that is not JSON, or [trim] called on a comment that is not a
    string.) *)
Theorem refusal_changes_nothing (q : request) (d : db) :
  status (fst (handle q d)) = 200 \/ status (fst (handle q d)) = 201
  \/ ((status (fst (handle q d)) = 400 \/ status (fst (handle q d)) = 404
       \/ status (fst (handle q d)) = 500)
      /\ snd (handle q d) = d).
Proof.
  destruct q as [clk b|clk id b|clk id]; simpl.
  - destruct (POST_cases clk b d) as [[Hd Hs]|(b0 & v & _ & _ & _ & _ & _ & _ & _ & _ & E)].
    + right; right; split; assumption.
    + rewrite E; right; left; reflexivity.
  - rewrite PUT_eq.
    destruct (id_rejected id); [right; right; split; [left|]; reflexivity|].
    destruct b as [b|]; [|right; right; split; [right; right|]; reflexivity].
    destruct (filter (has_key id) (reviews d));
      [right; right; split; [right; left|]; reflexivity|].
    destruct (patch_rating_rejected b);
      [right; right; split; [left|]; reflexivity|].
    destruct (patch_title_rejected b);
      [right; right; split; [left|]; reflexivity|].
    destruct (patch_comment b);
      [left; reflexivity|right; right; split; [right; right|]; reflexivity].
  - rewrite DELETE_eq.
    destruct (id_rejected id); [right; right; split; [left|]; reflexivity|].
    destruct (filter (has_key id) (reviews d));
      [right; right; split; [right; left|]; reflexivity|].
    left; reflexivity.
Qed.

(** X2. A create answered 201 appends exactly one row to the reviews and
    returns it.  The row's key is larger than every key in the table and
    than every key handed out before; it refers to a stored item, its
    rating is between 1 and 5, and its two timestamps are the two clock
    readings of the request.  The user and the title of the body are
    strings that [trim] leaves non-empty, and the row carries them
    trimmed, and the trimmed comment or null, where the driver keeps the
    text: a text without NUL and without a lone surrogate.  No item is
    added or removed. *)
Theorem create_appends_fresh_row (clk : nat -> jsstring)
  (request : option CreateBody.t) (d : db) :
  status (fst (POST clk request d)) = 201 ->
  exists b row su st,
    request = Some b
    /\ body (fst (POST clk request d)) = JsonReview row
    /\ reviews (snd (POST clk request d)) = reviews d ++ [row]
    /\ reviews_seq (snd (POST clk request d)) = Review.id row
    /\ reviews_seq d < Review.id row
    /\ (forall r, In r (reviews d) -> Review.id r < Review.id row)
    /\ (exists it, In it (items d) /\ Item.id it = Review.itemId row)
    /\ parseInt (CreateBody.itemId b) = Some (Review.itemId row)
    /\ parseInt (CreateBody.rating b) = Some (Review.rating row)
    /\ 1 <= Review.rating row <= 5
    /\ CreateBody.userId b = JStr su /\ trim su <> []
    /\ kept (trim su) (Review.userId row)
    /\ CreateBody.title b = JStr st /\ trim st <> []
    /\ kept (trim st) (Review.title row)
    /\ kept_comment (stored_comment (CreateBody.comment b)) (Review.comment row)
    /\ Review.createdAt row = clk 0%nat /\ Review.updatedAt row = clk 1%nat
    /\ map Item.id (items (snd (POST clk request d))) = map Item.id (items d).
Proof.
  intros H201.
  destruct (POST_created clk request d H201)
    as (b & zi & zr & su & st & -> & _ & Pi & Pr & Hr & Eu & Hsu & Et & Hst & Hit & E).
  rewrite E. destruct (next_rowid_fresh d) as [F1 F2].
  exists b. eexists. exists su, st. cbn [fst snd body].
  split; [reflexivity|]. split; [reflexivity|]. split; [reflexivity|].
  split; [reflexivity|]. split; [exact F1|]. split; [exact F2|].
  split; [exact Hit|]. split; [exact Pi|]. split; [exact Pr|].
  split; [exact Hr|]. split; [exact Eu|]. split; [exact Hsu|].
  split; [intros _; reflexivity|]. split; [exact Et|]. split; [exact Hst|].
  split; [intros _; reflexivity|].
  split; [cbn [Review.comment]; unfold kept_comment;
          destruct (stored_comment (CreateBody.comment b)); [intros _|];
          reflexivity|].
  split; [reflexivity|]. split; [reflexivity|].
  unfold recomputed; cbn [items]. rewrite map_map.
  apply map_ext. intros it. destruct (Item.id it =? zi); reflexivity.
Qed.

Lemma create_appends_fresh_row_witness :
  exists row,
    body (fst (POST sample_clock (sample_create (digit 1) (digit 4)) sample_store))
    = JsonReview row
    /\ Review.id row = 1 /\ Review.title row = str "Good".
Proof.
  destruct (create_appends_fresh_row sample_clock
              (sample_create (digit 1) (digit 4)) sample_store)
    as (b & row & su & st & Eb & Ebody & _ & _ & _ & _ & _ & _ & _ & _ & _ & _ & _
        & Et & _ & Kt & _); [reflexivity|].
  exists row. split; [exact Ebody|].
  injection Eb as <-. cbn [CreateBody.title] in Et. injection Et as <-.
  split; [|apply Kt; vm_compute; reflexivity].
  vm_compute in Ebody. injection Ebody as <-. reflexivity.
Defined.

(** ** GET *)

(** GET with a non-empty [id]. *)
Lemma GET_by_id (execute : select_query -> io (list Review.t))
  (sp : search_params) (d : db) :
  param_truthy (p_id sp) = true ->
  GET execute sp d =
  if isNaN (parseInt_param (p_id sp)) then
    (mkresponse (JsonError "Valid ID is required" (Some "INVALID_ID"%string)) 400, d)
  else
    match filter (has_key (p_id sp)) (reviews d) with
    | [] => (mkresponse (JsonError "Review not found" None) 404, d)
    | r :: _ => (mkresponse (JsonReview r) 200, d)
    end.
Proof.
  intros Ht. unfold GET, handler. rewrite Ht. cbn [negb orb].
  destruct (isNaN (parseInt_param (p_id sp))); [reflexivity|].
  change (fun r => eq_num (Review.id r) (parseInt_param (p_id sp)))
    with (has_key (p_id sp)).
  rewrite (bind_inl (select_reviews (has_key (p_id sp))) _ d d _ eq_refl).
  destruct (filter (has_key (p_id sp)) (reviews d)); reflexivity.
Qed.

Lemma id_accepted (id : option jsstring) :
  id_rejected id = false ->
  param_truthy id = true /\ isNaN (parseInt_param id) = false.
Proof.
  unfold id_rejected. intros H. apply orb_false_iff in H as [H1 H2].
  apply negb_false_iff in H1. split; assumption.
Qed.

(** X3. A review that a create returned can be fetched: GET with the
    returned key answers 200 with the same row, and changes nothing.
    Keys start at 1, so the sequence is taken as not negative. *)
Theorem created_review_is_found (execute : select_query -> io (list Review.t))
  (clk : nat -> jsstring) (request : option CreateBody.t) (d : db)
  (sp : search_params) :
  0 <= reviews_seq d ->
  status (fst (POST clk request d)) = 201 ->
  exists row,
    body (fst (POST clk request d)) = JsonReview row
    /\ (p_id sp = key_param (Review.id row) ->
        GET execute sp (snd (POST clk request d))
        = (mkresponse (JsonReview row) 200, snd (POST clk request d))).
Proof.
  intros Hseq H201.
  destruct (POST_created clk request d H201)
    as (b & zi & zr & su & st & -> & _ & Pi & Pr & Hr & Eu & Hsu & Et & Hst & Hit & E).
  rewrite E. cbn [fst snd body]. eexists. split; [reflexivity|].
  destruct (next_rowid_fresh d) as [F1 F2].
  cbn [Review.id]. intros Hid.
  destruct (parseInt_key_param (next_rowid d) ltac:(lia)) as [Kt Kp].
  rewrite GET_by_id by (rewrite Hid; exact Kt).
  rewrite Hid, Kp. cbn [isNaN].
  unfold recomputed, inserted, insert_review; cbn [reviews snd].
  rewrite filter_app.
  assert (Hnone : filter (has_key (key_param (next_rowid d))) (reviews d) = []).
  { apply filter_nil_iff. intros r Hr'. unfold has_key, eq_num. rewrite Kp.
    apply Z.eqb_neq. specialize (F2 r Hr'). lia. }
  rewrite Hnone. cbn [filter app].
  unfold has_key, eq_num at 1. rewrite Kp. cbn [Review.id].
  rewrite Z.eqb_refl. reflexivity.
Qed.

Lemma created_review_is_found_witness :
  exists row,
    body (fst (POST sample_clock (sample_create (digit 1) (digit 4)) sample_store))
    = JsonReview row
    /\ GET all_rows (by_id (Some (str "1")))
         (snd (POST sample_clock (sample_create (digit 1) (digit 4)) sample_store))
       = (mkresponse (JsonReview row) 200,
          snd (POST sample_clock (sample_create (digit 1) (digit 4)) sample_store)).
Proof.
  destruct (created_review_is_found all_rows sample_clock
              (sample_create (digit 1) (digit 4)) sample_store
              (by_id (Some (str "1"))))
    as (row & Ebody & Hget); [vm_compute; discriminate|reflexivity|].
  exists row. split; [exact Ebody|]. apply Hget.
  vm_compute in Ebody. injection Ebody as <-. reflexivity.
Defined.

(** ** DELETE *)

Lemma filter_negb_none {A} (p : A -> bool) (l : list A) :
  filter p (filter (fun x => negb (p x)) l) = [].
Proof.
  apply filter_nil_iff. intros x Hx. apply filter_In in Hx as [_ Hx].
  apply negb_true_iff, Hx.
Qed.

(** X4. After a delete answered 200 no row with the key is left while
    every other row is kept, in order; a second delete with the same
    key, an update with it and a fetch with it are answered 404 and
    change nothing. *)
Theorem deleted_review_is_gone (execute : select_query -> io (list Review.t))
  (clk clk' : nat -> jsstring) (id : option jsstring) (d : db) :
  status (fst (DELETE clk id d)) = 200 ->
  reviews (snd (DELETE clk id d))
  = filter (fun r => negb (has_key id r)) (reviews d)
  /\ DELETE clk' id (snd (DELETE clk id d))
     = (mkresponse (JsonError "Review not found" None) 404, snd (DELETE clk id d))
  /\ (forall b, PUT clk' id (Some b) (snd (DELETE clk id d))
                = (mkresponse (JsonError "Review not found" None) 404,
                   snd (DELETE clk id d)))
  /\ (forall sp, p_id sp = id ->
        GET execute sp (snd (DELETE clk id d))
        = (mkresponse (JsonError "Review not found" None) 404,
           snd (DELETE clk id d))).
Proof.
  intros H200. rewrite DELETE_eq in H200. rewrite DELETE_eq.
  destruct (id_rejected id) eqn:E0; [discriminate|].
  destruct (filter (has_key id) (reviews d)) as [|existing rest] eqn:Ef;
    [discriminate|].
  cbn [snd].
  set (d' := recomputed (clk 0%nat) (Review.itemId existing) (deleted id d)).
  assert (Hr : reviews d' = filter (fun r => negb (has_key id r)) (reviews d))
    by reflexivity.
  assert (Hnone : filter (has_key id) (reviews d') = [])
    by (rewrite Hr; apply filter_negb_none).
  split; [exact Hr|]. split; [|split].
  - rewrite DELETE_eq, E0, Hnone. reflexivity.
  - intros b. rewrite PUT_eq, E0, Hnone. reflexivity.
  - intros sp <-. destruct (id_accepted _ E0) as [Ht Hn].
    rewrite GET_by_id by exact Ht. rewrite Hn, Hnone. reflexivity.
Qed.

Lemma deleted_review_is_gone_witness :
  reviews (snd (DELETE sample_clock (Some (str "1")) two_reviews))
  = filter (fun r => negb (has_key (Some (str "1")) r)) (reviews two_reviews)
  /\ DELETE sample_clock (Some (str "1"))
       (snd (DELETE sample_clock (Some (str "1")) two_reviews))
     = (mkresponse (JsonError "Review not found" None) 404,
        snd (DELETE sample_clock (Some (str "1")) two_reviews)).
Proof.
  destruct (deleted_review_is_gone all_rows sample_clock sample_clock
              (Some (str "1")) two_reviews) as (H1 & H2 & _); [reflexivity|].
  split; [exact H1|exact H2].
Defined.

(** ** PUT *)

Lemma set_review_identity (u : review_updates) (r : Review.t) :
  same_identity r (set_review u r).
Proof. repeat split. Qed.

Lemma put_relates_updated (u : review_updates) (id : option jsstring)
  (rows : list Review.t) :
  Forall2 (put_relates id) rows
    (map (fun r => if has_key id r then set_review u r else r) rows).
Proof.
  apply Forall2_map_same. intros r. unfold put_relates.
  destruct (has_key id r).
  - split; [apply set_review_identity|discriminate].
  - split; [repeat split|reflexivity].
Qed.

Lemma put_relates_refl (id : option jsstring) (rows : list Review.t) :
  Forall2 (put_relates id) rows rows.
Proof. apply Forall2_refl. intros r. split; [repeat split|reflexivity]. Qed.

Lemma recomputed_item_keys (now : jsstring) (i : Z) (d : db) :
  map Item.id (items (recomputed now i d)) = map Item.id (items d).
Proof.
  unfold recomputed; cbn [items]. rewrite map_map.
  apply map_ext. intros it. destruct (Item.id it =? i); reflexivity.
Qed.

(** X5. Whatever the request and however it is answered, an update keeps
    the number and the order of the reviews, keeps the key, item, user
    and creation time of every review, leaves every review that the key
    does not select exactly as it was, hands out no key, and adds or
    removes no item. *)
Theorem update_keeps_identity_columns (clk : nat -> jsstring)
  (id : option jsstring) (request : option UpdateBody.t) (d : db) :
  Forall2 (put_relates id) (reviews d) (reviews (snd (PUT clk id request d)))
  /\ reviews_seq (snd (PUT clk id request d)) = reviews_seq d
  /\ map Item.id (items (snd (PUT clk id request d))) = map Item.id (items d).
Proof.
  rewrite PUT_eq.
  destruct (id_rejected id);
    [split; [apply put_relates_refl|split; reflexivity]|].
  destruct request as [b|]; [|split; [apply put_relates_refl|split; reflexivity]].
  destruct (filter (has_key id) (reviews d)) as [|existing rest];
    [split; [apply put_relates_refl|split; reflexivity]|].
  destruct (patch_rating_rejected b);
    [split; [apply put_relates_refl|split; reflexivity]|].
  destruct (patch_title_rejected b);
    [split; [apply put_relates_refl|split; reflexivity]|].
  destruct (patch_comment b) as [c|];
    [|split; [apply put_relates_refl|split; reflexivity]].
  cbv zeta. cbn [snd].
  destruct (is_undefined (UpdateBody.rating b)).
  - split; [apply (put_relates_updated (patch_updates clk b c))
           |split; reflexivity].
  - split; [apply (put_relates_updated (patch_updates clk b c))
           |split; [reflexivity|]].
    rewrite recomputed_item_keys. reflexivity.
Qed.

(** X6. A review that an update returned can be fetched: after a PUT
    answered 200, GET with the same key answers 200 with the row that
    the PUT returned. *)
Theorem updated_review_is_found (execute : select_query -> io (list Review.t))
  (clk : nat -> jsstring) (id : option jsstring)
  (request : option UpdateBody.t) (d : db) (sp : search_params) :
  status (fst (PUT clk id request d)) = 200 ->
  p_id sp = id ->
  exists row,
    body (fst (PUT clk id request d)) = JsonReview row
    /\ GET execute sp (snd (PUT clk id request d))
       = (mkresponse (JsonReview row) 200, snd (PUT clk id request d)).
Proof.
  intros H200 <-. rewrite PUT_eq in H200. rewrite PUT_eq.
  destruct (id_rejected (p_id sp)) eqn:E0; [discriminate|].
  destruct request as [b|]; [|discriminate].
  destruct (filter (has_key (p_id sp)) (reviews d)) as [|existing rest] eqn:Ef;
    [discriminate|].
  destruct (patch_rating_rejected b); [discriminate|].
  destruct (patch_title_rejected b); [discriminate|].
  destruct (patch_comment b) as [c|]; [|discriminate].
  cbv zeta. cbn [fst snd body]. eexists. split; [reflexivity|].
  destruct (id_accepted _ E0) as [Ht Hn].
  rewrite GET_by_id by exact Ht. rewrite Hn.
  assert (Hf : forall d', reviews d' = reviews (updated (patch_updates clk b c) (p_id sp) d) ->
             filter (has_key (p_id sp)) (reviews d')
             = set_review (patch_updates clk b c) existing
               :: map (fun r => if has_key (p_id sp) r
                                then set_review (patch_updates clk b c) r else r)
                    rest).
  { intros d' ->. unfold updated, update_reviews; cbn [snd reviews].
    rewrite filter_map_if by (intros; reflexivity).
    rewrite Ef. cbn [map].
    assert (Hk : has_key (p_id sp) existing = true).
    { assert (Hin : In existing (filter (has_key (p_id sp)) (reviews d)))
        by (rewrite Ef; left; reflexivity).
      apply filter_In in Hin as [_ Hk]. exact Hk. }
    rewrite Hk. reflexivity. }
  destruct (is_undefined (UpdateBody.rating b));
    rewrite Hf by reflexivity; reflexivity.
Qed.

Lemma updated_review_is_found_witness :
  exists row,
    body (fst (PUT sample_clock (Some (str "1")) sample_patch one_review))
    = JsonReview row
    /\ Review.rating row = 5 /\ Review.title row = str "Better"
    /\ Review.comment row = None
    /\ GET all_rows (by_id (Some (str "1")))
         (snd (PUT sample_clock (Some (str "1")) sample_patch one_review))
       = (mkresponse (JsonReview row) 200,
          snd (PUT sample_clock (Some (str "1")) sample_patch one_review)).
Proof.
  destruct (updated_review_is_found all_rows sample_clock (Some (str "1"))
              sample_patch one_review (by_id (Some (str "1"))))
    as (row & Ebody & Hget); [reflexivity|reflexivity|].
  exists row. split; [exact Ebody|].
  vm_compute in Ebody. injection Ebody as <-.
  split; [reflexivity|split; [reflexivity|split; [reflexivity|exact Hget]]].
Defined.

(** ** What the three mutations keep *)

(** No mutation of a review adds or removes an item. *)
Lemma handle_item_keys (q : request) (d : db) :
  map Item.id (items (snd (handle q d))) = map Item.id (items d).
Proof.
  destruct q as [clk b|clk id b|clk id]; simpl.
  - destruct (POST_cases clk b d) as [[Hd _]|(b0 & v & _ & _ & _ & _ & _ & _ & _ & _ & E)].
    + rewrite Hd; reflexivity.
    + rewrite E. cbn [snd]. rewrite recomputed_item_keys. reflexivity.
  - rewrite PUT_eq.
    destruct (id_rejected id); [reflexivity|].
    destruct b as [b|]; [|reflexivity].
    destruct (filter (has_key id) (reviews d)); [reflexivity|].
    destruct (patch_rating_rejected b); [reflexivity|].
    destruct (patch_title_rejected b); [reflexivity|].
    destruct (patch_comment b); [|reflexivity].
    cbv zeta. cbn [snd].
    destruct (is_undefined (UpdateBody.rating b)); [reflexivity|].
    rewrite recomputed_item_keys. reflexivity.
  - rewrite DELETE_eq.
    destruct (id_rejected id); [reflexivity|].
    destruct (filter (has_key id) (reviews d)); [reflexivity|].
    cbn [snd]. rewrite recomputed_item_keys. reflexivity.
Qed.

Lemma patch_title_ok (b : UpdateBody.t) :
  patch_title_rejected b = false ->
  match patch_title b with
  | Some t => t <> [] /\ trimmed t = true
  | None => True
  end.
Proof.
  unfold patch_title_rejected, patch_title.
  destruct (UpdateBody.title b) as [| | | |s| |]; try (intros _; exact I).
  cbn [is_undefined negb typeof_string andb orb]. intros H.
  split; [apply trim_not_empty, H|apply trim_is_trimmed].
Qed.

Lemma patch_comment_ok (b : UpdateBody.t) (c : option (option jsstring)) :
  patch_comment b = Some c ->
  match c with
  | Some (Some t) => trimmed t = true
  | _ => True
  end.
Proof.
  unfold patch_comment.
  destruct (UpdateBody.comment b) as [| |[|]|[| | |]|[|]| |]; cbn;
    try discriminate;
    intros [= <-]; first [exact I|apply trim_is_trimmed].
Qed.

Lemma stored_comment_ok (c : jsval) :
  match stored_comment c with
  | Some t => trimmed t = true
  | None => True
  end.
Proof.
  destruct c as [| | | |s| |]; try exact I.
  destruct s; [exact I|]. apply trim_is_trimmed.
Qed.

(** Where the item of a review comes from: after a request every review
    carries the item of a review from before it, or the key of a stored
    item. *)
Lemma handle_review_items (q : request) (d : db) (r' : Review.t) :
  In r' (reviews (snd (handle q d))) ->
  (exists r, In r (reviews d) /\ Review.itemId r = Review.itemId r')
  \/ (exists it, In it (items d) /\ Item.id it = Review.itemId r').
Proof.
  intros Hr'.
  assert (Hold : In r' (reviews d) ->
            (exists r, In r (reviews d) /\ Review.itemId r = Review.itemId r')
            \/ (exists it, In it (items d) /\ Item.id it = Review.itemId r'))
    by (intros H; left; exists r'; split; [exact H|reflexivity]).
  destruct q as [clk b|clk id b|clk id]; simpl in Hr'.
  - destruct (POST_cases clk b d) as [[Hd _]|(b0 & v & _ & _ & _ & _ & _ & _ & _ & Hit & E)].
    + rewrite Hd in Hr'. apply Hold, Hr'.
    + rewrite E in Hr'. cbn [snd] in Hr'.
      unfold recomputed, inserted, insert_review in Hr'. cbn [snd reviews] in Hr'.
      apply in_app_or in Hr' as [Hr'|[<-|[]]]; [apply Hold, Hr'|right; exact Hit].
  - rewrite PUT_eq in Hr'.
    destruct (id_rejected id); [apply Hold, Hr'|].
    destruct b as [b|]; [|apply Hold, Hr'].
    destruct (filter (has_key id) (reviews d)); [apply Hold, Hr'|].
    destruct (patch_rating_rejected b); [apply Hold, Hr'|].
    destruct (patch_title_rejected b); [apply Hold, Hr'|].
    destruct (patch_comment b) as [c|]; [|apply Hold, Hr'].
    cbv zeta in Hr'. cbn [snd] in Hr'.
    assert (Hin : In r' (map (fun r => if has_key id r
                                       then set_review (patch_updates clk b c) r
                                       else r) (reviews d)))
      by (destruct (is_undefined (UpdateBody.rating b)); exact Hr').
    apply in_map_iff in Hin as (r & <- & Hr).
    left. exists r. split; [exact Hr|]. destruct (has_key id r); reflexivity.
  - rewrite DELETE_eq in Hr'.
    destruct (id_rejected id); [apply Hold, Hr'|].
    destruct (filter (has_key id) (reviews d)); [apply Hold, Hr'|].
    cbn [snd] in Hr'. unfold recomputed, deleted, delete_reviews in Hr'.
    cbn [snd reviews] in Hr'. apply filter_In in Hr' as [Hr' _].
    apply Hold, Hr'.
Qed.

Lemma item_keys_transfer (l l' : list Item.t) (i : Z) :
  map Item.id l' = map Item.id l ->
  (exists it, In it l /\ Item.id it = i) ->
  exists it, In it l' /\ Item.id it = i.
Proof.
  intros Hk (it & Hin & Hid).
  assert (Hi : In i (map Item.id l'))
    by (rewrite Hk, <- Hid; apply in_map, Hin).
  apply in_map_iff in Hi as (it' & Hid' & Hin'). exists it'. split; assumption.
Qed.

(** X7. The reviews route keeps every reference resolved: if each review
    refers to a stored item before a request, each does after it. *)
Theorem reviews_route_keeps_references (q : request) (d : db) :
  references_resolve d -> references_resolve (snd (handle q d)).
Proof.
  intros Href r' Hr'.
  apply (item_keys_transfer (items d)); [apply handle_item_keys|].
  destruct (handle_review_items q d r' Hr') as [(r & Hr & <-)|Hit];
    [apply Href, Hr|exact Hit].
Qed.

Lemma reviews_route_keeps_references_witness :
  references_resolve
    (snd (handle (Create sample_clock (sample_create (digit 1) (digit 4)))
            sample_store)).
Proof.
  apply (reviews_route_keeps_references
           (Create sample_clock (sample_create (digit 1) (digit 4))) sample_store).
  intros r [].
Defined.

(** X8. The reviews route keeps the text columns clean, for text that
    the driver keeps: if no stored review has an empty or padded user or
    title, or a padded comment, before a request whose user, title and
    comment hold, once trimmed, no NUL and no lone surrogate, none has
    after it.  (The driver cuts a text at a NUL, so a title that starts
    with one passes the check and is stored empty.) *)
Theorem stored_text_stays_trimmed (q : request) (d : db) :
  Forall review_text_ok (reviews d) ->
  request_storable q = true ->
  Forall review_text_ok (reviews (snd (handle q d))).
Proof.
  intros Hok _.
  destruct q as [clk request|clk id request|clk id]; simpl.
  - destruct (POST_cases clk request d) as [[Hd _]|_]; [rewrite Hd; exact Hok|].
    destruct (status (fst (POST clk request d)) =? 201) eqn:E201.
    + apply Z.eqb_eq in E201.
      destruct (POST_created clk request d E201)
        as (b & zi & zr & su & st & -> & _ & _ & _ & _ & _ & Hsu & _ & Hst & _ & E).
      rewrite E. cbn [snd]. unfold recomputed, inserted, insert_review.
      cbn [snd reviews]. apply Forall_app. split; [exact Hok|].
      constructor; [|constructor]. unfold review_text_ok. cbn.
      repeat split; try assumption; try apply trim_is_trimmed.
      apply stored_comment_ok.
    + destruct (POST_cases clk request d)
        as [[Hd _]|(b0 & v & _ & _ & _ & _ & _ & _ & _ & _ & E)];
        [rewrite Hd; exact Hok|].
      rewrite E in E201. discriminate.
  - rewrite PUT_eq.
    destruct (id_rejected id); [exact Hok|].
    destruct request as [b|]; [|exact Hok].
    destruct (filter (has_key id) (reviews d)); [exact Hok|].
    destruct (patch_rating_rejected b); [exact Hok|].
    destruct (patch_title_rejected b) eqn:Et; [exact Hok|].
    destruct (patch_comment b) as [c|] eqn:Ec; [|exact Hok].
    cbv zeta. cbn [snd].
    assert (G : Forall review_text_ok
                  (map (fun r => if has_key id r
                                 then set_review (patch_updates clk b c) r
                                 else r) (reviews d))).
    { apply Forall_forall. intros r' Hin.
      apply in_map_iff in Hin as (r & <- & Hr).
      rewrite Forall_forall in Hok. specialize (Hok r Hr).
      destruct (has_key id r); [|exact Hok].
      destruct Hok as (U1 & U2 & T1 & T2 & C).
      pose proof (patch_title_ok b Et) as Ht.
      pose proof (patch_comment_ok b c Ec) as Hc.
      unfold review_text_ok, set_review, patch_updates. cbn.
      destruct (patch_title b) as [nt|];
        destruct c as [[nc|]|]; repeat split; try tauto. }
    destruct (is_undefined (UpdateBody.rating b)); exact G.
  - rewrite DELETE_eq.
    destruct (id_rejected id); [exact Hok|].
    destruct (filter (has_key id) (reviews d)); [exact Hok|].
    cbn [snd]. unfold recomputed, deleted, delete_reviews. cbn [snd reviews].
    apply Forall_forall. intros r Hr. apply filter_In in Hr as [Hr _].
    rewrite Forall_forall in Hok. apply Hok, Hr.
Qed.

Lemma stored_text_stays_trimmed_witness :
  Forall review_text_ok
    (reviews (snd (handle (Create sample_clock (sample_create (digit 1) (digit 4)))
                     sample_store))).
Proof.
  apply (stored_text_stays_trimmed
           (Create sample_clock (sample_create (digit 1) (digit 4))) sample_store).
  - constructor.
  - vm_compute. reflexivity.
Defined.

(** ** The recomputation *)

Lemma set_item_rating_twice (a1 a2 : float) (t1 t2 : Z) (n1 n2 : jsstring)
  (it : Item.t) :
  set_item_rating a2 t2 n2 (set_item_rating a1 t1 n1 it)
  = set_item_rating a2 t2 n2 it.
Proof. reflexivity. Qed.

(** A second recomputation absorbs the first. *)
Lemma recomputed_absorbs (now1 now2 : jsstring) (i : Z) (d : db) :
  recomputed now2 i (recomputed now1 i d) = recomputed now2 i d.
Proof.
  unfold recomputed at 1 3. cbn [items reviews reviews_seq].
  rewrite recomputed_reviews_of. f_equal.
  unfold recomputed. cbn [items]. rewrite map_map. apply map_ext. intros it.
  destruct (Item.id it =? i) eqn:E; cbn [set_item_rating Item.id]; rewrite E;
    reflexivity.
Qed.

(** X9. Running [updateItemRating] again for the same item overwrites
    the first run completely: the store after two runs is the store
    after the second alone, so a repeated run is harmless.  Each run
    returns normally. *)
Theorem recompute_twice_is_once (now1 now2 : jsstring) (i : Z) (d : db) :
  updateItemRating now2 i (snd (updateItemRating now1 i d))
  = updateItemRating now2 i d.
Proof.
  rewrite !updateItemRating_eq. cbn [snd]. f_equal.
  apply recomputed_absorbs.
Qed.

(** X10. Recomputations for two different items commute: they write
    disjoint rows of [items] and read only [reviews]. *)
Theorem recompute_distinct_items_commute (now1 now2 : jsstring) (i j : Z)
  (d : db) :
  i <> j ->
  snd (updateItemRating now2 j (snd (updateItemRating now1 i d)))
  = snd (updateItemRating now1 i (snd (updateItemRating now2 j d))).
Proof.
  intros Hij. rewrite !updateItemRating_eq. cbn [snd].
  unfold recomputed at 1 3. cbn [items reviews reviews_seq].
  rewrite !recomputed_reviews_of. f_equal.
  unfold recomputed. cbn [items]. rewrite !map_map. apply map_ext. intros it.
  destruct (Item.id it =? i) eqn:Ei; destruct (Item.id it =? j) eqn:Ej;
    cbn [set_item_rating Item.id]; rewrite ?Ei, ?Ej; try reflexivity.
  apply Z.eqb_eq in Ei, Ej. congruence.
Qed.

Lemma recompute_distinct_items_commute_witness :
  snd (updateItemRating (str "b") 2 (snd (updateItemRating (str "a") 1 two_reviews)))
  = snd (updateItemRating (str "a") 1 (snd (updateItemRating (str "b") 2 two_reviews))).
Proof.
  apply (recompute_distinct_items_commute (str "a") (str "b") 1 2 two_reviews).
  discriminate.
Defined.

(** ** GET, continued *)



(** What the list branch of GET hands to the engine as the limit. *)
Lemma GET_limit (check : (select_query -> io (list Review.t)) ->
                         select_query -> io (list Review.t))
  (execute : select_query -> io (list Review.t)) (sp : search_params) (d : db) :
  (forall w s o,
      check execute
        (mkquery w s
           (Math_min_100 (parseInt_string (nullish (p_limit sp) (str "10")))) o)
      = execute
          (mkquery w s
             (Math_min_100 (parseInt_string (nullish (p_limit sp) (str "10")))) o)) ->
  GET (check execute) sp d = GET execute sp d.
Proof.
  intros E. unfold GET, handler.
  destruct (param_truthy (p_id sp)); [reflexivity|].
  destruct (param_truthy (p_itemId sp)).
  - destruct (isNaN (parseInt_param (p_itemId sp))); [reflexivity|].
    unfold bind. destruct (to_integer (parseInt_param (p_itemId sp)) d) as [[w|e] d1];
      [|reflexivity].
    rewrite E. reflexivity.
  - unfold bind. rewrite E. reflexivity.
Qed.

(** X12. The limit that GET hands to the list engine is capped from
    above only.  It is never above 100: an engine that refuses a larger
    limit serves every request as the plain engine does.  It is not
    bounded below: a limit that [parseInt] reads as at most 100, a
    negative one too, is handed on as it is, so an engine that refuses
    every other limit serves the request as the plain engine does.  (A
    database that reads a negative limit as no limit can then return
    more than 100 rows.) *)
Theorem get_caps_limit_from_above_only
  (execute : select_query -> io (list Review.t)) (sp : search_params) (d : db) :
  GET (at_most_100 execute) sp d = GET execute sp d
  /\ forall z : Z,
       parseInt_string (nullish (p_limit sp) (str "10")) = Some z ->
       z <= 100 ->
       GET (handed_limit z execute) sp d = GET execute sp d.
Proof.
  split.
  - apply (GET_limit at_most_100). intros w s o.
    unfold at_most_100. cbn [q_limit].
    destruct (parseInt_string (nullish (p_limit sp) (str "10"))) as [z|];
      cbn [Math_min_100]; [|reflexivity].
    replace (Z.min z 100 <=? 100) with true; [reflexivity|].
    symmetry. apply Z.leb_le. lia.
  - intros z Hz Hle. apply (GET_limit (handed_limit z)). intros w s o.
    unfold handed_limit. cbn [q_limit]. rewrite Hz. cbn [Math_min_100].
    replace (Z.min z 100 =? z) with true; [reflexivity|].
    symmetry. apply Z.eqb_eq. lia.
Qed.

Lemma get_caps_limit_from_above_only_witness :
  parseInt_string (str "-1") = Some (-1)
  /\ GET (handed_limit (-1) all_rows)
       (mkparams None None (Some (str "-1")) None None None) two_reviews
     = GET all_rows (mkparams None None (Some (str "-1")) None None None)
         two_reviews.
Proof.
  split; [reflexivity|].
  destruct (get_caps_limit_from_above_only all_rows
              (mkparams None None (Some (str "-1")) None None None) two_reviews)
    as [_ H].
  apply H; [reflexivity|lia].
Defined.

(** X15. GET writes nothing: with an engine that only reads, the store
    after any GET is the store before it. *)
Theorem get_writes_nothing (execute : select_query -> io (list Review.t))
  (sp : search_params) (d : db) :
  read_only execute -> snd (GET execute sp d) = d.
Proof.
  intros Hro. unfold GET, handler.
  destruct (param_truthy (p_id sp)) eqn:Ht.
  - cbn [negb orb].
    destruct (isNaN (parseInt_param (p_id sp))); [reflexivity|].
    unfold bind, select_reviews.
    destruct (limit1 _); reflexivity.
  - assert (F : forall q, snd (match bind (execute q)
                                       (fun results =>
                                          NextResponse_json (JsonReviews results) 200) d
                               with
                               | (inl r, d') => (r, d')
                               | (inr e, d') =>
                                   (mkresponse (JsonServerError e) 500, d')
                               end) = d).
    { intros q. unfold bind. specialize (Hro q d).
      destruct (execute q d) as [[l|e] d1]; cbn in *; exact Hro. }
    destruct (param_truthy (p_itemId sp)).
    + destruct (isNaN (parseInt_param (p_itemId sp))); [reflexivity|].
      destruct (parseInt_param (p_itemId sp)) as [w|]; [|reflexivity].
      unfold to_integer. rewrite (bind_inl (ret w) _ d d w eq_refl). apply F.
    + apply F.
Qed.

Lemma get_writes_nothing_witness :
  snd (GET all_rows (mkparams None (Some (str "1")) None None None None)
         two_reviews) = two_reviews.
Proof.
  apply (get_writes_nothing all_rows). intros q d. reflexivity.
Defined.

(** ** The rating check on numbers *)

(** What POST does once [itemId] and [userId] are accepted: the rating
    check decides between INVALID_RATING and the rest of the handler. *)
Lemma rating_decides (clk : nat -> jsstring) (b : CreateBody.t) (d : db) :
  itemId_rejected b = false ->
  userId_rejected b = false ->
  (rating_rejected b = true ->
   POST clk (Some b) d
   = (mkresponse (JsonError "Rating must be an integer between 1 and 5"
                    (Some "INVALID_RATING"%string)) 400, d))
  /\ (rating_rejected b = false ->
      body (fst (POST clk (Some b) d))
      <> JsonError "Rating must be an integer between 1 and 5"
           (Some "INVALID_RATING"%string)
      /\ (status (fst (POST clk (Some b) d)) = 201 ->
          exists row,
            body (fst (POST clk (Some b) d)) = JsonReview row
            /\ parseInt (CreateBody.rating b) = Some (Review.rating row))).
Proof.
  intros Hi Hu. split; intros Hr.
  - rewrite POST_eq, Hi, Hu, Hr. reflexivity.
  - split.
    + rewrite POST_eq, Hi, Hu, Hr.
      destruct (title_rejected b) eqn:Ht; [cbn; discriminate|].
      destruct (filter _ (items d)); [cbn; discriminate|].
      assert (Hval : create_validated b = true)
        by (unfold create_validated; rewrite Hi, Hu, Hr, Ht; reflexivity).
      destruct (create_validated_inv b Hval)
        as (zi & zr & su & st & Pi & Pr & _ & Eu & Et).
      rewrite Pi, Pr, Eu, Et.
      unfold handler, bind, to_integer, call_trim, ret.
      destruct (CreateBody.comment b) as [| |[|]|[| | |]|[|]| |]; cbn;
        discriminate.
    + intros H201.
      destruct (POST_created clk (Some b) d H201)
        as (b0 & zi & zr & su & st & [= <-] & _ & _ & Pr & _ & _ & _ & _ & _ & _ & E).
      rewrite E. cbn [fst body]. eexists. split; [reflexivity|].
      cbn [Review.rating]. exact Pr.
Qed.

(** The rating check on a JSON number. *)
Lemma rating_rejected_number (b : CreateBody.t) (x : number) :
  rating_rejected (with_rating b (JNum x)) = negb (rating_passes (integer_read x)).
Proof.
  unfold rating_rejected, with_rating. cbn [CreateBody.rating].
  rewrite parseInt_number.
  destruct x as [|neg|neg|neg s n]; try reflexivity.
  cbn [truthy negb orb].
  destruct (integer_read (Finite neg s n)) as [z|]; [|reflexivity].
  cbn [isNaN num_lt num_gt rating_passes orb].
  destruct (Z.ltb_spec z 1), (Z.ltb_spec 5 z), (Z.leb_spec 1 z), (Z.leb_spec z 5);
    try reflexivity; lia.
Qed.

Lemma integer_number_read (x : number) (z : Z) :
  integer_number x = Some z -> integer_read x = Some z.
Proof.
  destruct x as [|neg|neg|neg s n]; cbn [integer_number integer_read];
    try discriminate; [intros H; exact H|].
  destruct ((Z.of_nat (length (digits s)) <=? n) && (n <=? 21));
    [intros H; exact H|discriminate].
Qed.

(** X13. On a rating that is an integer (the JSON number 0, or one with
    at most 21 digits, all before the decimal point) the check of POST
    is exact.  With [itemId] and [userId] accepted, and no object in
    [itemId], on which [parseInt] could throw before the rating is
    looked at: an integer outside 1..5, 0 among them, is answered 400
    INVALID_RATING and nothing is written; an integer in 1..5 is never
    answered INVALID_RATING, and if the create succeeds the stored
    rating is that integer. *)
Theorem integer_rating_checked_exactly (clk : nat -> jsstring)
  (b : CreateBody.t) (x : number) (z : Z) (d : db) :
  integer_number x = Some z ->
  object_free (CreateBody.itemId b) = true ->
  itemId_rejected b = false ->
  userId_rejected b = false ->
  (z < 1 \/ 5 < z ->
   POST clk (Some (with_rating b (JNum x))) d
   = (mkresponse (JsonError "Rating must be an integer between 1 and 5"
                    (Some "INVALID_RATING"%string)) 400, d))
  /\ (1 <= z <= 5 ->
      body (fst (POST clk (Some (with_rating b (JNum x))) d))
      <> JsonError "Rating must be an integer between 1 and 5"
           (Some "INVALID_RATING"%string)
      /\ (status (fst (POST clk (Some (with_rating b (JNum x))) d)) = 201 ->
          exists row,
            body (fst (POST clk (Some (with_rating b (JNum x))) d))
            = JsonReview row
            /\ Review.rating row = z)).
Proof.
  intros Hx _ Hi Hu. apply integer_number_read in Hx.
  pose proof (rating_rejected_number b x) as Hr. rewrite Hx in Hr.
  cbn [rating_passes] in Hr.
  destruct (rating_decides clk (with_rating b (JNum x)) d Hi Hu) as [Hrej Hacc].
  split; intros Hz.
  - apply Hrej. rewrite Hr. apply negb_true_iff, andb_false_iff.
    destruct Hz; [left|right]; apply Z.leb_gt; assumption.
  - destruct Hacc as [Hne H201].
    { rewrite Hr. apply negb_false_iff, andb_true_iff.
      split; apply Z.leb_le; lia. }
    split; [exact Hne|]. intros Hs. destruct (H201 Hs) as (row & Eb & Pr).
    exists row. split; [exact Eb|].
    cbn [with_rating CreateBody.rating] in Pr.
    rewrite parseInt_number, Hx in Pr. congruence.
Qed.

Lemma integer_rating_checked_exactly_witness :
  POST sample_clock
    (Some (with_rating
             (CreateBody.mk (digit 1) (JStr (str "user-1")) JUndefined
                (JStr (str "Good")) JUndefined)
             (JNum (Zero false)))) sample_store
  = (mkresponse (JsonError "Rating must be an integer between 1 and 5"
                   (Some "INVALID_RATING"%string)) 400, sample_store).
Proof.
  destruct (integer_rating_checked_exactly sample_clock
              (CreateBody.mk (digit 1) (JStr (str "user-1")) JUndefined
                 (JStr (str "Good")) JUndefined)
              (Zero false) 0 sample_store) as [H _];
    [reflexivity|reflexivity|reflexivity|reflexivity|].
  apply H. left. lia.
Defined.

(** X28. A rating that is a JSON number is checked as [parseInt] reads
    its decimal string, whatever the number.  That reading is the number
    truncated towards zero when its magnitude is at least 10^-6 and
    below 10^21, and the first digit, with the sign, when the string is
    in exponent notation (0.0000005 is written 5e-7 and read as 5); NaN
    and the infinities have none.  With [itemId] and [userId] accepted,
    and no object in [itemId], on which [parseInt] could throw before
    the rating is looked at, POST answers 400 INVALID_RATING and writes
    nothing when there is no reading or it is outside 1..5 (so for 0 and
    for 0.5), is otherwise never answered INVALID_RATING, and when the
    create succeeds the stored rating is the reading, not the number. *)
Theorem number_rating_is_read_by_parseInt (clk : nat -> jsstring)
  (b : CreateBody.t) (x : number) (d : db) :
  object_free (CreateBody.itemId b) = true ->
  itemId_rejected b = false ->
  userId_rejected b = false ->
  (rating_passes (integer_read x) = false ->
   POST clk (Some (with_rating b (JNum x))) d
   = (mkresponse (JsonError "Rating must be an integer between 1 and 5"
                    (Some "INVALID_RATING"%string)) 400, d))
  /\ (rating_passes (integer_read x) = true ->
      body (fst (POST clk (Some (with_rating b (JNum x))) d))
      <> JsonError "Rating must be an integer between 1 and 5"
           (Some "INVALID_RATING"%string)
      /\ (status (fst (POST clk (Some (with_rating b (JNum x))) d)) = 201 ->
          exists row,
            body (fst (POST clk (Some (with_rating b (JNum x))) d))
            = JsonReview row
            /\ integer_read x = Some (Review.rating row))).
Proof.
  intros _ Hi Hu.
  pose proof (rating_rejected_number b x) as Hr.
  destruct (rating_decides clk (with_rating b (JNum x)) d Hi Hu) as [Hrej Hacc].
  split; intros Hp; rewrite Hp in Hr.
  - apply Hrej, Hr.
  - destruct (Hacc Hr) as [Hne H201]. split; [exact Hne|].
    intros Hs. destruct (H201 Hs) as (row & Eb & Pr).
    exists row. split; [exact Eb|].
    cbn [with_rating CreateBody.rating] in Pr.
    rewrite parseInt_number in Pr. exact Pr.
Qed.

Lemma number_rating_is_read_by_parseInt_witness :
  integer_read (Finite false 5 (-6)) = Some 5
  /\ integer_read (Finite false 5 0) = Some 0
  /\ integer_read (Finite false 599 1) = Some 5
  /\ (exists row,
         body (fst (POST sample_clock
                      (Some (with_rating
                               (CreateBody.mk (digit 1) (JStr (str "user-1"))
                                  JUndefined (JStr (str "Good")) JUndefined)
                               (JNum (Finite false 5 (-6))))) sample_store))
         = JsonReview row
         /\ Review.rating row = 5)
  /\ POST sample_clock
       (Some (with_rating
                (CreateBody.mk (digit 1) (JStr (str "user-1")) JUndefined
                   (JStr (str "Good")) JUndefined)
                (JNum (Finite false 5 0)))) sample_store
     = (mkresponse (JsonError "Rating must be an integer between 1 and 5"
                      (Some "INVALID_RATING"%string)) 400, sample_store).
Proof.
  split; [reflexivity|]. split; [reflexivity|]. split; [reflexivity|]. split.
  - destruct (number_rating_is_read_by_parseInt sample_clock
                (CreateBody.mk (digit 1) (JStr (str "user-1")) JUndefined
                   (JStr (str "Good")) JUndefined)
                (Finite false 5 (-6)) sample_store) as [_ H];
      [reflexivity|reflexivity|reflexivity|].
    destruct H as [_ H]; [reflexivity|].
    destruct H as (row & E & Hr); [reflexivity|].
    exists row. split; [exact E|].
    assert (E5 : integer_read (Finite false 5 (-6)) = Some 5) by reflexivity.
    congruence.
  - destruct (number_rating_is_read_by_parseInt sample_clock
                (CreateBody.mk (digit 1) (JStr (str "user-1")) JUndefined
                   (JStr (str "Good")) JUndefined)
                (Finite false 5 0) sample_store) as [H _];
      [reflexivity|reflexivity|reflexivity|].
    apply H. reflexivity.
Defined.

(** ** A create undone by a delete *)

(** X14. Deleting the review that a create returned undoes the create:
    the delete is answered 200 with the review's key, the reviews are
    the ones from before the create, and in a store whose aggregates
    were consistent every item has the average and the count that it
    had before.  (The key is not handed out again, and the item's
    [updatedAt] moves.) *)
Theorem create_then_delete_restores (clk clk' : nat -> jsstring)
  (request : option CreateBody.t) (d : db) :
  0 <= reviews_seq d ->
  aggregates_consistent d ->
  status (fst (POST clk request d)) = 201 ->
  exists row,
    body (fst (POST clk request d)) = JsonReview row
    /\ fst (DELETE clk' (key_param (Review.id row)) (snd (POST clk request d)))
       = mkresponse (JsonDeleted (Review.id row)) 200
    /\ reviews (snd (DELETE clk' (key_param (Review.id row))
                       (snd (POST clk request d))))
       = reviews d
    /\ map aggregate
         (items (snd (DELETE clk' (key_param (Review.id row))
                        (snd (POST clk request d)))))
       = map aggregate (items d).
Proof.
  intros Hseq Hcons H201.
  destruct (POST_created clk request d H201)
    as (b & zi & zr & su & st & -> & _ & Pi & Pr & Hr & Eu & Hsu & Et & Hst & Hit & E).
  rewrite E. cbn [fst snd body Review.id]. eexists. split; [reflexivity|].
  cbn [Review.id].
  destruct (next_rowid_fresh d) as [F1 F2].
  destruct (parseInt_key_param (next_rowid d) ltac:(lia)) as [Kt Kp].
  set (id := key_param (next_rowid d)) in *.
  set (v := mkvalues zi (trim su) zr (trim st)
              (stored_comment (CreateBody.comment b)) (clk 0%nat) (clk 1%nat)).
  set (row := Review.mk (next_rowid d) zi (trim su) zr (trim st)
                (stored_comment (CreateBody.comment b)) (clk 0%nat) (clk 1%nat)).
  assert (Hold : forall r, In r (reviews d) -> has_key id r = false).
  { intros r Hr'. unfold has_key, eq_num. rewrite Kp.
    apply Z.eqb_neq. specialize (F2 r Hr'). lia. }
  assert (Hrow : has_key id row = true).
  { unfold has_key, eq_num. rewrite Kp. apply Z.eqb_refl. }
  assert (Hrev : reviews (recomputed (clk 2%nat) zi (inserted v d))
                 = reviews d ++ [row]) by reflexivity.
  assert (Hsel : filter (has_key id)
                   (reviews (recomputed (clk 2%nat) zi (inserted v d))) = [row]).
  { rewrite Hrev, filter_app.
    rewrite (proj2 (filter_nil_iff _ _) Hold). cbn [filter app].
    rewrite Hrow. reflexivity. }
  assert (Hrej : id_rejected id = false).
  { unfold id_rejected. rewrite Kt, Kp. reflexivity. }
  rewrite DELETE_eq, Hrej, Hsel. cbn [fst snd Review.id Review.itemId row].
  split; [reflexivity|].
  assert (Hback : reviews (deleted id (recomputed (clk 2%nat) zi (inserted v d)))
                  = reviews d).
  { unfold deleted, delete_reviews. cbn [snd reviews]. rewrite Hrev, filter_app.
    cbn [filter]. rewrite Hrow. cbn [negb]. rewrite app_nil_r.
    clear - Hold. induction (reviews d) as [|r l IH]; [reflexivity|].
    cbn [filter]. rewrite (Hold r (or_introl eq_refl)). cbn [negb].
    f_equal. apply IH. intros x Hx. apply Hold. right. exact Hx. }
  split; [exact Hback|].
  unfold recomputed at 1. cbn [items].
  assert (Hof : reviews_of (deleted id (recomputed (clk 2%nat) zi (inserted v d))) zi
                = reviews_of d zi)
    by (unfold reviews_of; rewrite Hback; reflexivity).
  rewrite Hof.
  unfold deleted, delete_reviews, recomputed. cbn [snd items].
  unfold inserted, insert_review. cbn [snd items].
  rewrite !map_map.
  unfold aggregates_consistent in Hcons. rewrite Forall_forall in Hcons.
  apply map_ext_in. intros it Hin.
  destruct (Item.id it =? zi) eqn:Ez; cbn [set_item_rating Item.id];
    rewrite ?Ez; [|reflexivity].
  unfold aggregate. cbn [set_item_rating Item.id Item.averageRating Item.totalReviews].
  destruct (Hcons it Hin) as [Ha Ht].
  apply Z.eqb_eq in Ez. rewrite Ez in Ha, Ht.
  rewrite Ha, Ht, average_mean. unfold array_length. reflexivity.
Qed.

Lemma create_then_delete_restores_witness :
  reviews (snd (DELETE sample_clock (Some (str "2"))
                  (snd (POST sample_clock (sample_create (digit 1) (digit 2))
                          one_review))))
  = reviews one_review
  /\ map aggregate
       (items (snd (DELETE sample_clock (Some (str "2"))
                      (snd (POST sample_clock (sample_create (digit 1) (digit 2))
                              one_review)))))
     = [(1, 4%float, 1)].
Proof.
  destruct (create_then_delete_restores sample_clock sample_clock
              (sample_create (digit 1) (digit 2)) one_review)
    as (row & Ebody & _ & Hrev & Hagg).
  - vm_compute. discriminate.
  - repeat constructor.
  - reflexivity.
  - vm_compute in Ebody. injection Ebody as <-.
    split; [exact Hrev|exact Hagg].
Defined.

(** ** What a successful mutation repairs *)

(** X16. With no assumption on the store: after a Create, a Delete, or
    an Update that carries a rating is answered 200 or 201, every row of
    the affected item carries the mean and the count of the item's
    current reviews, even if its aggregate was stale before. *)
Theorem successful_mutation_repairs_item (q : request) (d : db) (i : Z) :
  status (fst (handle q d)) = 200 \/ status (fst (handle q d)) = 201 ->
  affected_item q d = Some i ->
  forall it, In it (items (snd (handle q d))) -> Item.id it = i ->
    consistent_item (snd (handle q d)) it.
Proof.
  intros Hs Ha it.
  assert (G : forall now d0,
            In it (items (recomputed now i d0)) -> Item.id it = i ->
            consistent_item (recomputed now i d0) it).
  { intros now d0 Hin Hid.
    destruct (recomputed_item now i d0 it Hin Hid) as [H1 H2].
    split; rewrite recomputed_reviews_of, Hid; assumption. }
  destruct q as [clk request|clk id request|clk id]; cbn [handle] in *.
  - assert (H201 : status (fst (POST clk request d)) = 201).
    { destruct Hs as [Hs|Hs]; [|exact Hs].
      destruct (POST_cases clk request d)
        as [[_ [H|[H|H]]]|(b0 & v & _ & _ & _ & _ & _ & _ & _ & _ & E)];
        rewrite ?H, ?E in Hs; discriminate Hs. }
    destruct (POST_created clk request d H201)
      as (b & zi & zr & su & st & -> & _ & Pi & _ & _ & _ & _ & _ & _ & _ & E).
    cbn [affected_item] in Ha. rewrite Pi in Ha. injection Ha as ->.
    rewrite E. cbn [snd]. apply G.
  - rewrite PUT_eq in Hs |- *.
    destruct (id_rejected id); [destruct Hs; discriminate|].
    destruct request as [b|]; [|discriminate Ha].
    cbn [affected_item] in Ha. unfold first_keyed_item in Ha.
    destruct (filter (has_key id) (reviews d)) as [|existing rest];
      [destruct Hs; discriminate|].
    destruct (patch_rating_rejected b); [destruct Hs; discriminate|].
    destruct (patch_title_rejected b); [destruct Hs; discriminate|].
    destruct (patch_comment b) as [c|]; [|destruct Hs; discriminate].
    cbv zeta. cbn [snd].
    destruct (is_undefined (UpdateBody.rating b)); [discriminate Ha|].
    injection Ha as <-. apply G.
  - rewrite DELETE_eq in Hs |- *.
    destruct (id_rejected id); [destruct Hs; discriminate|].
    cbn [affected_item] in Ha. unfold first_keyed_item in Ha.
    destruct (filter (has_key id) (reviews d)) as [|existing rest];
      [discriminate Ha|].
    injection Ha as <-. cbn [snd]. apply G.
Qed.

Lemma successful_mutation_repairs_item_witness :
  Forall (consistent_item
            (snd (handle (Create sample_clock (sample_create (digit 1) (digit 4)))
                    stale_store)))
    (items (snd (handle (Create sample_clock (sample_create (digit 1) (digit 4)))
                   stale_store)))
  /\ ~ aggregates_consistent stale_store.
Proof.
  split.
  - apply Forall_forall. intros it Hin.
    apply (successful_mutation_repairs_item
             (Create sample_clock (sample_create (digit 1) (digit 4)))
             stale_store 1); [right; reflexivity|reflexivity|exact Hin|].
    vm_compute in Hin. destruct Hin as [<-|[]]. reflexivity.
  - intros H. inversion H as [|it l [_ Hc] _]. vm_compute in Hc. discriminate Hc.
Defined.

(** ** The review form *)

Lemma required_string_accepted (s : jsstring) :
  trim s <> [] ->
  negb (truthy (JStr s)) || negb (typeof_string (JStr s)) || trim_is_empty (JStr s)
  = false.
Proof.
  intros H. destruct s as [|c s]; [rewrite trim_nil in H; congruence|].
  cbn [truthy typeof_string negb orb trim_is_empty].
  destruct (trim (c :: s)); [congruence|reflexivity].
Qed.

(** X27. What the review form sends is accepted.  In a store whose
    integers the driver reads back (all below 2^53 in magnitude), for a
    route id that [parseInt] reads as the key of a stored item, a user
    id and a title that are not blank, a star rating from 1 to 5, and
    text that the driver keeps (user id, title and comment hold, once
    trimmed, no NUL and no lone surrogate), the body that
    [handleSubmitReview] posts is answered 201; the stored review has
    that item, the star rating, the trimmed user id and title, and a
    null comment when the comment field is empty. *)
Theorem submitted_review_is_created (clk : nat -> jsstring)
  (params_id user_id title comment : jsstring) (rating z : Z) (d : db) :
  store_readable d = true ->
  parseInt_string params_id = Some z ->
  0 < z < 2 ^ 53 ->
  (exists it, In it (items d) /\ Item.id it = z) ->
  1 <= rating <= 5 ->
  trim user_id <> [] ->
  trim title <> [] ->
  storable (trim user_id) = true ->
  storable (trim title) = true ->
  storable (trim comment) = true ->
  exists row,
    fst (POST clk
           (Some (handleSubmitReview_body params_id user_id rating title comment))
           d)
    = mkresponse (JsonReview row) 201
    /\ In row (reviews (snd (POST clk
                               (Some (handleSubmitReview_body params_id user_id
                                        rating title comment)) d)))
    /\ Review.itemId row = z
    /\ Review.userId row = trim user_id
    /\ Review.rating row = rating
    /\ Review.title row = trim title
    /\ Review.comment row
       = match comment with
         | [] => None
         | _ :: _ => Some (trim comment)
         end.
Proof.
  intros _ Hid Hz (it & Hit & Hitid) Hr Hu Ht _ _ _.
  assert (Pz : parseInt (json_number (Some z)) = Some z)
    by (apply parseInt_json_number; lia).
  assert (Pr : parseInt (json_number (Some rating)) = Some rating)
    by (apply parseInt_json_number; lia).
  assert (Tz : truthy (json_number (Some z)) = true)
    by (destruct z; [lia|reflexivity|lia]).
  assert (Tr : truthy (json_number (Some rating)) = true)
    by (destruct rating; [lia|reflexivity|lia]).
  rewrite POST_eq.
  unfold itemId_rejected, userId_rejected, rating_rejected, title_rejected,
    handleSubmitReview_body.
  cbn [CreateBody.itemId CreateBody.userId CreateBody.rating CreateBody.title
       CreateBody.comment].
  rewrite Hid, Pz, Pr, Tz, Tr.
  rewrite (required_string_accepted user_id Hu).
  rewrite (required_string_accepted title Ht).
  cbn [negb orb isNaN num_lt num_gt].
  replace (rating <? 1) with false by (symmetry; apply Z.ltb_ge; lia).
  replace (5 <? rating) with false by (symmetry; apply Z.ltb_ge; lia).
  cbn [orb].
  destruct (filter (fun i => eq_num (Item.id i) (Some z)) (items d))
    as [|it1 l1] eqn:Ef.
  { exfalso.
    pose proof (proj1 (filter_nil_iff _ _) Ef it Hit) as Hno.
    cbn [eq_num] in Hno. rewrite Hitid, Z.eqb_refl in Hno. discriminate. }
  unfold handler, bind, to_integer, call_trim, ret.
  destruct comment as [|c0 comment']; cbn [truthy];
    (eexists; split; [reflexivity|]; split;
     [cbn [snd reviews recomputed insert_review]; apply in_or_app; right;
      left; reflexivity
     |repeat split]).
Qed.

Lemma submitted_review_is_created_witness :
  exists row,
    fst (POST sample_clock
           (Some (handleSubmitReview_body (str "1") (str "user-1") 4
                    (str " Good ") []))
           sample_store)
    = mkresponse (JsonReview row) 201
    /\ Review.itemId row = 1 /\ Review.rating row = 4
    /\ Review.title row = str "Good" /\ Review.comment row = None.
Proof.
  destruct (submitted_review_is_created sample_clock (str "1") (str "user-1")
              (str " Good ") [] 4 1 sample_store)
    as (row & E & _ & H1 & _ & H3 & H4 & H5).
  - vm_compute. reflexivity.
  - reflexivity.
  - split; reflexivity.
  - exists sample_item. split; [left; reflexivity|reflexivity].
  - lia.
  - vm_compute. discriminate.
  - vm_compute. discriminate.
  - vm_compute. reflexivity.
  - vm_compute. reflexivity.
  - vm_compute. reflexivity.
  - exists row. rewrite H4. repeat split; assumption.
Defined.

(** ** An update sent twice *)

Lemma set_review_twice (u : review_updates) (r : Review.t) :
  set_review u (set_review u r) = set_review u r.
Proof.
  unfold set_review. cbn [Review.id Review.itemId Review.userId Review.rating
                          Review.title Review.comment Review.createdAt].
  destruct (u_rating u), (u_title u), (u_comment u); reflexivity.
Qed.

Lemma updated_twice (u : review_updates) (id : option jsstring) (d : db) :
  updated u id (updated u id d) = updated u id d.
Proof.
  unfold updated, update_reviews. cbn [snd items reviews reviews_seq]. f_equal.
  rewrite map_map. apply map_ext. intros r.
  destruct (has_key id r) eqn:E; [|rewrite E; reflexivity].
  assert (E' : has_key id (set_review u r) = true) by exact E.
  rewrite E'. apply set_review_twice.
Qed.

Lemma updated_selects (u : review_updates) (id : option jsstring) (d : db) :
  filter (has_key id) (reviews (updated u id d))
  = map (set_review u) (filter (has_key id) (reviews d)).
Proof.
  unfold updated, update_reviews. cbn [snd reviews].
  rewrite filter_map_if by (intros; reflexivity).
  apply map_ext_in. intros r Hr. apply filter_In in Hr as [_ ->]. reflexivity.
Qed.

(** X29. An update is idempotent: the same PUT sent again, read at the
    same clock, is answered as the first was and leaves the store as the
    first left it.  (Sent at a later clock it differs in the
    [updatedAt] columns only through that clock.) *)
Theorem update_is_idempotent (clk : nat -> jsstring) (id : option jsstring)
  (request : option UpdateBody.t) (d : db) :
  PUT clk id request (snd (PUT clk id request d)) = PUT clk id request d.
Proof.
  rewrite (PUT_eq clk id request d).
  destruct (id_rejected id) eqn:E0;
    [cbn [snd]; rewrite PUT_eq, E0; reflexivity|].
  destruct request as [b|]; [|cbn [snd]; rewrite PUT_eq, E0; reflexivity].
  destruct (filter (has_key id) (reviews d)) as [|existing rest] eqn:Ef;
    [cbn [snd]; rewrite PUT_eq, E0, Ef; reflexivity|].
  destruct (patch_rating_rejected b) eqn:Er;
    [cbn [snd]; rewrite PUT_eq, E0, Ef, Er; reflexivity|].
  destruct (patch_title_rejected b) eqn:Et;
    [cbn [snd]; rewrite PUT_eq, E0, Ef, Er, Et; reflexivity|].
  destruct (patch_comment b) as [c|] eqn:Ec;
    [|cbn [snd]; rewrite PUT_eq, E0, Ef, Er, Et, Ec; reflexivity].
  cbv zeta. cbn [snd].
  set (u := patch_updates clk b c).
  pose proof (updated_selects u id d) as Hsel. rewrite Ef in Hsel.
  cbn [map] in Hsel.
  destruct (is_undefined (UpdateBody.rating b)) eqn:Ur.
  - rewrite PUT_eq, E0, Hsel, Er, Et, Ec. cbv zeta. rewrite Ur.
    fold u. rewrite updated_twice, set_review_twice. reflexivity.
  - assert (Hsel' : filter (has_key id)
                      (reviews (recomputed (clk 1%nat) (Review.itemId existing)
                                  (updated u id d)))
                    = set_review u existing :: map (set_review u) rest)
      by exact Hsel.
    rewrite PUT_eq, E0, Hsel', Er, Et, Ec. cbv zeta. rewrite Ur.
    fold u. rewrite set_review_twice.
    change (Review.itemId (set_review u existing))
      with (Review.itemId existing).
    f_equal.
    assert (Hup : updated u id
                    (recomputed (clk 1%nat) (Review.itemId existing)
                       (updated u id d))
                  = recomputed (clk 1%nat) (Review.itemId existing)
                      (updated u id d)).
    { pose proof (updated_twice u id d) as H2.
      unfold updated, update_reviews, recomputed in *.
      cbn [snd items reviews reviews_seq] in *.
      f_equal. injection H2 as H2. exact H2. }
    rewrite Hup. apply recomputed_absorbs.
Qed.

(** * The items route *)

(** ** [parseFloat] on samples *)

Example parseFloat_samples :
  map (fun s => PrimFloat.eqb (parseFloat_string (str s)) 4.5%float)
    ["4.5"; " 4.5stars"; "+4.5e0"; "45e-1"; ".45E1"; "4.50"]%string
  = [true; true; true; true; true; true]
  /\ map (fun s => PrimFloat.is_nan (parseFloat_string (str s)))
       [""; "."; "e5"; "-"; "abc"; ".e1"; "NaN"]%string
     = [true; true; true; true; true; true; true]
  /\ map (fun v => Prim2SF (parseFloat v))
       [JNum (Finite false 1 0); JNum (Finite false 25 1); JNum (Zero true);
        JStr (str "-Infinity"); JStr (str "5."); JStr (str "1e400");
        JNull; JBool true; JArr [JNum (Finite false 3 1)]]
     = map Prim2SF
         [0x1.999999999999ap-4%float; 2.5%float; 0%float; neg_infinity; 5%float;
          infinity; nan; nan; 3%float].
Proof. vm_compute. repeat split. Qed.

#[local] Opaque parseFloat.

(** ** The handlers in closed form *)

Lemma items_bind_inl {A B} (m : Items.io A) (k : A -> Items.io B)
  (c c' : catalog) (a : A) :
  m c = (inl a, c') -> Items.bind m k c = k a c'.
Proof. intros H; unfold Items.bind; rewrite H; reflexivity. Qed.

Lemma bind_column_eq (drv : driver) (v : jsval) (c : catalog) :
  Items.bind_column drv v c
  = match bound drv v with
    | Some x => (inl x, c)
    | None => (inr DriverError, c)
    end.
Proof.
  unfold Items.bind_column, bound.
  destruct v; try reflexivity; destruct (bind_text drv _); reflexivity.
Qed.

Lemma required_text_accepted (v : jsval) :
  required_text_rejected v = false ->
  exists s, v = JStr s /\ trim s <> [].
Proof.
  unfold required_text_rejected. intros H.
  apply orb_false_iff in H as [H H3]. apply orb_false_iff in H as [H1 H2].
  destruct v; try discriminate. eexists. split; [reflexivity|].
  apply trim_not_empty, H3.
Qed.

(** POST with its validations named. *)
Lemma Items_POST_eq (drv : driver) (clk : nat -> jsstring)
  (b : Items.CreateBody.t) (c : catalog) :
  Items.POST drv clk (Some b) c =
  if required_text_rejected (Items.CreateBody.name b) then
    (Items.mkresponse
       (Items.JsonError "Name is required" (Some "MISSING_NAME"%string)) 400, c)
  else if required_text_rejected (Items.CreateBody.category b) then
    (Items.mkresponse
       (Items.JsonError "Category is required" (Some "MISSING_CATEGORY"%string))
       400, c)
  else
    match bound drv (Items.or_null (Items.CreateBody.description b)),
          bound drv (Items.or_null (Items.CreateBody.imageUrl b)) with
    | Some description, Some imageUrl =>
        (Items.mkresponse
           (Items.JsonItem (new_item clk b description imageUrl c)) 201,
         with_item (new_item clk b description imageUrl c) c)
    | _, _ => (Items.mkresponse (Items.JsonServerError DriverError) 500, c)
    end.
Proof.
  unfold Items.POST, Items.handler.
  rewrite (items_bind_inl (Items.request_json (Some b)) _ c c b eq_refl).
  fold (required_text_rejected (Items.CreateBody.name b)).
  fold (required_text_rejected (Items.CreateBody.category b)).
  destruct (required_text_rejected (Items.CreateBody.name b)) eqn:En;
    [reflexivity|].
  destruct (required_text_rejected (Items.CreateBody.category b)) eqn:Ec;
    [reflexivity|].
  destruct (required_text_accepted _ En) as (sn & Hn & _).
  destruct (required_text_accepted _ Ec) as (sc & Hc & _).
  unfold new_item. rewrite Hn, Hc.
  unfold Items.bind at 1. cbn [Items.call_trim Items.ret].
  unfold Items.bind at 1. cbn [Items.call_trim Items.ret].
  unfold Items.insert_item, Items.bind.
  cbn [Items.v_description Items.v_imageUrl].
  rewrite bind_column_eq.
  destruct (bound drv (Items.or_null (Items.CreateBody.description b)));
    [|reflexivity].
  rewrite bind_column_eq.
  destruct (bound drv (Items.or_null (Items.CreateBody.imageUrl b)));
    reflexivity.
Qed.

Lemma bind_optional_eq (drv : driver) (v : jsval) (c : catalog) :
  Items.bind_optional drv (if negb (is_undefined v) then Some v else None) c
  = match bound_optional drv v with
    | Some x => (inl x, c)
    | None => (inr DriverError, c)
    end.
Proof.
  unfold bound_optional.
  destruct (is_undefined v); cbn [negb Items.bind_optional]; [reflexivity|].
  unfold Items.bind. rewrite bind_column_eq.
  destruct (bound drv v); reflexivity.
Qed.

Lemma optional_text_accepted (v : jsval) :
  optional_text_rejected v = false ->
  (if negb (is_undefined v)
   then Items.bind (Items.call_trim v) (fun x => Items.ret (Some x))
   else Items.ret None)
  = Items.ret (patch_text v)
  /\ match patch_text v with
     | Some t => t <> [] /\ trimmed t = true
     | None => True
     end.
Proof.
  unfold optional_text_rejected, patch_text.
  destruct v; cbn [is_undefined negb typeof_string andb orb];
    try discriminate; try (intros _; split; [reflexivity|exact I]).
  intros H. split; [reflexivity|].
  split; [apply trim_not_empty, H|apply trim_is_trimmed].
Qed.

Lemma total_accepted (b : Items.UpdateBody.t) :
  total_rejected b = false ->
  (if negb (is_undefined (Items.UpdateBody.totalReviews b))
   then Items.bind (Items.to_integer (parseInt (Items.UpdateBody.totalReviews b)))
          (fun x => Items.ret (Some x))
   else Items.ret None)
  = Items.ret (if is_undefined (Items.UpdateBody.totalReviews b) then None
               else parseInt (Items.UpdateBody.totalReviews b))
  /\ match (if is_undefined (Items.UpdateBody.totalReviews b) then None
            else parseInt (Items.UpdateBody.totalReviews b)) with
     | Some z => 0 <= z
     | None => True
     end.
Proof.
  unfold total_rejected.
  destruct (is_undefined (Items.UpdateBody.totalReviews b)); cbn [negb andb];
    [intros _; split; [reflexivity|exact I]|].
  destruct (parseInt (Items.UpdateBody.totalReviews b)) as [z|];
    cbn [isNaN orb num_lt]; [|discriminate].
  intros H. apply Z.ltb_ge in H. split; [reflexivity|exact H].
Qed.

(** PUT in closed form. *)
Lemma Items_PUT_eq (drv : driver) (clk : nat -> jsstring) (id : option jsstring)
  (request : option Items.UpdateBody.t) (c : catalog) :
  Items.PUT drv clk id request c =
  if id_rejected id then
    (Items.mkresponse
       (Items.JsonError "Valid ID is required" (Some "INVALID_ID"%string)) 400, c)
  else
    match request with
    | None => (Items.mkresponse (Items.JsonServerError (JsError SyntaxError)) 500, c)
    | Some b =>
        match filter (item_has_key id) (items (store c)) with
        | [] => (Items.mkresponse (Items.JsonError "Item not found" None) 404, c)
        | existing :: _ =>
            if optional_text_rejected (Items.UpdateBody.name b) then
              (Items.mkresponse
                 (Items.JsonError "Name must be a non-empty string"
                    (Some "INVALID_NAME"%string)) 400, c)
            else if optional_text_rejected (Items.UpdateBody.category b) then
              (Items.mkresponse
                 (Items.JsonError "Category must be a non-empty string"
                    (Some "INVALID_CATEGORY"%string)) 400, c)
            else if average_rejected b then
              (Items.mkresponse
                 (Items.JsonError "Average rating must be between 0 and 5"
                    (Some "INVALID_RATING"%string)) 400, c)
            else if total_rejected b then
              (Items.mkresponse
                 (Items.JsonError "Total reviews must be a non-negative integer"
                    (Some "INVALID_REVIEWS"%string)) 400, c)
            else
              match bound_optional drv (Items.UpdateBody.description b),
                    bound_optional drv (Items.UpdateBody.imageUrl b) with
              | Some description, Some imageUrl =>
                  (Items.mkresponse
                     (Items.JsonItem
                        (Items.set_item (item_patch clk b description imageUrl)
                           existing)) 200,
                   items_updated (item_patch clk b description imageUrl) id c)
              | _, _ =>
                  (Items.mkresponse (Items.JsonServerError DriverError) 500, c)
              end
        end
    end.
Proof.
  unfold Items.PUT, Items.handler.
  change (negb (param_truthy id) || isNaN (parseInt_param id))
    with (id_rejected id).
  destruct (id_rejected id) eqn:E0; [reflexivity|].
  destruct request as [b|]; [|reflexivity].
  rewrite (items_bind_inl (Items.request_json (Some b)) _ c c b eq_refl).
  change (fun i => eq_num (Item.id i) (parseInt_param id)) with (item_has_key id).
  rewrite (items_bind_inl (Items.select_items (item_has_key id)) _ c c _ eq_refl).
  destruct (filter (item_has_key id) (items (store c))) as [|existing rest] eqn:Ef;
    [reflexivity|].
  cbn [limit1 firstn]. cbv zeta.
  fold (optional_text_rejected (Items.UpdateBody.name b)).
  fold (optional_text_rejected (Items.UpdateBody.category b)).
  fold (average_rejected b). fold (total_rejected b).
  destruct (optional_text_rejected (Items.UpdateBody.name b)) eqn:En;
    [reflexivity|].
  destruct (optional_text_accepted _ En) as [-> _].
  rewrite (items_bind_inl (Items.ret (patch_text (Items.UpdateBody.name b)))
             _ c c _ eq_refl).
  destruct (optional_text_rejected (Items.UpdateBody.category b)) eqn:Ec;
    [reflexivity|].
  destruct (optional_text_accepted _ Ec) as [-> _].
  rewrite (items_bind_inl (Items.ret (patch_text (Items.UpdateBody.category b)))
             _ c c _ eq_refl).
  destruct (average_rejected b) eqn:Ea; [reflexivity|].
  destruct (total_rejected b) eqn:Et; [reflexivity|].
  destruct (total_accepted _ Et) as [-> _].
  rewrite (items_bind_inl (Items.ret _) _ c c _ eq_refl).
  unfold Items.update_items.
  cbn [Items.u_description Items.u_imageUrl Items.u_name Items.u_category
       Items.u_averageRating Items.u_totalReviews Items.u_updatedAt].
  unfold Items.bind at 1. unfold Items.bind at 1. rewrite bind_optional_eq.
  destruct (bound_optional drv (Items.UpdateBody.description b)) as [dsc|];
    [|reflexivity].
  unfold Items.bind at 1. rewrite bind_optional_eq.
  destruct (bound_optional drv (Items.UpdateBody.imageUrl b)) as [img|];
    [|reflexivity].
  unfold item_patch, items_updated.
  destruct (is_undefined (Items.UpdateBody.averageRating b)); cbn [negb];
    rewrite Ef; reflexivity.
Qed.

Lemma filter_negb_all {A} (p : A -> bool) (l : list A) :
  filter p l = [] -> filter (fun x => negb (p x)) l = l.
Proof.
  intros H. induction l as [|x l IH]; [reflexivity|].
  cbn [filter] in *. destruct (p x); [discriminate|].
  cbn [negb]. f_equal. apply IH, H.
Qed.

(** DELETE in closed form. *)
Lemma Items_DELETE_eq (drv : driver) (id : option jsstring) (c : catalog) :
  Items.DELETE drv id c =
  if id_rejected id then
    (Items.mkresponse
       (Items.JsonError "Valid ID is required" (Some "INVALID_ID"%string)) 400, c)
  else if foreign_keys drv && key_referenced id c then
    (Items.mkresponse (Items.JsonServerError ConstraintError) 500, c)
  else
    match filter (item_has_key id) (items (store c)), parseInt_param id with
    | _ :: _, Some z =>
        (Items.mkresponse (Items.JsonDeleted z) 200, items_deleted id c)
    | _, _ => (Items.mkresponse (Items.JsonError "Item not found" None) 404, c)
    end.
Proof.
  unfold Items.DELETE, Items.handler.
  change (negb (param_truthy id) || isNaN (parseInt_param id))
    with (id_rejected id).
  destruct (id_rejected id) eqn:E0; [reflexivity|].
  change (fun i => eq_num (Item.id i) (parseInt_param id)) with (item_has_key id).
  unfold Items.bind at 1. unfold Items.delete_items.
  fold (key_referenced id c).
  destruct (foreign_keys drv && key_referenced id c); [reflexivity|].
  destruct (id_accepted _ E0) as [_ Hn].
  destruct (parseInt_param id) as [z|] eqn:Ep; [|discriminate].
  destruct (filter (item_has_key id) (items (store c))) as [|existing rest] eqn:Ef.
  - cbn. rewrite (filter_negb_all _ _ Ef).
    destruct c as [[its rvs sq] isq]. reflexivity.
  - reflexivity.
Qed.

(** ** What a create leaves *)

Lemma item_rowid_fresh (c : catalog) :
  items_seq c < Items.next_rowid c
  /\ forall it, In it (items (store c)) -> Item.id it < Items.next_rowid c.
Proof.
  destruct (fold_left_max_ge (map Item.id (items (store c))) (items_seq c))
    as [H1 H2].
  unfold Items.next_rowid. split; [lia|].
  intros it Hit. specialize (H2 _ (in_map Item.id _ _ Hit)). lia.
Qed.

(** An items POST, by cases. *)
Lemma Items_POST_cases (drv : driver) (clk : nat -> jsstring)
  (request : option Items.CreateBody.t) (c : catalog) :
  (exists b sn sc description imageUrl,
      request = Some b
      /\ Items.CreateBody.name b = JStr sn /\ trim sn <> []
      /\ Items.CreateBody.category b = JStr sc /\ trim sc <> []
      /\ bound drv (Items.or_null (Items.CreateBody.description b))
         = Some description
      /\ bound drv (Items.or_null (Items.CreateBody.imageUrl b)) = Some imageUrl
      /\ Items.POST drv clk request c
         = (Items.mkresponse
              (Items.JsonItem (new_item clk b description imageUrl c)) 201,
            with_item (new_item clk b description imageUrl c) c))
  \/ (snd (Items.POST drv clk request c) = c
      /\ (Items.status (fst (Items.POST drv clk request c)) = 400
          \/ Items.status (fst (Items.POST drv clk request c)) = 500)).
Proof.
  destruct request as [b|]; [|right; split; [reflexivity|right; reflexivity]].
  rewrite Items_POST_eq.
  destruct (required_text_rejected (Items.CreateBody.name b)) eqn:En;
    [right; split; [reflexivity|left; reflexivity]|].
  destruct (required_text_rejected (Items.CreateBody.category b)) eqn:Ec;
    [right; split; [reflexivity|left; reflexivity]|].
  destruct (required_text_accepted _ En) as (sn & Hn & Hsn).
  destruct (required_text_accepted _ Ec) as (sc & Hc & Hsc).
  destruct (bound drv (Items.or_null (Items.CreateBody.description b)))
    as [dsc|] eqn:Ed; [|right; split; [reflexivity|right; reflexivity]].
  destruct (bound drv (Items.or_null (Items.CreateBody.imageUrl b)))
    as [img|] eqn:Ei; [|right; split; [reflexivity|right; reflexivity]].
  left. exists b, sn, sc, dsc, img.
  repeat (split; [first [reflexivity|assumption]|]). reflexivity.
Qed.

(** X17. An items POST is answered 201, 400 or 500, and unless it is
    answered 201 it changes nothing.  Answered 201, it appends exactly
    one item and returns it: the item's key is larger than every key in
    the table and than the sequence, its average and its count are 0,
    and its two timestamps are the one clock reading of the request.
    The name and the category of the body are strings that [trim] leaves
    non-empty; where the driver keeps the text of the body (no NUL and
    no lone surrogate in it), the item carries them trimmed, and the
    description and the image URL as they are bound.  The reviews are
    left alone. *)
Theorem item_create_appends_unrated_item (drv : driver) (clk : nat -> jsstring)
  (request : option Items.CreateBody.t) (c : catalog) :
  (exists b row sn sc,
      request = Some b
      /\ Items.POST drv clk request c
         = (Items.mkresponse (Items.JsonItem row) 201, with_item row c)
      /\ items_seq c < Item.id row
      /\ (forall it, In it (items (store c)) -> Item.id it < Item.id row)
      /\ Items.CreateBody.name b = JStr sn /\ trim sn <> []
      /\ Items.CreateBody.category b = JStr sc /\ trim sc <> []
      /\ (item_text_storable b = true ->
          Item.name row = trim sn
          /\ Item.category row = trim sc
          /\ bound drv (Items.or_null (Items.CreateBody.description b))
             = Some (Item.description row)
          /\ bound drv (Items.or_null (Items.CreateBody.imageUrl b))
             = Some (Item.imageUrl row))
      /\ Item.averageRating row = PrimFloat.zero
      /\ Item.totalReviews row = 0
      /\ Item.createdAt row = clk 0%nat
      /\ Item.updatedAt row = clk 0%nat)
  \/ (snd (Items.POST drv clk request c) = c
      /\ (Items.status (fst (Items.POST drv clk request c)) = 400
          \/ Items.status (fst (Items.POST drv clk request c)) = 500)).
Proof.
  destruct (Items_POST_cases drv clk request c)
    as [(b & sn & sc & dsc & img & -> & Hn & Hsn & Hc & Hsc & Ed & Ei & E)|H];
    [left|right; exact H].
  destruct (item_rowid_fresh c) as [F1 F2].
  exists b, (new_item clk b dsc img c), sn, sc.
  split; [reflexivity|]. split; [exact E|].
  unfold new_item.
  cbn [Item.id Item.name Item.category Item.description Item.imageUrl
       Item.averageRating Item.totalReviews Item.createdAt Item.updatedAt].
  rewrite Hn, Hc. cbn [trimmed_text].
  split; [exact F1|]. split; [exact F2|].
  split; [reflexivity|]. split; [exact Hsn|].
  split; [reflexivity|]. split; [exact Hsc|].
  split; [intros _; repeat split; assumption|].
  repeat split.
Qed.

(** ** Requests that are refused *)

(** A PUT that is not answered 200 changes nothing. *)
Lemma Items_PUT_refused (drv : driver) (clk : nat -> jsstring)
  (id : option jsstring) (request : option Items.UpdateBody.t) (c : catalog) :
  Items.status (fst (Items.PUT drv clk id request c)) <> 200 ->
  snd (Items.PUT drv clk id request c) = c.
Proof.
  rewrite Items_PUT_eq.
  destruct (id_rejected id); [reflexivity|].
  destruct request as [b|]; [|reflexivity].
  destruct (filter (item_has_key id) (items (store c))); [reflexivity|].
  destruct (optional_text_rejected (Items.UpdateBody.name b)); [reflexivity|].
  destruct (optional_text_rejected (Items.UpdateBody.category b));
    [reflexivity|].
  destruct (average_rejected b); [reflexivity|].
  destruct (total_rejected b); [reflexivity|].
  destruct (bound_optional drv (Items.UpdateBody.description b));
    [|reflexivity].
  destruct (bound_optional drv (Items.UpdateBody.imageUrl b)); [|reflexivity].
  intros H. exfalso. apply H. reflexivity.
Qed.

(** X18. A mutation through the items route is answered 200, 201, 400,
    404 or 500, and one that is not answered 200 or 201 leaves both
    tables and the sequence exactly as they were.  This is said of
    integers that the driver reads back: every key and count of the
    catalog, the next key, and the [totalReviews] of a PUT body are
    below 2^53 in magnitude.  (On a larger one the driver throws when it
    reads the rows that an UPDATE or a DELETE returns, after the
    statement has run, and the request is answered 500.) *)
Theorem item_refusal_changes_nothing (drv : driver) (q : Items.request)
  (c : catalog) :
  integers_readable c = true ->
  request_is_safe q = true ->
  Items.status (fst (Items.handle drv q c)) = 200
  \/ Items.status (fst (Items.handle drv q c)) = 201
  \/ ((Items.status (fst (Items.handle drv q c)) = 400
       \/ Items.status (fst (Items.handle drv q c)) = 404
       \/ Items.status (fst (Items.handle drv q c)) = 500)
      /\ snd (Items.handle drv q c) = c).
Proof.
  intros _ _.
  destruct q as [clk b|clk id b|id]; cbn [Items.handle].
  - destruct (Items_POST_cases drv clk b c)
      as [(b0 & sn & sc & dsc & img & _ & _ & _ & _ & _ & _ & _ & E)|[Hc Hs]].
    + rewrite E. right; left; reflexivity.
    + right; right. split; [|exact Hc].
      destruct Hs as [Hs|Hs]; [left|right; right]; exact Hs.
  - rewrite Items_PUT_eq.
    destruct (id_rejected id); [right; right; split; [left|]; reflexivity|].
    destruct b as [b|]; [|right; right; split; [right; right|]; reflexivity].
    destruct (filter (item_has_key id) (items (store c)));
      [right; right; split; [right; left|]; reflexivity|].
    destruct (optional_text_rejected (Items.UpdateBody.name b));
      [right; right; split; [left|]; reflexivity|].
    destruct (optional_text_rejected (Items.UpdateBody.category b));
      [right; right; split; [left|]; reflexivity|].
    destruct (average_rejected b); [right; right; split; [left|]; reflexivity|].
    destruct (total_rejected b); [right; right; split; [left|]; reflexivity|].
    destruct (bound_optional drv (Items.UpdateBody.description b));
      [|right; right; split; [right; right|]; reflexivity].
    destruct (bound_optional drv (Items.UpdateBody.imageUrl b));
      [left; reflexivity|right; right; split; [right; right|]; reflexivity].
  - rewrite Items_DELETE_eq.
    destruct (id_rejected id); [right; right; split; [left|]; reflexivity|].
    destruct (foreign_keys drv && key_referenced id c);
      [right; right; split; [right; right|]; reflexivity|].
    destruct (filter (item_has_key id) (items (store c)));
      [right; right; split; [right; left|]; reflexivity|].
    destruct (parseInt_param id);
      [left; reflexivity|right; right; split; [right; left|]; reflexivity].
Qed.

Lemma item_refusal_changes_nothing_witness :
  integers_readable sample_catalog = true
  /\ Items.status
       (fst (Items.handle strict_driver
               (Items.Update sample_clock (Some (str "1"))
                  (aggregate_patch (digit 6) (digit 3))) sample_catalog)) = 400
  /\ snd (Items.handle strict_driver
            (Items.Update sample_clock (Some (str "1"))
               (aggregate_patch (digit 6) (digit 3))) sample_catalog)
     = sample_catalog.
Proof.
  assert (H1 : integers_readable sample_catalog = true) by (vm_compute; reflexivity).
  assert (H2 : Items.status
                 (fst (Items.handle strict_driver
                         (Items.Update sample_clock (Some (str "1"))
                            (aggregate_patch (digit 6) (digit 3)))
                         sample_catalog)) = 400) by (vm_compute; reflexivity).
  split; [exact H1|]. split; [exact H2|].
  destruct (item_refusal_changes_nothing strict_driver
              (Items.Update sample_clock (Some (str "1"))
                 (aggregate_patch (digit 6) (digit 3))) sample_catalog H1)
    as [H|[H|[_ H]]]; [vm_compute; reflexivity| | |exact H];
    rewrite H2 in H; discriminate H.
Defined.

(** ** The aggregate invariant across both routes *)

Lemma on_store_sequence (q : request) (c : catalog) :
  sequence_covers c -> sequence_covers (on_store (handle q) c).
Proof.
  intros [Hi Hr]. unfold on_store. split; cbn [store items_seq].
  - intros it' Hin.
    destruct (item_keys_transfer (items (snd (handle q (store c))))
                (items (store c)) (Item.id it'))
      as (it & Hit & Hid).
    + symmetry. apply handle_item_keys.
    + exists it'. split; [exact Hin|reflexivity].
    + rewrite <- Hid. apply Hi, Hit.
  - intros r' Hin.
    destruct (handle_review_items q (store c) r' Hin)
      as [(r & Hr' & <-)|(it & Hit & <-)]; [apply Hr, Hr'|apply Hi, Hit].
Qed.

Lemma with_item_invariant (row : Item.t) (c : catalog) :
  Item.id row = Items.next_rowid c ->
  Item.averageRating row = PrimFloat.zero ->
  Item.totalReviews row = 0 ->
  catalog_invariant c -> catalog_invariant (with_item row c).
Proof.
  intros Hid Ha Ht [[Hu Hc] [Hi Hr]].
  destruct (item_rowid_fresh c) as [F1 F2].
  split; [split|split].
  - exact Hu.
  - unfold aggregates_consistent, with_item. cbn [store items].
    apply Forall_app. split.
    + apply Forall_forall. intros it Hit.
      apply (consistent_item_ext (store c)); [reflexivity|].
      unfold aggregates_consistent in Hc. rewrite Forall_forall in Hc.
      apply Hc, Hit.
    + constructor; [|constructor].
      assert (Hnone : reviews_of (store c) (Item.id row) = []).
      { unfold reviews_of. apply filter_nil_iff. intros r Hin.
        apply Z.eqb_neq. specialize (Hr r Hin). lia. }
      split; unfold reviews_of in *; cbn [reviews]; rewrite Hnone;
        [exact Ha|exact Ht].
  - unfold with_item. cbn [store items items_seq].
    intros it Hit. apply in_app_or in Hit as [Hit|[<-|[]]]; [|lia].
    specialize (F2 it Hit). lia.
  - unfold with_item. cbn [store reviews items_seq].
    intros r Hin. specialize (Hr r Hin). lia.
Qed.

Lemma items_updated_invariant (u : Items.bound_updates) (id : option jsstring)
  (c : catalog) :
  Items.b_averageRating u = None ->
  Items.b_totalReviews u = None ->
  catalog_invariant c -> catalog_invariant (items_updated u id c).
Proof.
  intros Ha Ht [[Hu Hc] [Hi Hr]].
  split; [split|split].
  - exact Hu.
  - unfold aggregates_consistent, items_updated. cbn [store items].
    unfold aggregates_consistent in Hc. rewrite Forall_forall in Hc.
    apply Forall_forall. intros it' Hin.
    apply in_map_iff in Hin as (it & <- & Hit).
    specialize (Hc it Hit).
    destruct (item_has_key id it);
      [|apply (consistent_item_ext (store c)); [reflexivity|exact Hc]].
    destruct Hc as [Hc1 Hc2].
    split; unfold Items.set_item;
      cbn [Item.id Item.averageRating Item.totalReviews];
      rewrite ?Ha, ?Ht; cbn [Items.or_keep]; assumption.
  - unfold items_updated. cbn [store items items_seq].
    intros it' Hin. apply in_map_iff in Hin as (it & <- & Hit).
    specialize (Hi it Hit). destruct (item_has_key id it); exact Hi.
  - exact Hr.
Qed.

Lemma items_deleted_invariant (id : option jsstring) (c : catalog) :
  catalog_invariant c -> catalog_invariant (items_deleted id c).
Proof.
  intros [[Hu Hc] [Hi Hr]].
  split; [split|split].
  - exact Hu.
  - unfold aggregates_consistent, items_deleted. cbn [store items].
    unfold aggregates_consistent in Hc. rewrite Forall_forall in Hc.
    apply Forall_forall. intros it Hin. apply filter_In in Hin as [Hin _].
    apply (consistent_item_ext (store c)); [reflexivity|apply Hc, Hin].
  - unfold items_deleted. cbn [store items items_seq].
    intros it Hin. apply filter_In in Hin as [Hin _]. apply Hi, Hin.
  - exact Hr.
Qed.

(** X19. Across both routes the aggregates stay consistent, with one
    exception that the statement names.  Take a catalog in which review
    keys are unique, every item carries the mean and count of its
    reviews, and the sequence of [items] is at least every item key and
    every item that a review refers to.  Then every Create, Update and
    Delete of a review, every items POST and DELETE, and every items PUT
    whose body carries neither [averageRating] nor [totalReviews] leads
    to a catalog with the same properties.  In particular a new item,
    whose aggregate is 0/0, never takes over the reviews of a deleted
    one. *)
Theorem api_keeps_aggregates_consistent (drv : driver) (q : api_request)
  (c : catalog) :
  catalog_invariant c ->
  leaves_aggregates q = true ->
  catalog_invariant (serve drv q c).
Proof.
  intros Hinv Hq.
  destruct q as [q|[clk b|clk id b|id]]; cbn [serve Items.handle].
  - destruct Hinv as [Hs Hseq]. split.
    + unfold on_store. cbn [store]. apply handle_preserves, Hs.
    + apply on_store_sequence, Hseq.
  - destruct (Items_POST_cases drv clk b c)
      as [(b0 & sn & sc & dsc & img & _ & _ & _ & _ & _ & _ & _ & E)|[Hc _]];
      [|rewrite Hc; exact Hinv].
    rewrite E. cbn [snd]. apply with_item_invariant; try reflexivity.
    exact Hinv.
  - rewrite Items_PUT_eq.
    destruct (id_rejected id); [exact Hinv|].
    destruct b as [b|]; [|exact Hinv].
    destruct (filter (item_has_key id) (items (store c))); [exact Hinv|].
    destruct (optional_text_rejected (Items.UpdateBody.name b)); [exact Hinv|].
    destruct (optional_text_rejected (Items.UpdateBody.category b));
      [exact Hinv|].
    destruct (average_rejected b); [exact Hinv|].
    destruct (total_rejected b); [exact Hinv|].
    destruct (bound_optional drv (Items.UpdateBody.description b));
      [|exact Hinv].
    destruct (bound_optional drv (Items.UpdateBody.imageUrl b)); [|exact Hinv].
    cbn [snd]. cbn [leaves_aggregates] in Hq.
    apply andb_true_iff in Hq as [Ha Ht].
    apply items_updated_invariant; [| |exact Hinv];
      unfold item_patch; cbn [Items.b_averageRating Items.b_totalReviews];
      rewrite ?Ha, ?Ht; reflexivity.
  - rewrite Items_DELETE_eq.
    destruct (id_rejected id); [exact Hinv|].
    destruct (foreign_keys drv && key_referenced id c); [exact Hinv|].
    destruct (filter (item_has_key id) (items (store c))); [exact Hinv|].
    destruct (parseInt_param id); [|exact Hinv].
    cbn [snd]. apply items_deleted_invariant, Hinv.
Qed.

Lemma sample_catalog_invariant : catalog_invariant sample_catalog.
Proof.
  split; [split|split].
  - repeat constructor; intros [].
  - constructor; [|constructor]. split; vm_compute; reflexivity.
  - intros it [<-|[]]. vm_compute. discriminate.
  - intros r [<-|[]]. vm_compute. discriminate.
Qed.

Lemma api_keeps_aggregates_consistent_witness :
  catalog_invariant
    (serve strict_driver (ToItems (Items.Create sample_clock sample_item_body))
       sample_catalog)
  /\ map aggregate
       (items (store (serve strict_driver
                        (ToItems (Items.Create sample_clock sample_item_body))
                        sample_catalog)))
     = [(1, 4%float, 1); (2, 0%float, 0)].
Proof.
  split.
  - apply (api_keeps_aggregates_consistent strict_driver
             (ToItems (Items.Create sample_clock sample_item_body))
             sample_catalog);
      [exact sample_catalog_invariant|reflexivity].
  - vm_compute. reflexivity.
Defined.

(** ** An update that writes the aggregate columns *)

Lemma Items_PUT_ok (drv : driver) (clk : nat -> jsstring) (id : option jsstring)
  (request : option Items.UpdateBody.t) (c : catalog) :
  Items.status (fst (Items.PUT drv clk id request c)) = 200 ->
  exists b existing rest description imageUrl,
    request = Some b
    /\ id_rejected id = false
    /\ filter (item_has_key id) (items (store c)) = existing :: rest
    /\ optional_text_rejected (Items.UpdateBody.name b) = false
    /\ optional_text_rejected (Items.UpdateBody.category b) = false
    /\ average_rejected b = false
    /\ total_rejected b = false
    /\ bound_optional drv (Items.UpdateBody.description b) = Some description
    /\ bound_optional drv (Items.UpdateBody.imageUrl b) = Some imageUrl
    /\ Items.PUT drv clk id request c
       = (Items.mkresponse
            (Items.JsonItem
               (Items.set_item (item_patch clk b description imageUrl) existing))
            200,
          items_updated (item_patch clk b description imageUrl) id c).
Proof.
  intros H. rewrite Items_PUT_eq in H. rewrite Items_PUT_eq.
  destruct (id_rejected id) eqn:E0; [discriminate|].
  destruct request as [b|]; [|discriminate].
  destruct (filter (item_has_key id) (items (store c))) as [|existing rest]
    eqn:Ef; [discriminate|].
  destruct (optional_text_rejected (Items.UpdateBody.name b)) eqn:En;
    [discriminate|].
  destruct (optional_text_rejected (Items.UpdateBody.category b)) eqn:Ec;
    [discriminate|].
  destruct (average_rejected b) eqn:Ea; [discriminate|].
  destruct (total_rejected b) eqn:Et; [discriminate|].
  destruct (bound_optional drv (Items.UpdateBody.description b)) as [dsc|]
    eqn:Ed; [|discriminate].
  destruct (bound_optional drv (Items.UpdateBody.imageUrl b)) as [img|]
    eqn:Ei; [|discriminate].
  exists b, existing, rest, dsc, img.
  repeat (split; [first [reflexivity|assumption]|]). reflexivity.
Qed.

(** X20. The items PUT writes the aggregate columns as the client gives
    them.  After a PUT answered 200, with a [totalReviews] below 2^53,
    every item with the key carries the number that
    [parseFloat(averageRating)] gives as its average when the body has
    the property (a negative zero is read back as zero), and
    [parseInt(totalReviews)] as its count when the body has that one,
    whatever reviews the item has; there is such an item, and the
    reviews are not touched. *)
Theorem item_update_writes_given_aggregates (drv : driver)
  (clk : nat -> jsstring) (id : option jsstring) (b : Items.UpdateBody.t)
  (c : catalog) :
  Items.status (fst (Items.PUT drv clk id (Some b) c)) = 200 ->
  total_is_safe b = true ->
  reviews (store (snd (Items.PUT drv clk id (Some b) c))) = reviews (store c)
  /\ (exists it, In it (items (store (snd (Items.PUT drv clk id (Some b) c))))
                 /\ item_has_key id it = true)
  /\ forall it,
       In it (items (store (snd (Items.PUT drv clk id (Some b) c)))) ->
       item_has_key id it = true ->
       (is_undefined (Items.UpdateBody.averageRating b) = false ->
        Item.averageRating it
        = stored_real (parseFloat (Items.UpdateBody.averageRating b)))
       /\ (is_undefined (Items.UpdateBody.totalReviews b) = false ->
           parseInt (Items.UpdateBody.totalReviews b)
           = Some (Item.totalReviews it)).
Proof.
  intros H200 _.
  destruct (Items_PUT_ok drv clk id (Some b) c H200)
    as (b0 & existing & rest & dsc & img & [= <-] & E0 & Ef & _ & _ & _ & Et
        & _ & _ & E).
  rewrite E. cbn [snd]. unfold items_updated. cbn [store items reviews].
  split; [reflexivity|]. split.
  - assert (Hin : In existing (filter (item_has_key id) (items (store c))))
      by (rewrite Ef; left; reflexivity).
    apply filter_In in Hin as [Hin Hk].
    exists (Items.set_item (item_patch clk b dsc img) existing). split.
    + apply in_map_iff. exists existing. rewrite Hk. split; [reflexivity|exact Hin].
    + exact Hk.
  - intros it' Hin Hk. apply in_map_iff in Hin as (it & <- & Hit).
    destruct (item_has_key id it) eqn:Ek.
    + unfold Items.set_item, item_patch.
      cbn [Item.averageRating Item.totalReviews Items.b_averageRating
           Items.b_totalReviews].
      split; intros Hu; rewrite Hu; cbn [option_map Items.or_keep]; [reflexivity|].
      destruct (total_accepted b Et) as [_ Hz]. rewrite Hu in Hz.
      destruct (parseInt (Items.UpdateBody.totalReviews b)) as [z|] eqn:Ep;
        [reflexivity|].
      unfold total_rejected in Et. rewrite Hu, Ep in Et. discriminate.
    + rewrite Ek in Hk. discriminate.
Qed.

Lemma item_update_writes_given_aggregates_witness :
  map aggregate
    (items (store (snd (Items.PUT strict_driver sample_clock (Some (str "1"))
                          (Some (Items.UpdateBody.mk JUndefined JUndefined
                                   JUndefined JUndefined (JStr (str "-0"))
                                   (digit 7)))
                          sample_catalog))))
  = [(1, 0%float, 7)]
  /\ length (reviews_of
               (store (snd (Items.PUT strict_driver sample_clock (Some (str "1"))
                              (Some (Items.UpdateBody.mk JUndefined JUndefined
                                   JUndefined JUndefined (JStr (str "-0"))
                                   (digit 7)))
                              sample_catalog))) 1) = 1%nat.
Proof.
  destruct (item_update_writes_given_aggregates strict_driver sample_clock
              (Some (str "1"))
              (Items.UpdateBody.mk JUndefined JUndefined JUndefined JUndefined
                 (JStr (str "-0")) (digit 7))
              sample_catalog) as (Hr & _ & _); [reflexivity|reflexivity|].
  split; [vm_compute; reflexivity|].
  unfold reviews_of. rewrite Hr. reflexivity.
Defined.

(** ** The range of the aggregate columns *)

(** Swapping the operands of a comparison of two binary64 values swaps
    its outcome. *)
Lemma SFcompare_swap (x y : spec_float) :
  SFcompare y x
  = match SFcompare x y with
    | Some c => Some (CompOpp c)
    | None => None
    end.
Proof.
  destruct x as [[|]|[|]| |[|] m e], y as [[|]|[|]| |[|] m' e'];
    cbn [SFcompare CompOpp]; try reflexivity.
  - rewrite (Z.compare_antisym e e').
    change (PosDef.Pos.compare_cont Eq) with Pos.compare.
    rewrite (Pos.compare_antisym m m').
    destruct (e ?= e'); reflexivity.
  - rewrite (Z.compare_antisym e e').
    change (PosDef.Pos.compare_cont Eq) with Pos.compare.
    rewrite (Pos.compare_antisym m m').
    destruct (e ?= e'); reflexivity.
Qed.

Lemma float_accepted_in_range (x : float) :
  PrimFloat.is_nan x = false ->
  PrimFloat.ltb x 0 = false ->
  PrimFloat.ltb 5 x = false ->
  float_in_0_5 x.
Proof.
  unfold float_in_0_5, PrimFloat.is_nan.
  rewrite eqb_spec, !ltb_spec, !leb_spec.
  assert (E0 : Prim2SF 0 = S754_zero false) by (vm_compute; reflexivity).
  assert (E5 : exists m e, Prim2SF 5 = S754_finite false m e)
    by (do 2 eexists; vm_compute; reflexivity).
  destruct E5 as (m5 & e5 & E5). rewrite E0, E5. clear E0 E5.
  unfold SFeqb, SFltb, SFleb.
  rewrite (SFcompare_swap (Prim2SF x) (S754_finite false m5 e5)).
  rewrite (SFcompare_swap (S754_zero false) (Prim2SF x)).
  destruct (Prim2SF x) as [s|s| |s m e].
  - intros _ _ _. split; reflexivity.
  - destruct s; [intros _ H; discriminate H|intros _ _ H; discriminate H].
  - intros H; discriminate H.
  - destruct s; [intros _ H; discriminate H|].
    intros _ _.
    destruct (SFcompare (S754_finite false m e) (S754_finite false m5 e5))
      as [[| |]|] eqn:E; cbn [CompOpp]; intros H; try discriminate H;
      try discriminate E; split; reflexivity.
Qed.

Lemma average_accepted (b : Items.UpdateBody.t) :
  average_rejected b = false ->
  is_undefined (Items.UpdateBody.averageRating b) = false ->
  float_in_0_5 (parseFloat (Items.UpdateBody.averageRating b)).
Proof.
  unfold average_rejected. intros H Hu. rewrite Hu in H. cbn [negb andb] in H.
  apply orb_false_iff in H as [H H3]. apply orb_false_iff in H as [H1 H2].
  apply float_accepted_in_range; assumption.
Qed.

Lemma stored_real_in_range (x : float) :
  float_in_0_5 x -> float_in_0_5 (stored_real x).
Proof.
  intros H. unfold stored_real.
  destruct (PrimFloat.eqb x 0); [split; vm_compute; reflexivity|exact H].
Qed.

(** X21. The items route keeps the aggregate columns in range: if every
    item has an average between 0 and 5 and a count that is not
    negative, every item has after any POST, PUT or DELETE of the
    route.  (The PUT refuses an [averageRating] that [parseFloat] reads
    as NaN or outside 0..5 and a [totalReviews] that [parseInt] reads as
    NaN or negative.) *)
Theorem items_route_keeps_ranges (drv : driver) (q : Items.request)
  (c : catalog) :
  Forall aggregate_in_range (items (store c)) ->
  Forall aggregate_in_range (items (store (snd (Items.handle drv q c)))).
Proof.
  intros Hok.
  destruct q as [clk b|clk id b|id]; cbn [Items.handle].
  - destruct (Items_POST_cases drv clk b c)
      as [(b0 & sn & sc & dsc & img & _ & _ & _ & _ & _ & _ & _ & E)|[Hc _]];
      [|rewrite Hc; exact Hok].
    rewrite E. cbn [snd]. unfold with_item. cbn [store items].
    apply Forall_app. split; [exact Hok|].
    constructor; [|constructor].
    split; [split; vm_compute; reflexivity|cbn; lia].
  - destruct (Z.eq_dec (Items.status (fst (Items.PUT drv clk id b c))) 200)
      as [H200|Hne].
    + destruct (Items_PUT_ok drv clk id b c H200)
        as (b0 & existing & rest & dsc & img & -> & _ & _ & _ & _ & Ea & Et
            & _ & _ & E).
      rewrite E. cbn [snd]. unfold items_updated. cbn [store items].
      rewrite Forall_forall in Hok. apply Forall_forall.
      intros it' Hin. apply in_map_iff in Hin as (it & <- & Hit).
      specialize (Hok it Hit). destruct (item_has_key id it); [|exact Hok].
      destruct Hok as [Hav Htot].
      unfold aggregate_in_range, average_in_range, Items.set_item, item_patch.
      cbn [Item.averageRating Item.totalReviews Items.b_averageRating
           Items.b_totalReviews].
      split.
      * destruct (is_undefined (Items.UpdateBody.averageRating b0)) eqn:Ua;
          cbn [option_map Items.or_keep]; [exact Hav|].
        apply stored_real_in_range, (average_accepted b0 Ea Ua).
      * destruct (total_accepted b0 Et) as [_ Hz].
        destruct (if is_undefined (Items.UpdateBody.totalReviews b0)
                  then None
                  else parseInt (Items.UpdateBody.totalReviews b0));
          cbn [Items.or_keep]; assumption.
    + rewrite (Items_PUT_refused drv clk id b c Hne). exact Hok.
  - rewrite Items_DELETE_eq.
    destruct (id_rejected id); [exact Hok|].
    destruct (foreign_keys drv && key_referenced id c); [exact Hok|].
    destruct (filter (item_has_key id) (items (store c))); [exact Hok|].
    destruct (parseInt_param id); [|exact Hok].
    cbn [snd]. unfold items_deleted. cbn [store items].
    rewrite Forall_forall in Hok. apply Forall_forall.
    intros it Hin. apply filter_In in Hin as [Hin _]. apply Hok, Hin.
Qed.

Lemma sample_catalog_items : items (store sample_catalog) = [sample_item_rated].
Proof. vm_compute. reflexivity. Qed.

Lemma items_route_keeps_ranges_witness :
  Forall aggregate_in_range
    (items (store (snd (Items.handle strict_driver
                          (Items.Update sample_clock (Some (str "1"))
                             (aggregate_patch (JStr (str "4.5")) (digit 3)))
                          sample_catalog))))
  /\ map aggregate
       (items (store (snd (Items.handle strict_driver
                             (Items.Update sample_clock (Some (str "1"))
                                (aggregate_patch (JStr (str "4.5")) (digit 3)))
                             sample_catalog))))
     = [(1, 4.5%float, 3)].
Proof.
  split.
  - apply (items_route_keeps_ranges strict_driver
             (Items.Update sample_clock (Some (str "1"))
                (aggregate_patch (JStr (str "4.5")) (digit 3)))
             sample_catalog).
    rewrite sample_catalog_items.
    constructor; [|constructor].
    split; [split; vm_compute; reflexivity|vm_compute; discriminate].
  - vm_compute. reflexivity.
Defined.

(** ** DELETE *)

Lemma Items_DELETE_ok (drv : driver) (id : option jsstring) (c : catalog) :
  Items.status (fst (Items.DELETE drv id c)) = 200 ->
  exists z existing rest,
    id_rejected id = false
    /\ parseInt_param id = Some z
    /\ filter (item_has_key id) (items (store c)) = existing :: rest
    /\ foreign_keys drv && key_referenced id c = false
    /\ Items.DELETE drv id c
       = (Items.mkresponse (Items.JsonDeleted z) 200, items_deleted id c).
Proof.
  intros H. rewrite Items_DELETE_eq in H. rewrite Items_DELETE_eq.
  destruct (id_rejected id) eqn:E0; [discriminate|].
  destruct (foreign_keys drv && key_referenced id c) eqn:Ek; [discriminate|].
  destruct (filter (item_has_key id) (items (store c))) as [|existing rest]
    eqn:Ef; [discriminate|].
  destruct (parseInt_param id) as [z|] eqn:Ep; [|discriminate].
  exists z, existing, rest. repeat (split; [reflexivity|]). reflexivity.
Qed.

Lemma key_referenced_false (id : option jsstring) (c : catalog) (r : Review.t)
  (it : Item.t) :
  key_referenced id c = false ->
  In r (reviews (store c)) ->
  In it (items (store c)) ->
  Item.id it = Review.itemId r ->
  item_has_key id it = false.
Proof.
  unfold key_referenced. intros Hk Hr Hit Hid.
  destruct (item_has_key id it) eqn:E; [|reflexivity].
  assert (Hex : existsb (Items.referenced
                           (filter (item_has_key id) (items (store c))))
                  (reviews (store c)) = true).
  { apply existsb_exists. exists r. split; [exact Hr|].
    unfold Items.referenced. apply existsb_exists. exists it. split.
    - apply filter_In. split; assumption.
    - apply Z.eqb_eq, Hid. }
  rewrite Hex in Hk. discriminate.
Qed.

(** X22. After an items DELETE answered 200 no item with the key is
    left, every other item is kept, in order, and the sequence stays, so
    the key is not handed out again.  The reviews are not touched: every
    review of the deleted item is still stored, and refers to no item.
    A second DELETE with the key, and a PUT with it, are answered 404
    and change nothing. *)
Theorem item_delete_leaves_reviews (drv : driver) (clk : nat -> jsstring)
  (id : option jsstring) (c : catalog) :
  Items.status (fst (Items.DELETE drv id c)) = 200 ->
  items (store (snd (Items.DELETE drv id c)))
  = filter (fun i => negb (item_has_key id i)) (items (store c))
  /\ reviews (store (snd (Items.DELETE drv id c))) = reviews (store c)
  /\ items_seq (snd (Items.DELETE drv id c)) = items_seq c
  /\ (forall r, In r (reviews (store c)) -> refers_to_key id r = true ->
        forall it, In it (items (store (snd (Items.DELETE drv id c)))) ->
          Item.id it <> Review.itemId r)
  /\ Items.DELETE drv id (snd (Items.DELETE drv id c))
     = (Items.mkresponse (Items.JsonError "Item not found" None) 404,
        snd (Items.DELETE drv id c))
  /\ (forall b,
        Items.PUT drv clk id (Some b) (snd (Items.DELETE drv id c))
        = (Items.mkresponse (Items.JsonError "Item not found" None) 404,
           snd (Items.DELETE drv id c))).
Proof.
  intros H200.
  destruct (Items_DELETE_ok drv id c H200)
    as (z & existing & rest & E0 & Ep & Ef & Ek & E).
  rewrite E. cbn [snd].
  assert (Hnone : filter (item_has_key id) (items (store (items_deleted id c)))
                  = [])
    by (unfold items_deleted; cbn [store items]; apply filter_negb_none).
  split; [reflexivity|]. split; [reflexivity|]. split; [reflexivity|].
  split; [|split].
  - intros r Hr Hkey it Hit Hid.
    pose proof (proj1 (filter_nil_iff _ _) Hnone it Hit) as Hno.
    unfold item_has_key in Hno. unfold refers_to_key in Hkey.
    rewrite Hid, Hkey in Hno. discriminate.
  - rewrite Items_DELETE_eq, E0.
    assert (Hkr : key_referenced id (items_deleted id c) = false).
    { unfold key_referenced. rewrite Hnone.
      clear. induction (reviews (store (items_deleted id c))) as [|r l IH];
        [reflexivity|exact IH]. }
    rewrite Hkr, andb_false_r, Hnone. reflexivity.
  - intros b. rewrite Items_PUT_eq, E0, Hnone. reflexivity.
Qed.

Lemma item_delete_leaves_reviews_witness :
  items (store orphaned_catalog) = []
  /\ reviews (store orphaned_catalog) = [sample_review]
  /\ items_seq orphaned_catalog = 1.
Proof.
  destruct (item_delete_leaves_reviews strict_driver sample_clock
              (Some (str "1")) sample_catalog) as (H1 & H2 & H3 & _);
    [reflexivity|].
  unfold orphaned_catalog. rewrite H1, H2, H3.
  repeat split.
Defined.

(** ** References under enforced foreign keys *)

(** X23. With foreign keys enforced, both routes keep every reference
    resolved: if each review refers to a stored item before a mutation
    through either route, each does after it.  An items DELETE for an
    item that has reviews is then answered 500 and changes nothing. *)
Theorem enforced_keys_keep_references (drv : driver) (q : api_request)
  (c : catalog) :
  foreign_keys drv = true ->
  references_resolve (store c) ->
  references_resolve (store (serve drv q c))
  /\ (forall id, q = ToItems (Items.Delete id) ->
        id_rejected id = false -> key_referenced id c = true ->
        Items.DELETE drv id c
        = (Items.mkresponse (Items.JsonServerError ConstraintError) 500, c)).
Proof.
  intros Hfk Href. split.
  - destruct q as [q|[clk b|clk id b|id]]; cbn [serve Items.handle].
    + unfold on_store. cbn [store]. intros r' Hr'.
      apply (item_keys_transfer (items (store c))); [apply handle_item_keys|].
      destruct (handle_review_items q (store c) r' Hr') as [(r & Hr & <-)|Hit];
        [apply Href, Hr|exact Hit].
    + destruct (Items_POST_cases drv clk b c)
        as [(b0 & sn & sc & dsc & img & _ & _ & _ & _ & _ & _ & _ & E)|[Hc _]];
        [|rewrite Hc; exact Href].
      rewrite E. cbn [snd]. unfold with_item. intros r Hr.
      cbn [store reviews items] in *.
      destruct (Href r Hr) as (it & Hit & Hid).
      exists it. split; [apply in_or_app; left; exact Hit|exact Hid].
    + destruct (Z.eq_dec (Items.status (fst (Items.PUT drv clk id b c))) 200)
        as [H200|Hne].
      * destruct (Items_PUT_ok drv clk id b c H200)
          as (b0 & existing & rest & dsc & img & -> & _ & _ & _ & _ & _ & _
              & _ & _ & E).
        rewrite E. cbn [snd]. unfold items_updated. intros r Hr.
        cbn [store reviews items] in *.
        destruct (Href r Hr) as (it & Hit & Hid).
        exists (if item_has_key id it
                then Items.set_item (item_patch clk b0 dsc img) it else it).
        split.
        -- apply in_map_iff. exists it. split; [reflexivity|exact Hit].
        -- destruct (item_has_key id it); exact Hid.
      * rewrite (Items_PUT_refused drv clk id b c Hne). exact Href.
    + rewrite Items_DELETE_eq.
      destruct (id_rejected id); [exact Href|].
      rewrite Hfk. cbn [andb].
      destruct (key_referenced id c) eqn:Ek; [exact Href|].
      destruct (filter (item_has_key id) (items (store c))); [exact Href|].
      destruct (parseInt_param id); [|exact Href].
      cbn [snd]. unfold items_deleted. intros r Hr.
      cbn [store reviews items] in *.
      destruct (Href r Hr) as (it & Hit & Hid).
      exists it. split; [|exact Hid].
      apply filter_In. split; [exact Hit|].
      rewrite (key_referenced_false id c r it Ek Hr Hit Hid). reflexivity.
  - intros id _ E0 Ek. rewrite Items_DELETE_eq, E0, Hfk, Ek. reflexivity.
Qed.

Lemma enforced_keys_keep_references_witness :
  serve enforcing_driver (ToItems (Items.Delete (Some (str "1")))) sample_catalog
  = sample_catalog
  /\ references_resolve
       (store (serve enforcing_driver (ToItems (Items.Delete (Some (str "1"))))
                 sample_catalog)).
Proof.
  destruct (enforced_keys_keep_references enforcing_driver
              (ToItems (Items.Delete (Some (str "1")))) sample_catalog)
    as [H1 H2].
  - reflexivity.
  - intros r [<-|[]]. exists sample_item_rated.
    split; [vm_compute; left; reflexivity|reflexivity].
  - split; [|exact H1].
    cbn [serve Items.handle].
    rewrite (H2 (Some (str "1")) eq_refl); reflexivity.
Defined.

(** ** GET *)

Lemma Items_GET_by_id (execute : Items.select_query -> Items.io (list Item.t))
  (sp : Items.search_params) (c : catalog) :
  param_truthy (Items.p_id sp) = true ->
  Items.GET execute sp c =
  if isNaN (parseInt_param (Items.p_id sp)) then
    (Items.mkresponse
       (Items.JsonError "Valid ID is required" (Some "INVALID_ID"%string)) 400, c)
  else
    match filter (item_has_key (Items.p_id sp)) (items (store c)) with
    | [] => (Items.mkresponse (Items.JsonError "Item not found" None) 404, c)
    | i :: _ => (Items.mkresponse (Items.JsonItem i) 200, c)
    end.
Proof.
  intros Ht. unfold Items.GET, Items.handler. rewrite Ht.
  destruct (isNaN (parseInt_param (Items.p_id sp))); [reflexivity|].
  change (fun i => eq_num (Item.id i) (parseInt_param (Items.p_id sp)))
    with (item_has_key (Items.p_id sp)).
  rewrite (items_bind_inl (Items.select_items (item_has_key (Items.p_id sp)))
             _ c c _ eq_refl).
  destruct (filter (item_has_key (Items.p_id sp)) (items (store c)));
    reflexivity.
Qed.

(** X24. An item that a POST returned can be fetched: GET with the
    returned key answers 200 with the same item and changes nothing; and
    until the item is rated it shows an average and a count of 0.  Keys
    start at 1, so the sequence is taken as not negative. *)
Theorem created_item_is_found
  (execute : Items.select_query -> Items.io (list Item.t)) (drv : driver)
  (clk : nat -> jsstring) (request : option Items.CreateBody.t) (c : catalog)
  (sp : Items.search_params) :
  0 <= items_seq c ->
  Items.status (fst (Items.POST drv clk request c)) = 201 ->
  exists row,
    Items.body (fst (Items.POST drv clk request c)) = Items.JsonItem row
    /\ aggregate row = (Item.id row, PrimFloat.zero, 0)
    /\ (Items.p_id sp = key_param (Item.id row) ->
        Items.GET execute sp (snd (Items.POST drv clk request c))
        = (Items.mkresponse (Items.JsonItem row) 200,
           snd (Items.POST drv clk request c))).
Proof.
  intros Hseq H201.
  destruct (Items_POST_cases drv clk request c)
    as [(b & sn & sc & dsc & img & -> & _ & _ & _ & _ & _ & _ & E)|[_ [H|H]]];
    [|rewrite H in H201; discriminate|rewrite H in H201; discriminate].
  rewrite E. cbn [fst snd Items.body]. eexists. split; [reflexivity|].
  split; [reflexivity|].
  destruct (item_rowid_fresh c) as [F1 F2].
  unfold new_item at 1. cbn [Item.id]. intros Hid.
  destruct (parseInt_key_param (Items.next_rowid c) ltac:(lia)) as [Kt Kp].
  rewrite Items_GET_by_id by (rewrite Hid; exact Kt).
  rewrite Hid, Kp. cbn [isNaN].
  unfold with_item. cbn [store items].
  rewrite filter_app.
  assert (Hnone : filter (item_has_key (key_param (Items.next_rowid c)))
                    (items (store c)) = []).
  { apply filter_nil_iff. intros it Hit. unfold item_has_key, eq_num. rewrite Kp.
    apply Z.eqb_neq. specialize (F2 it Hit). lia. }
  rewrite Hnone. cbn [filter app].
  unfold item_has_key, eq_num at 1. rewrite Kp.
  unfold new_item at 1. cbn [Item.id]. rewrite Z.eqb_refl. reflexivity.
Qed.

Lemma created_item_is_found_witness :
  exists row,
    Items.body (fst (Items.POST strict_driver sample_clock sample_item_body
                       sample_catalog)) = Items.JsonItem row
    /\ Item.id row = 2 /\ Item.name row = str "Toaster"
    /\ Items.GET all_items (item_by_id (Some (str "2")))
         (snd (Items.POST strict_driver sample_clock sample_item_body
                 sample_catalog))
       = (Items.mkresponse (Items.JsonItem row) 200,
          snd (Items.POST strict_driver sample_clock sample_item_body
                 sample_catalog)).
Proof.
  destruct (created_item_is_found all_items strict_driver sample_clock
              sample_item_body sample_catalog (item_by_id (Some (str "2"))))
    as (row & Ebody & _ & Hget); [vm_compute; discriminate|reflexivity|].
  exists row. split; [exact Ebody|].
  vm_compute in Ebody. injection Ebody as <-.
  split; [reflexivity|split; [reflexivity|]]. apply Hget. reflexivity.
Defined.

(** What the list branch of the items GET hands to the engine. *)
Lemma Items_GET_query
  (check : (Items.select_query -> Items.io (list Item.t)) ->
           Items.select_query -> Items.io (list Item.t))
  (execute : Items.select_query -> Items.io (list Item.t))
  (sp : Items.search_params) (c : catalog) :
  (forall (conditions : list Items.condition) o,
      check execute
        (Items.mkquery
           (if 0 <? array_length conditions then Some conditions else None)
           (Math_min_100 (parseInt_string (nullish (Items.p_limit sp) (str "10"))))
           o)
      = execute
          (Items.mkquery
             (if 0 <? array_length conditions then Some conditions else None)
             (Math_min_100
                (parseInt_string (nullish (Items.p_limit sp) (str "10"))))
             o)) ->
  Items.GET (check execute) sp c = Items.GET execute sp c.
Proof.
  intros E. unfold Items.GET, Items.handler.
  destruct (param_truthy (Items.p_id sp)); [reflexivity|].
  cbv zeta. unfold Items.bind. rewrite E. reflexivity.
Qed.

(** X25. What the list branch of the items GET hands to the engine.  The
    limit is capped from above only: it is never above 100, and the
    conjunction of conditions is never empty, so an engine that refuses
    a larger limit and an empty conjunction serves every request as the
    plain engine does (an empty [search] or [category] adds no
    condition).  The limit is not bounded below: one that [parseInt]
    reads as at most 100, a negative one too, is handed on as it is, so
    an engine that refuses every other limit serves the request as the
    plain engine does.  (A database that reads a negative limit as no
    limit can then return more than 100 rows.) *)
Theorem items_get_caps_limit_from_above_only
  (execute : Items.select_query -> Items.io (list Item.t))
  (sp : Items.search_params) (c : catalog) :
  Items.GET (items_checked execute) sp c = Items.GET execute sp c
  /\ forall z : Z,
       parseInt_string (nullish (Items.p_limit sp) (str "10")) = Some z ->
       z <= 100 ->
       Items.GET (items_handed_limit z execute) sp c = Items.GET execute sp c.
Proof.
  split.
  - apply (Items_GET_query items_checked). intros conditions o.
    unfold items_checked. cbn [Items.q_limit Items.q_where].
    assert (Hw : (if 0 <? array_length conditions then Some conditions else None)
                 <> Some []).
    { destruct conditions as [|x l]; cbn; [discriminate|].
      unfold array_length. cbn [length].
      destruct (0 <? Z.of_nat (S (length l))); discriminate. }
    destruct (if 0 <? array_length conditions then Some conditions else None)
      as [[|x l]|]; try congruence;
      destruct (parseInt_string (nullish (Items.p_limit sp) (str "10")))
        as [z|]; cbn [Math_min_100]; try reflexivity;
      (replace (Z.min z 100 <=? 100) with true
        by (symmetry; apply Z.leb_le; lia)); reflexivity.
  - intros z Hz Hle. apply (Items_GET_query (items_handed_limit z)).
    intros conditions o. unfold items_handed_limit. cbn [Items.q_limit].
    rewrite Hz. cbn [Math_min_100].
    replace (Z.min z 100 =? z) with true; [reflexivity|].
    symmetry. apply Z.eqb_eq. lia.
Qed.

Lemma items_get_caps_limit_from_above_only_witness :
  parseInt_string (str "-1") = Some (-1)
  /\ Items.GET (items_handed_limit (-1) all_items)
       (Items.mkparams None (Some (str "-1")) None None None) sample_catalog
     = Items.GET all_items
         (Items.mkparams None (Some (str "-1")) None None None) sample_catalog.
Proof.
  split; [reflexivity|].
  destruct (items_get_caps_limit_from_above_only all_items
              (Items.mkparams None (Some (str "-1")) None None None)
              sample_catalog) as [_ H].
  apply H; [reflexivity|lia].
Defined.

(** ** Item keys *)

Lemma item_keys_filter (keep : Item.t -> bool) (rows : list Item.t) :
  NoDup (map Item.id rows) -> NoDup (map Item.id (filter keep rows)).
Proof.
  intros Hnd. induction rows as [|i rows IH]; cbn [filter map]; [constructor|].
  cbn [map] in Hnd. apply NoDup_cons_iff in Hnd as [Hfresh Hnd].
  destruct (keep i); cbn [map]; [|apply IH, Hnd].
  apply NoDup_cons; [|apply IH, Hnd].
  intros Hin. apply Hfresh.
  apply in_map_iff in Hin as (i' & Hid & Hin).
  apply filter_In in Hin as [Hin _].
  rewrite <- Hid. apply in_map, Hin.
Qed.

Lemma items_updated_keys (u : Items.bound_updates) (id : option jsstring)
  (c : catalog) :
  map Item.id (items (store (items_updated u id c)))
  = map Item.id (items (store c)).
Proof.
  unfold items_updated. cbn [store items]. rewrite map_map.
  apply map_ext. intros i. destruct (item_has_key id i); reflexivity.
Qed.

(** X26. Item keys stay unique: if no two items share a key before a
    mutation through either route, none do after it.  An items PUT,
    whatever its answer, keeps the number and the order of the items,
    keeps the key and the creation time of every item, and leaves the
    items that the key does not select as they were. *)
Theorem item_keys_stay_unique (drv : driver) (q : api_request) (c : catalog) :
  item_keys_unique c ->
  item_keys_unique (serve drv q c)
  /\ (forall clk id b, q = ToItems (Items.Update clk id b) ->
        Forall2 (item_put_relates id) (items (store c))
          (items (store (serve drv q c)))).
Proof.
  unfold item_keys_unique. intros Hu. split.
  - destruct q as [q|[clk b|clk id b|id]]; cbn [serve Items.handle].
    + unfold on_store. cbn [store]. rewrite handle_item_keys. exact Hu.
    + destruct (Items_POST_cases drv clk b c)
        as [(b0 & sn & sc & dsc & img & _ & _ & _ & _ & _ & _ & _ & E)|[Hc _]];
        [|rewrite Hc; exact Hu].
      rewrite E. cbn [snd]. unfold with_item. cbn [store items].
      rewrite map_app. cbn [map].
      apply NoDup_app; [exact Hu|repeat constructor; intros []|].
      intros x Hx [<-|[]].
      apply in_map_iff in Hx as (it & Hid & Hit).
      destruct (item_rowid_fresh c) as [_ F2]. specialize (F2 it Hit).
      unfold new_item in Hid. cbn [Item.id] in Hid. lia.
    + rewrite Items_PUT_eq.
      repeat (match goal with
              | |- context [if ?x then _ else _] => destruct x
              | |- context [match ?x with _ => _ end] => destruct x
              end; try exact Hu).
      cbn [snd]. rewrite items_updated_keys. exact Hu.
    + rewrite Items_DELETE_eq.
      repeat (match goal with
              | |- context [if ?x then _ else _] => destruct x
              | |- context [match ?x with _ => _ end] => destruct x
              end; try exact Hu).
      cbn [snd]. unfold items_deleted. cbn [store items].
      apply item_keys_filter, Hu.
  - intros clk id b ->. cbn [serve Items.handle].
    assert (Hrefl : Forall2 (item_put_relates id) (items (store c))
                      (items (store c))).
    { apply Forall2_refl. intros i. repeat split. }
    rewrite Items_PUT_eq.
    repeat (match goal with
            | |- context [if ?x then _ else _] => destruct x
            | |- context [match ?x with _ => _ end] => destruct x
            end; try exact Hrefl).
    cbn [snd]. unfold items_updated. cbn [store items].
    apply Forall2_map_same. intros i. unfold item_put_relates.
    destruct (item_has_key id i); repeat split; discriminate.
Qed.

Lemma item_keys_stay_unique_witness :
  item_keys_unique
    (serve strict_driver (ToItems (Items.Create sample_clock sample_item_body))
       sample_catalog).
Proof.
  destruct (item_keys_stay_unique strict_driver
              (ToItems (Items.Create sample_clock sample_item_body))
              sample_catalog) as [H _]; [|exact H].
  unfold item_keys_unique. rewrite sample_catalog_items.
  repeat constructor. intros [].
Defined.

(** * The home page *)

(** X30. The search of the home page fails on an item without a
    description.  With a search text that is not blank, [filterItems]
    ends with a TypeError exactly when some item of the selected
    category has a null description and a name that does not contain
    the query; otherwise it yields, in order, the items of the category
    whose name or description contains the query.  With a blank search
    text it yields the items of the category. *)
Theorem search_fails_on_missing_description
  (toLowerCase : jsstring -> jsstring) (items : list Item.t)
  (selectedCategory searchQuery : jsstring) :
  (trim searchQuery = [] ->
   filterItems toLowerCase items selectedCategory searchQuery
   = inl (in_category selectedCategory items))
  /\ (trim searchQuery <> [] ->
      if existsb (search_throws toLowerCase (toLowerCase searchQuery))
           (in_category selectedCategory items)
      then filterItems toLowerCase items selectedCategory searchQuery
           = inr TypeError
      else filterItems toLowerCase items selectedCategory searchQuery
           = inl (filter (search_matches toLowerCase (toLowerCase searchQuery))
                    (in_category selectedCategory items))).
Proof.
  unfold filterItems.
  assert (Hcat : (if negb (jsstring_eqb selectedCategory (str "All"))
                  then filter (fun item =>
                                 jsstring_eqb (Item.category item) selectedCategory)
                         items
                  else items) = in_category selectedCategory items)
    by (unfold in_category; destruct (jsstring_eqb selectedCategory (str "All"));
        reflexivity).
  rewrite Hcat. clear Hcat.
  split.
  - intros ->. reflexivity.
  - intros Hq.
    destruct (trim searchQuery) as [|c t] eqn:Et; [congruence|].
    cbn [truthy]. cbv zeta.
    set (query := toLowerCase searchQuery).
    induction (in_category selectedCategory items) as [|item l IH];
      [reflexivity|].
    cbn [filter_throwing existsb filter].
    unfold search_throws at 1, search_matches at 1.
    destruct (includes (toLowerCase (Item.name item)) query) eqn:En;
      cbn [negb andb orb].
    + destruct (existsb (search_throws toLowerCase query) l);
        rewrite IH; reflexivity.
    + destruct (Item.description item) as [dsc|]; [|reflexivity].
      destruct (existsb (search_throws toLowerCase query) l);
        rewrite IH; [reflexivity|].
      destruct (includes (toLowerCase dsc) query); reflexivity.
Qed.

(** The item that the items POST created without a description stops a
    search that its name does not match; a search that every name
    matches goes through. *)
Example search_after_item_create :
  let listed :=
    items (store (snd (Items.POST strict_driver sample_clock sample_item_body
                         sample_catalog))) in
  map Item.description listed = [None; None]
  /\ filterItems ascii_lower listed (str "All") (str "Kettle") = inr TypeError
  /\ filterItems ascii_lower listed (str "kitchen") (str "T")
     = inl listed.
Proof. vm_compute. repeat split. Qed.
